(** * Attendance dashboard controller: a shallow embedding

    The repository holds two variants of one OWL component,
    [AttendanceDashboard], and a patch of the form view controller:

    - variant B, [hr_attendance_dashboard/static/src/js/attendance_dashboard.js]
      (department filter, absent and on-leave lists, leave-list toggle);
    - variant A, the second dashboard file (department and job filters,
      recent check-ins, employee list, progress colours);
    - the [FormController] patch hiding the action menu of one model.

    The controller is JavaScript: its state is a mutable object, its remote
    calls are promises awaited on one event loop.  The embedding keeps both:
    [this.state] is a finite map from field names to JavaScript values, and
    an asynchronous method is a resumption, a computation that runs on the
    shared world until its next [await] and is resumed with the reply and
    with the world as it is at that later moment.

    Scope of the value model.  The strings of the controller itself are
    sequences of ASCII characters; the name of an employee is a sequence of
    UTF-16 code units, upper-cased by Unicode's mapping, which is taken as
    given.  The numbers held by the controller are integers, [NaN] or an
    infinity (every number it computes comes from [parseInt] or from the
    calendar), rounded to doubles and printed as JavaScript does.  An
    attendance rate is any double: [NaN], an infinity, or a rational. *)

From Stdlib Require Import ZArith QArith Lia Bool List Ascii String.
From Stdlib Require Import Numbers.DecimalString.
From Stdlib Require Numbers.DecimalPos.
From stdpp Require Import gmap strings list fin_maps.

Import ListNotations.
Local Open Scope Z_scope.
Set Warnings "-register-all".

(** ** JavaScript values *)

Module JS.

(** The numbers the controller holds: [NaN], an integer, an infinity.
    [Int z] stands for the JavaScript number [z], [z] being an integer that
    is a double; the operations below round to the nearest double, as
    JavaScript does. *)
Inductive num : Type :=
| NaN
| Int (z : Z)
| Infinity (negative : bool).

Inductive value : Type :=
| Undefined
| Null
| Bool (b : bool)
| Num (n : num)
| Str (s : string)
| Arr (items : list value)
| Obj (fields : list (string * value)).

(** What a [throw] carries.  Only the built-in [TypeError] and rejection
    values of the remote-call service occur. *)
Inductive exn : Type :=
| TypeError (msg : string)
| Rejected (reason : value).

Inductive result (A : Type) : Type :=
| Normal (a : A)
| Throw (e : exn).
Arguments Normal {A} a.
Arguments Throw {A} e.

(** [ToBoolean]: the test of [if (v)], [!v], [v ? a : b] and [v || d]. *)
Definition truthy (v : value) : bool :=
  match v with
  | Undefined | Null => false
  | Bool b => b
  | Num NaN => false
  | Num (Int z) => negb (z =? 0)
  | Num (Infinity _) => true
  | Str s => negb (String.eqb s "")
  | Arr _ | Obj _ => true
  end.

(** *** Doubles

    The double nearest to a positive integer, ties going to the even
    significand of 53 bits; [None] beyond the largest double. *)
Definition nearest_double (v : Z) : option Z :=
  let e := Z.log2 v in
  if e <=? 52 then Some v
  else
    let shift := e - 52 in
    let q := Z.shiftr v shift in
    let r := Z.land v (Z.ones shift) in
    let half := Z.shiftl 1 (shift - 1) in
    let q' := if (half <? r) || ((r =? half) && Z.odd q) then q + 1 else q in
    let rounded := Z.shiftl q' shift in
    if Z.log2 rounded <=? 1023 then Some rounded else None.

(** The number an integer result becomes. *)
Definition round_double (z : Z) : num :=
  match z with
  | 0 => Int 0
  | Zpos _ => match nearest_double z with
              | Some v => Int v
              | None => Infinity false
              end
  | Zneg _ => match nearest_double (- z) with
              | Some v => Int (- v)
              | None => Infinity true
              end
  end.

(** *** Numbers as strings *)

(** An integer in decimal digits. *)
Definition decimal (z : Z) : string := NilZero.string_of_int (Z.to_int z).

Definition reads_as (x v : Z) : bool :=
  match nearest_double v with
  | Some r => r =? x
  | None => false
  end.

(** [Number::toString] picks the decimal with the fewest significant digits
    that reads back as the number [x], the closest to [x] if there are two:
    with [k] significant digits out of [d], the candidates are the two
    multiples of [10^(d-k)] around [x]. *)
Fixpoint shortest (fuel : nat) (x : Z) (d k : Z) : Z :=
  match fuel with
  | O => x
  | S fuel' =>
      let p := 10 ^ (d - k) in
      let lo := (x / p) * p in
      let hi := lo + p in
      match reads_as x lo, reads_as x hi with
      | true, true =>
          if x - lo <? hi - x then lo
          else if hi - x <? x - lo then hi
          else if Z.even (x / p) then lo else hi
      | true, false => lo
      | false, true => hi
      | false, false => shortest fuel' x d (k + 1)
      end
  end.

Fixpoint strip_zeros (s : string) : string :=
  match s with
  | EmptyString => EmptyString
  | String c rest =>
      match strip_zeros rest with
      | EmptyString => if Ascii.eqb c "0" then EmptyString else String c EmptyString
      | rest' => String c rest'
      end
  end.

(** [d.ddde+n], for a number of more than 21 digits. *)
Definition exponent_form (digits : string) : string :=
  let n := String.length digits in
  match strip_zeros digits with
  | String c EmptyString => String c ("e+" +:+ decimal (Z.of_nat (n - 1)))
  | String c rest => String c ("." +:+ rest +:+ "e+" +:+ decimal (Z.of_nat (n - 1)))
  | EmptyString => digits
  end.

Definition large_to_string (x : Z) : string :=
  let d := String.length (decimal x) in
  let digits := decimal (shortest d x (Z.of_nat d) 1) in
  if (String.length digits <=? 21)%nat then digits else exponent_form digits.

(** [String(z)] for an integer: all its digits up to 2^53; beyond, the
    shortest digits that read back as [z], with an exponent from 10^21
    on. *)
Definition Z_to_string (z : Z) : string :=
  if Z.abs z <? 2 ^ 53 then decimal z
  else if z <? 0 then String "-" (large_to_string (- z))
  else large_to_string z.

Definition num_to_string (n : num) : string :=
  match n with
  | NaN => "NaN"
  | Int z => Z_to_string z
  | Infinity false => "Infinity"
  | Infinity true => "-Infinity"
  end.

Fixpoint join (sep : string) (l : list string) : string :=
  match l with
  | [] => ""
  | [x] => x
  | x :: rest => x +:+ sep +:+ join sep rest
  end.

(** [ToString], as applied by a template literal and by [+] on a string. *)
Fixpoint to_string (v : value) : string :=
  match v with
  | Undefined => "undefined"
  | Null => "null"
  | Bool true => "true"
  | Bool false => "false"
  | Num n => num_to_string n
  | Str s => s
  | Arr items =>
      join "," (List.map (fun x => match x with
                                   | Undefined | Null => ""
                                   | _ => to_string x
                                   end) items)
  | Obj _ => "[object Object]"
  end.

(** [ToNumber] on the primitives that are not strings. *)
Definition to_number (v : value) : num :=
  match v with
  | Null => Int 0
  | Bool b => Int (if b then 1 else 0)
  | Num n => n
  | _ => NaN
  end.

Definition num_add (a b : num) : num :=
  match a, b with
  | Int x, Int y => round_double (x + y)
  | Infinity s, Int _ | Int _, Infinity s => Infinity s
  | Infinity s, Infinity t => if Bool.eqb s t then Infinity s else NaN
  | _, _ => NaN
  end.

(** The binary [+]: string concatenation as soon as one operand is (or
    converts to) a string, numeric addition otherwise. *)
Definition add (a b : value) : value :=
  match a, b with
  | Str _, _ | Arr _, _ | Obj _, _
  | _, Str _ | _, Arr _ | _, Obj _ => Str (to_string a +:+ to_string b)
  | _, _ => Num (num_add (to_number a) (to_number b))
  end.

(** [v === 'lit'] against a string literal. *)
Definition strict_eq_str (v : value) (lit : string) : bool :=
  match v with
  | Str s => String.eqb s lit
  | _ => false
  end.

(** [data.key]: reading a property of [null] or [undefined] throws; a
    missing property reads as [undefined]. *)
Fixpoint assoc (key : string) (fields : list (string * value)) : value :=
  match fields with
  | [] => Undefined
  | (k, v) :: rest => if String.eqb k key then v else assoc key rest
  end.

Definition get_prop (v : value) (key : string) : result value :=
  match v with
  | Undefined => Throw (TypeError "Cannot read properties of undefined")
  | Null => Throw (TypeError "Cannot read properties of null")
  | Obj fields => Normal (assoc key fields)
  | _ => Normal Undefined
  end.

(** *** Strings

    The strings of the controller itself (field names, literals, numerals,
    what a selector hands over) are ASCII, and a [string] is a sequence of
    ASCII characters.  On these [toUpperCase] is the table of the 26
    letters.  A name may be in any script: [getInitials] is modelled on
    code units in the module [Unicode] below, and the ASCII functions here
    are its restriction to ASCII names. *)

Definition upper_char (c : ascii) : ascii :=
  let n := nat_of_ascii c in
  if ((97 <=? n)%nat && (n <=? 122)%nat)%bool then ascii_of_nat (n - 32) else c.

Fixpoint toUpperCase (s : string) : string :=
  match s with
  | EmptyString => EmptyString
  | String c rest => String (upper_char c) (toUpperCase rest)
  end.

(** [s.split(sep)] for a one-character separator: never the empty list. *)
Fixpoint split (sep : ascii) (s : string) : list string :=
  match s with
  | EmptyString => [EmptyString]
  | String c rest =>
      if Ascii.eqb c sep then EmptyString :: split sep rest
      else match split sep rest with
           | [] => [String c EmptyString]
           | part :: parts => String c part :: parts
           end
  end.

(** [s.substring(lo, hi)] for [lo <= hi]. *)
Definition substring (lo hi : nat) (s : string) : string :=
  String.substring lo (hi - lo) s.

(** [s[0]]: the first character, [undefined] on the empty string. *)
Definition char0 (s : string) : value :=
  match s with
  | EmptyString => Undefined
  | String c _ => Str (String c EmptyString)
  end.

(** [parts[i]] on an array of strings, [undefined] out of range. *)
Definition index (parts : list string) (i : nat) : value :=
  match nth_error parts i with
  | Some s => Str s
  | None => Undefined
  end.

(** [v[0]] on a value: throws on [undefined]. *)
Definition first_of (v : value) : result value :=
  match v with
  | Str s => Normal (char0 s)
  | Undefined => Throw (TypeError "Cannot read properties of undefined")
  | Null => Throw (TypeError "Cannot read properties of null")
  | _ => Normal Undefined
  end.

(** [v.toUpperCase()]: a method of strings only. *)
Definition call_toUpperCase (v : value) : result string :=
  match v with
  | Str s => Normal (toUpperCase s)
  | Undefined => Throw (TypeError "Cannot read properties of undefined")
  | Null => Throw (TypeError "Cannot read properties of null")
  | _ => Throw (TypeError "toUpperCase is not a function")
  end.

(** *** [parseInt] without a radix argument *)

Definition is_space (c : ascii) : bool :=
  let n := nat_of_ascii c in
  ((n =? 32) || ((9 <=? n) && (n <=? 13)))%nat.

Fixpoint skip_spaces (s : string) : string :=
  match s with
  | String c rest => if is_space c then skip_spaces rest else s
  | EmptyString => s
  end.

Definition digit_value (radix : Z) (c : ascii) : option Z :=
  let n := Z.of_nat (nat_of_ascii c) in
  let d := if (48 <=? n) && (n <=? 57) then Some (n - 48)
           else if (97 <=? n) && (n <=? 122) then Some (n - 87)
           else if (65 <=? n) && (n <=? 90) then Some (n - 55)
           else None in
  match d with
  | Some k => if k <? radix then Some k else None
  | None => None
  end.

(** The longest prefix of digits, read in [radix]; [None] if it is empty. *)
Fixpoint digits (radix : Z) (acc : option Z) (s : string) : option Z :=
  match s with
  | EmptyString => acc
  | String c rest =>
      match digit_value radix c with
      | Some d => digits radix (Some (match acc with
                                      | Some a => a * radix + d
                                      | None => d
                                      end)) rest
      | None => acc
      end
  end.

Definition parseInt (s : string) : num :=
  let s1 := skip_spaces s in
  let '(negative, s2) :=
    match s1 with
    | String "-" rest => (true, rest)
    | String "+" rest => (false, rest)
    | _ => (false, s1)
    end in
  let '(radix, s3) :=
    match s2 with
    | String "0" (String "x" rest) | String "0" (String "X" rest) => (16, rest)
    | _ => (10, s2)
    end in
  match digits radix None s3 with
  | Some v => round_double (if negative then - v else v)
  | None => NaN
  end.

(** *** Safe integers

    The integers every one of which is a double
    ([Number.isSafeInteger]): on them [parseInt] and [String] are exact and
    inverse to each other.  Beyond, a numeral is rounded when it is read
    and a number does not print all its digits. *)
Definition safe_integer (z : Z) : Prop := - 2 ^ 53 < z < 2 ^ 53.

(** *** Comparing numbers *)



(** *** Rates

    An attendance rate is any JavaScript number: [NaN], an infinity, or a
    finite double, which is a rational.  ([undefined], the
    [attendance_rate] of an empty [todayStats], converts to [NaN] before it
    is compared.) *)
Inductive number : Type :=
| NotANumber
| Infinite (negative : bool)
| Finite (q : Q).

(** [a >= b] and [a < b] against a finite constant [b]: both are [false]
    when [a] is [NaN]. *)
Definition number_ge (a : number) (b : Q) : bool :=
  match a with
  | NotANumber => false
  | Infinite negative => negb negative
  | Finite q => Qle_bool b q
  end.

Definition number_lt (a : number) (b : Q) : bool :=
  match a with
  | NotANumber => false
  | Infinite negative => negative
  | Finite q => negb (Qle_bool b q)
  end.

End JS.

(** ** The runtime: world, resumptions, event loop *)

Module Runtime.

Import JS.

(** [orm.call(model, method, args)] and what the promise settles to. *)
Record rpc : Type := Rpc { rpc_model : string; rpc_method : string; rpc_args : list value }.

Inductive reply : Type :=
| Resolve (data : value)
| Reject (reason : value).

(** What [new Date()] shows at the moment it is read. *)
Record date : Type := Date { getMonth : Z; getFullYear : Z; toLocaleTimeString : string }.

Inductive effect : Type :=
| OrmCall (c : rpc)
| ConsoleError (msg : string) (e : exn)
| WindowOpen (url target : string)
| Uncaught (e : exn).

Section Resumptions.

(** [H] names the methods of the component that the outside can invoke: the
    handlers bound in the template and the callbacks given to timers. *)
Context {H : Type}.

Record world : Type := World {
  state : gmap string value;          (* this.state *)
  refreshInterval : value;            (* this.refreshInterval *)
  intervals : list (nat * H * Z);     (* the browser's intervals: id, callback, period in ms *)
  clock : date;
  trace : list effect                 (* observable effects, oldest first *)
}.

Definition with_state (f : gmap string value → gmap string value) (w : world) : world :=
  {| state := f (state w); refreshInterval := refreshInterval w;
     intervals := intervals w; clock := clock w; trace := trace w |}.

Definition log (e : effect) (w : world) : world :=
  {| state := state w; refreshInterval := refreshInterval w;
     intervals := intervals w; clock := clock w; trace := trace w ++ [e] |}.

Definition with_clock (d : date) (w : world) : world :=
  {| state := state w; refreshInterval := refreshInterval w;
     intervals := intervals w; clock := d; trace := trace w |}.

(** [this.state.f]: a field never assigned reads as [undefined]. *)
Definition field (f : string) (w : world) : value := default Undefined (state w !! f).

(** A computation that has run as far as it could: finished, with a value or
    an exception, or suspended at an [await] on a remote call.  It resumes
    with the reply and with the world of that later moment, which other
    tasks may have changed meanwhile. *)
Inductive susp (A : Type) : Type :=
| Done (w : world) (r : result A)
| Await (w : world) (c : rpc) (k : reply → world → susp A).
Arguments Done {A} w r.
Arguments Await {A} w c k.

Definition async (A : Type) : Type := world → susp A.

Fixpoint bind_susp {A B : Type} (m : susp A) (f : A → async B) : susp B :=
  match m with
  | Done w (Normal a) => f a w
  | Done w (Throw e) => Done w (Throw e)
  | Await w c k => Await w c (λ r w', bind_susp (k r w') f)
  end.

Fixpoint catch_susp {A : Type} (m : susp A) (h : exn → async A) : susp A :=
  match m with
  | Done w (Normal a) => Done w (Normal a)
  | Done w (Throw e) => h e w
  | Await w c k => Await w c (λ r w', catch_susp (k r w') h)
  end.

#[global] Instance async_ret : MRet async := λ A a w, Done w (Normal a).
#[global] Instance async_bind : MBind async := λ A B f m w, bind_susp (m w) f.

(** [try { body } catch (error) { handler }] *)
Definition try_catch {A : Type} (body : async A) (handler : exn → async A) : async A :=
  λ w, catch_susp (body w) handler.

(** An expression that may throw. *)
Definition eval {A : Type} (r : result A) : async A := λ w, Done w r.

Definition read (f : string) : async value := λ w, Done w (Normal (field f w)).

(** [this.state.f = v] *)
Definition assign (f : string) (v : value) : async unit :=
  λ w, Done (with_state (insert f v) w) (Normal tt).

Definition new_Date : async date := λ w, Done w (Normal (clock w)).

Definition console_error (msg : string) (e : exn) : async unit :=
  λ w, Done (log (ConsoleError msg e) w) (Normal tt).

Definition window_open (url target : string) : async unit :=
  λ w, Done (log (WindowOpen url target) w) (Normal tt).

(** [await this.orm.call(model, method, args)] *)
Definition orm_call (model method : string) (args : list value) : async value :=
  λ w, let c := Rpc model method args in
       Await (log (OrmCall c) w) c
             (λ r w', match r with
                      | Resolve data => Done w' (Normal data)
                      | Reject reason => Done w' (Throw (Rejected reason))
                      end).

(** [this.refreshInterval = setInterval(callback, ms)]: the browser hands out
    a fresh positive id and keeps the entry until [clearInterval(id)]. *)
Definition setInterval (callback : H) (ms : Z) : async value :=
  λ w, let id := S (length (intervals w)) in
       Done {| state := state w; refreshInterval := refreshInterval w;
               intervals := intervals w ++ [(id, callback, ms)];
               clock := clock w; trace := trace w |}
            (Normal (Num (Int (Z.of_nat id)))).

Definition set_refreshInterval (v : value) : async unit :=
  λ w, Done {| state := state w; refreshInterval := v; intervals := intervals w;
               clock := clock w; trace := trace w |} (Normal tt).

End Resumptions.

Arguments world H : clear implicits.
Arguments susp H A : clear implicits.
Arguments async H A : clear implicits.
Arguments Done {H A} w r.
Arguments Await {H A} w c k.

(** *** The component in its host

    [setup()] builds the state and registers lifecycle callbacks; the
    framework runs the [onWillStart] callbacks and waits for them before the
    first render, runs the [onMounted] ones once the component is in the
    page, and the [onWillUnmount] ones when it leaves it.  Between those
    moments the event loop takes one job at a time: a reply of the server
    resumes the task that awaits it, an interval of the browser fires, the
    user triggers a handler of the template. *)

Record hooks (H : Type) : Type := Hooks {
  onWillStart : list (async H unit);
  onMounted : list (async H unit);
  onWillUnmount : list (async H unit)
}.
Arguments Hooks {H}.
Arguments onWillStart {H}.
Arguments onMounted {H}.
Arguments onWillUnmount {H}.

Record component (H : Type) : Type := Component {
  initial_state : date → gmap string value;
  setup : hooks H;
  handle : H → async H unit
}.
Arguments Component {H}.
Arguments initial_state {H}.
Arguments setup {H}.
Arguments handle {H}.

Inductive origin (H : Type) : Type :=
| FromHook
| FromInterval (h : H)
| FromUser (h : H).
Arguments FromHook {H}.
Arguments FromInterval {H} h.
Arguments FromUser {H} h.

(** A remote call in flight, the job it belongs to, and what runs when it
    settles. *)
Record pending (H : Type) : Type := Pending {
  p_origin : origin H;
  p_call : rpc;
  p_resume : reply → world H → susp H unit
}.
Arguments Pending {H}.
Arguments p_origin {H}.
Arguments p_call {H}.
Arguments p_resume {H}.

Inductive phase : Type := Created | Starting | Mounted | Destroyed.

Record system (H : Type) : Type := System {
  sys_world : world H;
  inflight : list (pending H);
  sys_phase : phase;
  delivered : nat                   (* replies delivered so far *)
}.
Arguments System {H}.
Arguments sys_world {H}.
Arguments inflight {H}.
Arguments sys_phase {H}.
Arguments delivered {H}.

Inductive event (H : Type) : Type :=
| EvWillStart
| EvMounted
| EvReply (i : nat) (r : reply)
| EvInterval (i : nat)
| EvUser (h : H)
| EvUnmount
| EvClock (d : date).
Arguments EvWillStart {H}.
Arguments EvMounted {H}.
Arguments EvReply {H} i r.
Arguments EvInterval {H} i.
Arguments EvUser {H} h.
Arguments EvUnmount {H}.
Arguments EvClock {H} d.

Section EventLoop.

Context {H : Type} (comp : component H).

Definition run_all (callbacks : list (async H unit)) : async H unit :=
  foldr (λ cb rest, cb ;; rest) (mret tt) callbacks.

(** A job has run until it finished or suspended. *)
Definition settle (o : origin H) (m : susp H unit) (sys : system H) : system H :=
  match m with
  | Done w (Normal _) =>
      System w (inflight sys) (sys_phase sys) (delivered sys)
  | Done w (Throw e) =>
      System (log (Uncaught e) w) (inflight sys) (sys_phase sys) (delivered sys)
  | Await w c k =>
      System w (inflight sys ++ [Pending o c k]) (sys_phase sys) (delivered sys)
  end.

Definition start (o : origin H) (job : async H unit) (sys : system H) : system H :=
  settle o (job (sys_world sys)) sys.

Definition enter (p : phase) (sys : system H) : system H :=
  System (sys_world sys) (inflight sys) p (delivered sys).

Definition boot (d : date) : system H :=
  System (World (initial_state comp d) Undefined [] d []) [] Created 0.

Definition step (ev : event H) (sys : system H) : option (system H) :=
  match ev with
  | EvWillStart =>
      match sys_phase sys with
      | Created => Some (start FromHook (run_all (onWillStart (setup comp))) (enter Starting sys))
      | _ => None
      end
  | EvMounted =>
      match sys_phase sys, inflight sys with
      | Starting, [] => Some (start FromHook (run_all (onMounted (setup comp))) (enter Mounted sys))
      | _, _ => None
      end
  | EvReply i r =>
      match inflight sys !! i with
      | Some p =>
          Some (settle (p_origin p) (p_resume p r (sys_world sys))
                  (System (sys_world sys) (delete i (inflight sys)) (sys_phase sys)
                     (S (delivered sys))))
      | None => None
      end
  | EvInterval i =>
      match intervals (sys_world sys) !! i with
      | Some (_, callback, _) => Some (start (FromInterval callback) (handle comp callback) sys)
      | None => None
      end
  | EvUser h =>
      match sys_phase sys with
      | Mounted => Some (start (FromUser h) (handle comp h) sys)
      | _ => None
      end
  | EvUnmount =>
      match sys_phase sys with
      | Mounted => Some (start FromHook (run_all (onWillUnmount (setup comp))) (enter Destroyed sys))
      | _ => None
      end
  | EvClock d =>
      Some (System (with_clock d (sys_world sys)) (inflight sys) (sys_phase sys) (delivered sys))
  end.

Fixpoint run (evs : list (event H)) (sys : system H) : option (system H) :=
  match evs with
  | [] => Some sys
  | ev :: rest =>
      match step ev sys with
      | Some sys' => run rest sys'
      | None => None
      end
  end.

(** The systems the component can be in: those some schedule of events
    leads to, from its creation at some date. *)
Definition reachable (sys : system H) : Prop :=
  ∃ d evs, run evs (boot d) = Some sys.

End EventLoop.

Section Observations.

Context {H : Type}.

(** The remote calls issued so far, oldest first. *)
Definition calls_of (w : world H) : list rpc :=
  flat_map (λ e, match e with
                 | OrmCall c => [c]
                 | _ => []
                 end) (trace w).

(** How many of them went to [method]. *)
Definition calls (method : string) (w : world H) : nat :=
  length (List.filter (λ c, String.eqb (rpc_method c) method) (calls_of w)).

(** The exceptions no handler caught. *)
Definition uncaught (w : world H) : list exn :=
  flat_map (λ e, match e with
                 | Uncaught x => [x]
                 | _ => []
                 end) (trace w).

(** A job run to its end with nothing else scheduled meanwhile: [server]
    answers each call and the job resumes on the world it left. *)
Fixpoint complete {A : Type} (server : world H → rpc → reply) (m : susp H A)
  : world H * result A :=
  match m with
  | Done w r => (w, r)
  | Await w c k => complete server (k (server w c) w)
  end.

(** [guarantee stretch final w0 m]: however the calls of [m] settle and
    whatever the other jobs do to the world while [m] is suspended, every
    stretch of [m] between two suspensions takes the world it starts on to
    one related by [stretch], and [m] finishes in a world satisfying [final]. *)
Inductive guarantee {A : Type} (stretch : world H → world H → Prop)
    (final : world H → Prop) : world H → susp H A → Prop :=
| guarantee_done w0 w r :
    stretch w0 w → final w → guarantee stretch final w0 (Done w r)
| guarantee_await w0 w c k :
    stretch w0 w →
    (∀ r w', guarantee stretch final w' (k r w')) →
    guarantee stretch final w0 (Await w c k).

(** [tidy stretch w0 m]: as [guarantee], and [m] finishes normally: in no
    schedule does it end with an exception. *)
Inductive tidy {A : Type} (stretch : world H → world H → Prop)
  : world H → susp H A → Prop :=
| tidy_done w0 w a :
    stretch w0 w → tidy stretch w0 (Done w (Normal a))
| tidy_await w0 w c k :
    stretch w0 w →
    (∀ r w', tidy stretch w' (k r w')) →
    tidy stretch w0 (Await w c k).

End Observations.

End Runtime.

(** ** Presentation helpers

    [getInitials] has the same text in both dashboard files;
    [getProgressColor] exists in variant A only.  [getInitials] is given
    here on names written in ASCII, with the functions of [JS] on ASCII
    strings, and in the module [Unicode] below on names of any script. *)

Module Helpers.

Import JS.

Definition bind_result {A B : Type} (r : result A) (f : A → result B) : result B :=
  match r with
  | Normal a => f a
  | Throw e => Throw e
  end.

Definition getInitials (name : string) : result string :=
  if negb (truthy (Str name)) then Normal "?"%string
  else
    let parts := split " " name in
    if (2 <=? length parts)%nat then
      bind_result (first_of (index parts 0)) (λ a,
      bind_result (first_of (index parts 1)) (λ b,
      call_toUpperCase (add a b)))
    else Normal (toUpperCase (substring 0 2 name)).

Definition getProgressColor (rate : number) : string :=
  if number_ge rate 90 then "#10b981"
  else if number_ge rate 70 then "#f59e0b"
  else "#ef4444".

(** [getMonthOptions] and [getYearOptions] have the same text in both
    dashboard files. *)
Definition option_of (value : Z) (label : string) : JS.value :=
  Obj [("value", Num (Int value)); ("label", Str label)]%string.

Definition getMonthOptions : JS.value :=
  Arr [option_of 1 "Yanvar"; option_of 2 "Fevral"; option_of 3 "Mart";
       option_of 4 "Aprel"; option_of 5 "May"; option_of 6 "Iyun";
       option_of 7 "Iyul"; option_of 8 "Avgust"; option_of 9 "Sentabr";
       option_of 10 "Oktabr"; option_of 11 "Noyabr"; option_of 12 "Dekabr"].

Definition getYearOptions {H : Type} : Runtime.async H JS.value :=
  now ← Runtime.new_Date;
  let currentYear := Runtime.getFullYear now in
  mret (Arr [Num (Int (currentYear - 1)); Num (Int currentYear);
             Num (Int (currentYear + 1))]).

End Helpers.

(** ** Names of any script

    A name is a JavaScript string: a sequence of UTF-16 code units.
    [toUpperCase] is Unicode's case mapping; the embedding takes it as
    given and states what it uses of it. *)

Module Unicode.

Import JS Helpers.

Definition code_unit : Type := N.
Definition text : Type := list code_unit.

(** A string literal of the code, all of them ASCII. *)
Definition literal (s : string) : text :=
  List.map N_of_ascii (list_ascii_of_string s).

Definition space : code_unit := 32%N.

(** [s.split(sep)] for a separator of one code unit: never the empty list. *)
Fixpoint split (sep : code_unit) (s : text) : list text :=
  match s with
  | [] => [[]]
  | c :: rest =>
      if N.eqb c sep then [] :: split sep rest
      else match split sep rest with
           | [] => [[c]]
           | part :: parts => (c :: part) :: parts
           end
  end.

(** [s.substring(lo, hi)] for [lo <= hi], counted in code units. *)
Definition substring (lo hi : nat) (s : text) : text :=
  take (hi - lo) (drop lo s).

(** The values [getInitials] computes with: strings, [undefined], and the
    number [NaN]. *)
Inductive operand : Type :=
| Text (s : text)
| Undef
| NotNumber.

(** [parts[i]] on an array of strings, [undefined] out of range. *)
Definition index (parts : list text) (i : nat) : operand :=
  match nth_error parts i with
  | Some s => Text s
  | None => Undef
  end.

(** [v[0]]: the first code unit as a string, [undefined] on the empty
    string and on a number; throws on [undefined]. *)
Definition first_of (v : operand) : result operand :=
  match v with
  | Text [] => Normal Undef
  | Text (c :: _) => Normal (Text [c])
  | Undef => Throw (TypeError "Cannot read properties of undefined")
  | NotNumber => Normal Undef
  end.

Definition to_text (v : operand) : text :=
  match v with
  | Text s => s
  | Undef => literal "undefined"
  | NotNumber => literal "NaN"
  end.

(** The binary [+]: concatenation as soon as one operand is a string; the
    sum of [undefined] and [NaN], in any combination, is [NaN]. *)
Definition add (a b : operand) : operand :=
  match a, b with
  | Text _, _ | _, Text _ => Text (to_text a ++ to_text b)
  | _, _ => NotNumber
  end.

Section Names.

Variable toUpperCase : text → text.

(** [v.toUpperCase()]: a method of strings only. *)
Definition call_toUpperCase (v : operand) : result text :=
  match v with
  | Text s => Normal (toUpperCase s)
  | Undef => Throw (TypeError "Cannot read properties of undefined")
  | NotNumber => Throw (TypeError "toUpperCase is not a function")
  end.

Definition getInitials (name : text) : result text :=
  match name with
  | [] => Normal (literal "?")
  | _ :: _ =>
      let parts := split space name in
      if (2 <=? length parts)%nat then
        bind_result (first_of (index parts 0)) (λ a,
        bind_result (first_of (index parts 1)) (λ b,
        call_toUpperCase (add a b)))
      else Normal (toUpperCase (substring 0 2 name))
  end.

End Names.

(** *** What is used of Unicode's upper-casing *)

(** The upper case of an ASCII code unit. *)
Definition upper_unit (c : code_unit) : code_unit :=
  if ((97 <=? c) && (c <=? 122))%N then (c - 32)%N else c.

(** On a string of ASCII code units, [toUpperCase] is the table of the 26
    letters. *)
Definition ascii_case (toUpperCase : text → text) : Prop :=
  ∀ s, Forall (λ c, (c < 128)%N) s → toUpperCase s = List.map upper_unit s.

(** No string but ["?"] has the upper case ["?"]. *)
Definition question_mark_only (toUpperCase : text → text) : Prop :=
  ∀ s, toUpperCase s = literal "?" → s = literal "?".

(** An upper-casing for scripts in which only the ASCII letters have a
    case. *)
Definition simple_upper (s : text) : text := List.map upper_unit s.

End Unicode.

(** ** The form view patch *)

Module FormControllerPatch.

Import JS.

(** The patched getter [actionMenuItems]: [resModel] is
    [this.props.resModel], [super_actionMenuItems] what the getter of the
    unpatched controller returns. *)
Definition actionMenuItems (super_actionMenuItems resModel : value) : value :=
  if strict_eq_str resModel "hr.daily.report" then Obj []
  else super_actionMenuItems.

(** What the patched [setup] touches of the controller: the model of its
    props and the [config] object of its environment. *)
Record controller : Type := Controller {
  resModel : value;                 (* this.props.resModel *)
  config : gmap string value        (* this.env.config *)
}.

(** The patched [setup]: [super_setup] is the [setup] of the unpatched
    controller. *)
Definition setup (super_setup : controller → controller) (this : controller)
  : controller :=
  let this := super_setup this in
  if strict_eq_str (resModel this) "hr.daily.report"
  then Controller (resModel this) (<["disableActionMenu" := Bool true]> (config this))
  else this.

End FormControllerPatch.

(** ** Variant B: [attendance_dashboard.js] *)

Module VariantB.

Import JS Runtime.

Inductive handler : Type :=
| RefreshData
| OnDepartmentChange (value : string)     (* ev.target.value *)
| ClearFilters
| SetActiveTab (tab : value)
| ToggleLeaveList
| OnMonthChange (value : string)
| OnYearChange (value : string)
| ExportToExcel.

Abbreviation async := (Runtime.async handler).

Definition initial_state (d : date) : gmap string value :=
  list_to_map
    [("loading", Bool true);
     ("refreshing", Bool false);
     ("selectedDepartment", Null);
     ("departments", Arr []);
     ("todayStats", Obj []);
     ("absentEmployees", Arr []);
     ("onLeaveEmployees", Arr []);
     ("showLeaveList", Bool false);
     ("lastUpdate", Str (toLocaleTimeString d));
     ("activeTab", Str "overview");
     ("monthlySummary",
       Obj [("employees", Arr []); ("days_in_month", Num (Int 31));
            ("month", Num (Int (getMonth d + 1))); ("year", Num (Int (getFullYear d)));
            ("month_name", Str "")]);
     ("selectedMonth", Num (Int (getMonth d + 1)));
     ("selectedYear", Num (Int (getFullYear d)))]%string.

Definition loadDashboardData : async unit :=
  try_catch
    (dept ← read "selectedDepartment";
     data ← orm_call "attendance.dashboard" "get_all_dashboard_data" [dept];
     today_stats ← eval (get_prop data "today_stats");
     assign "todayStats" today_stats;;
     absent_employees ← eval (get_prop data "absent_employees");
     assign "absentEmployees" absent_employees;;
     on_leave_employees ← eval (get_prop data "on_leave_employees");
     assign "onLeaveEmployees"
       (if truthy on_leave_employees then on_leave_employees else Arr []);;
     departments ← eval (get_prop data "departments");
     assign "departments" departments;;
     now ← new_Date;
     assign "lastUpdate" (Str (toLocaleTimeString now));;
     assign "loading" (Bool false))
    (λ error,
     console_error "Dashboard ma'lumotlarini yuklashda xato:" error;;
     assign "loading" (Bool false)).

Definition loadMonthlySummary : async unit :=
  try_catch
    (dept ← read "selectedDepartment";
     month ← read "selectedMonth";
     year ← read "selectedYear";
     data ← orm_call "attendance.dashboard" "get_monthly_work_summary" [dept; month; year];
     assign "monthlySummary" data)
    (λ error, console_error "Oylik ma'lumotlarni yuklashda xato:" error).

Definition refreshData : async unit :=
  assign "refreshing" (Bool true);;
  loadDashboardData;;
  activeTab ← read "activeTab";
  (if strict_eq_str activeTab "monthly" then loadMonthlySummary else mret tt);;
  assign "refreshing" (Bool false).

Definition onDepartmentChange (value : string) : async unit :=
  assign "selectedDepartment"
    (if truthy (Str value) then Num (parseInt value) else Null);;
  refreshData.

Definition clearFilters : async unit :=
  assign "selectedDepartment" Null;;
  refreshData.

(** [loadMonthlySummary()] is called without [await], as the last statement:
    the handler returns while the call is in flight. *)
Definition setActiveTab (tab : value) : async unit :=
  assign "activeTab" tab;;
  assign "showLeaveList" (Bool false);;
  if strict_eq_str tab "monthly" then loadMonthlySummary else mret tt.

Definition toggleLeaveList : async unit :=
  showLeaveList ← read "showLeaveList";
  assign "showLeaveList" (Bool (negb (truthy showLeaveList))).

Definition onMonthChange (value : string) : async unit :=
  assign "selectedMonth" (Num (parseInt value));;
  loadMonthlySummary.

Definition onYearChange (value : string) : async unit :=
  assign "selectedYear" (Num (parseInt value));;
  loadMonthlySummary.

Definition exportToExcel : async unit :=
  let url := "/attendance_dashboard/export_monthly_excel?"%string in
  let params := [] in
  selectedDepartment ← read "selectedDepartment";
  let params := if truthy selectedDepartment
                then params ++ ["department_id=" +:+ to_string selectedDepartment]
                else params in
  selectedMonth ← read "selectedMonth";
  let params := if truthy selectedMonth
                then params ++ ["month=" +:+ to_string selectedMonth]
                else params in
  selectedYear ← read "selectedYear";
  let params := if truthy selectedYear
                then params ++ ["year=" +:+ to_string selectedYear]
                else params in
  let url := url +:+ join "&" params in
  window_open url "_blank".



Definition handle (h : handler) : async unit :=
  match h with
  | RefreshData => refreshData
  | OnDepartmentChange value => onDepartmentChange value
  | ClearFilters => clearFilters
  | SetActiveTab tab => setActiveTab tab
  | ToggleLeaveList => toggleLeaveList
  | OnMonthChange value => onMonthChange value
  | OnYearChange value => onYearChange value
  | ExportToExcel => exportToExcel
  end.

(** [setup()] registers two callbacks and nothing for the way out. *)
Definition setup : hooks handler :=
  Hooks
    [loadDashboardData]
    [id ← setInterval RefreshData 60000; set_refreshInterval id]
    [].

Definition AttendanceDashboard : component handler :=
  Component initial_state setup handle.

End VariantB.

(** ** Variant A: the dashboard with the job filter and the employee list *)

Module VariantA.

Import JS Runtime.

Inductive handler : Type :=
| RefreshData
| OnDepartmentChange (value : string)     (* ev.target.value *)
| OnJobChange (value : string)
| ClearFilters
| SetActiveTab (tab : value)
| OnEmployeeFilterChange (filter : value)
| OnMonthChange (value : string)
| OnYearChange (value : string)
| ExportToExcel.

Abbreviation async := (Runtime.async handler).

Definition initial_state (d : date) : gmap string value :=
  list_to_map
    [("loading", Bool true);
     ("refreshing", Bool false);
     ("selectedDepartment", Null);
     ("selectedJob", Null);
     ("departments", Arr []);
     ("jobs", Arr []);
     ("todayStats", Obj []);
     ("recentCheckins", Arr []);
     ("lastUpdate", Str (toLocaleTimeString d));
     ("activeTab", Str "overview");
     ("employeeList", Arr []);
     ("employeeFilter", Str "all");
     ("monthlySummary",
       Obj [("employees", Arr []); ("month", Num (Int (getMonth d + 1)));
            ("year", Num (Int (getFullYear d))); ("month_name", Str "")]);
     ("selectedMonth", Num (Int (getMonth d + 1)));
     ("selectedYear", Num (Int (getFullYear d)))]%string.

Definition loadDashboardData : async unit :=
  try_catch
    (dept ← read "selectedDepartment";
     job ← read "selectedJob";
     data ← orm_call "attendance.dashboard" "get_all_dashboard_data" [dept; job];
     today_stats ← eval (get_prop data "today_stats");
     assign "todayStats" today_stats;;
     recent_checkins ← eval (get_prop data "recent_checkins");
     assign "recentCheckins" recent_checkins;;
     monthly_summary ← eval (get_prop data "monthly_summary");
     assign "monthlySummary" monthly_summary;;
     departments ← eval (get_prop data "departments");
     assign "departments" departments;;
     jobs ← eval (get_prop data "jobs");
     assign "jobs" jobs;;
     now ← new_Date;
     assign "lastUpdate" (Str (toLocaleTimeString now));;
     assign "loading" (Bool false))
    (λ error,
     console_error "Dashboard ma'lumotlarini yuklashda xato:" error;;
     assign "loading" (Bool false)).

Definition refreshData : async unit :=
  assign "refreshing" (Bool true);;
  loadDashboardData;;
  assign "refreshing" (Bool false).

Definition onDepartmentChange (value : string) : async unit :=
  assign "selectedDepartment"
    (if truthy (Str value) then Num (parseInt value) else Null);;
  refreshData.

Definition onJobChange (value : string) : async unit :=
  assign "selectedJob"
    (if truthy (Str value) then Num (parseInt value) else Null);;
  refreshData.

Definition clearFilters : async unit :=
  assign "selectedDepartment" Null;;
  assign "selectedJob" Null;;
  refreshData.

Definition loadEmployeeList : async unit :=
  try_catch
    (employeeFilter ← read "employeeFilter";
     dept ← read "selectedDepartment";
     job ← read "selectedJob";
     data ← orm_call "attendance.dashboard" "get_employee_list" [employeeFilter; dept; job];
     assign "employeeList" data)
    (λ error, console_error "Xodimlar ro'yxatini yuklashda xato:" error).

Definition loadMonthlySummary : async unit :=
  try_catch
    (dept ← read "selectedDepartment";
     job ← read "selectedJob";
     month ← read "selectedMonth";
     year ← read "selectedYear";
     data ← orm_call "attendance.dashboard" "get_monthly_work_summary"
              [dept; job; month; year];
     assign "monthlySummary" data)
    (λ error, console_error "Oylik ma'lumotlarni yuklashda xato:" error).

(** The two loads are called without [await], each as the last statement
    of its branch. *)
Definition setActiveTab (tab : value) : async unit :=
  assign "activeTab" tab;;
  if strict_eq_str tab "employees" then loadEmployeeList
  else if strict_eq_str tab "monthly" then loadMonthlySummary
  else mret tt.

Definition onEmployeeFilterChange (filter : value) : async unit :=
  assign "employeeFilter" filter;;
  loadEmployeeList.

Definition onMonthChange (value : string) : async unit :=
  assign "selectedMonth" (Num (parseInt value));;
  loadMonthlySummary.

Definition onYearChange (value : string) : async unit :=
  assign "selectedYear" (Num (parseInt value));;
  loadMonthlySummary.

Definition exportToExcel : async unit :=
  let url := "/attendance_dashboard/export_monthly_excel?"%string in
  let params := [] in
  selectedDepartment ← read "selectedDepartment";
  let params := if truthy selectedDepartment
                then params ++ ["department_id=" +:+ to_string selectedDepartment]
                else params in
  selectedJob ← read "selectedJob";
  let params := if truthy selectedJob
                then params ++ ["job_id=" +:+ to_string selectedJob]
                else params in
  selectedMonth ← read "selectedMonth";
  let params := if truthy selectedMonth
                then params ++ ["month=" +:+ to_string selectedMonth]
                else params in
  selectedYear ← read "selectedYear";
  let params := if truthy selectedYear
                then params ++ ["year=" +:+ to_string selectedYear]
                else params in
  let url := url +:+ join "&" params in
  window_open url "_blank".

Definition handle (h : handler) : async unit :=
  match h with
  | RefreshData => refreshData
  | OnDepartmentChange value => onDepartmentChange value
  | OnJobChange value => onJobChange value
  | ClearFilters => clearFilters
  | SetActiveTab tab => setActiveTab tab
  | OnEmployeeFilterChange filter => onEmployeeFilterChange filter
  | OnMonthChange value => onMonthChange value
  | OnYearChange value => onYearChange value
  | ExportToExcel => exportToExcel
  end.

Definition setup : hooks handler :=
  Hooks
    [loadDashboardData]
    [id ← setInterval RefreshData 60000; set_refreshInterval id]
    [].

Definition AttendanceDashboard : component handler :=
  Component initial_state setup handle.

(** [getStatusClass] and [getStatusText]: [emp] is an employee record of
    the payload. *)
Definition getStatusClass (emp : value) : result string :=
  Helpers.bind_result (get_prop emp "check_in") (λ check_in,
  if negb (truthy check_in) then Normal "absent"%string
  else
    Helpers.bind_result (get_prop emp "is_late") (λ is_late,
    if truthy is_late then Normal "late"%string
    else Normal "on-time"%string)).

Definition getStatusText (emp : value) : result string :=
  Helpers.bind_result (get_prop emp "check_in") (λ check_in,
  if negb (truthy check_in) then Normal "❌ Kelmagan"%string
  else
    Helpers.bind_result (get_prop emp "is_working") (λ is_working,
    if truthy is_working then Normal "🟢 Ishda"%string
    else
      Helpers.bind_result (get_prop emp "is_late") (λ is_late,
      if truthy is_late then Normal "⚠️ Kechikdi"%string
      else Normal "✅ O'z vaqtida"%string))).

End VariantA.

(** ** Statements the theorems refer to *)

Module Properties.

Import JS Runtime Helpers.

(** One query parameter of the export link: present when the field is
    truthy. *)
Definition param (key : string) (v : value) : list string :=
  if truthy v then [key +:+ "=" +:+ to_string v] else [].

Definition query_A {H : Type} (w : world H) : string :=
  join "&" (param "department_id" (field "selectedDepartment" w) ++
            param "job_id" (field "selectedJob" w) ++
            param "month" (field "selectedMonth" w) ++
            param "year" (field "selectedYear" w)).

Definition query_B {H : Type} (w : world H) : string :=
  join "&" (param "department_id" (field "selectedDepartment" w) ++
            param "month" (field "selectedMonth" w) ++
            param "year" (field "selectedYear" w)).


(** The contract of [getInitials] as the specification words it, on names
    of any script: ["?"] exactly for the empty name; the upper case of two
    initials as soon as the name splits into two parts or more; the upper
    case of the first two characters for a name of one part. *)
Definition initials_as_specified (toUpperCase : Unicode.text → Unicode.text) : Prop :=
  ∀ name : Unicode.text,
    (Unicode.getInitials toUpperCase name = Normal (Unicode.literal "?") ↔ name = []) ∧
    (∀ p0 p1 rest, Unicode.split Unicode.space name = p0 :: p1 :: rest →
       ∃ c0 c1, head p0 = Some c0 ∧ head p1 = Some c1 ∧
                Unicode.getInitials toUpperCase name = Normal (toUpperCase [c0; c1])) ∧
    (name ≠ [] → ∀ p, Unicode.split Unicode.space name = [p] →
       Unicode.getInitials toUpperCase name
       = Normal (toUpperCase (Unicode.substring 0 2 name))).

(** A string all of whose characters are ASCII. *)
Definition seven_bit (s : string) : Prop :=
  Forall (λ c, (N_of_ascii c < 128)%N) (list_ascii_of_string s).

Definition literal_result (r : result string) : result Unicode.text :=
  match r with
  | Normal s => Normal (Unicode.literal s)
  | Throw e => Throw e
  end.

(** A name in Cyrillic script, in code units: its two parts begin with the
    capital letters U+0410 and U+041D. *)
Definition a_cyrillic_name : Unicode.text :=
  [1040; 1083; 1080; 1096; 1077; 1088; 32; 1053; 1072; 1074; 1086; 1080; 1081]%N.

(** The thresholds of [getProgressColor] as the specification words them:
    red exactly below 70. *)
Definition thresholds_as_specified : Prop :=
  ∀ rate : number,
    (getProgressColor rate = "#10b981"%string ↔ number_ge rate 90 = true) ∧
    (getProgressColor rate = "#f59e0b"%string ↔
       number_ge rate 70 = true ∧ number_lt rate 90 = true) ∧
    (getProgressColor rate = "#ef4444"%string ↔ number_lt rate 70 = true).


(** [job] assigns [new] to the field [changed], issues one remote call,
    [get_monthly_work_summary] with the arguments [args] read from the state,
    and writes no field but [changed] and [monthlySummary], which receives
    the reply when the call succeeds. *)
Definition reloads_monthly_only {H : Type} (job : async H unit) (changed : string)
    (new : value) (args : world H → list value) : Prop :=
  ∀ (server : world H → rpc → reply) (w : world H),
    let '(w', r) := complete server (job w) in
    r = Normal tt ∧
    calls_of w' =
      calls_of w ++ [Rpc "attendance.dashboard" "get_monthly_work_summary" (args w')] ∧
    calls "get_all_dashboard_data" w' = calls "get_all_dashboard_data" w ∧
    field changed w' = new ∧
    (∀ f, f ≠ changed → f ≠ "monthlySummary"%string → field f w' = field f w) ∧
    (∀ data, (∀ w0 c, server w0 c = Resolve data) → field "monthlySummary" w' = data) ∧
    (∀ reason, (∀ w0 c, server w0 c = Reject reason) →
       field "monthlySummary" w' = field "monthlySummary" w).

Definition monthly_args_A {H : Type} (w : world H) : list value :=
  [field "selectedDepartment" w; field "selectedJob" w;
   field "selectedMonth" w; field "selectedYear" w].

Definition monthly_args_B {H : Type} (w : world H) : list value :=
  [field "selectedDepartment" w; field "selectedMonth" w; field "selectedYear" w].

(** *** The flags of variant B along the life of the component *)

(** The jobs that run [refreshData]: the callback of the interval and the
    handlers of the refresh button and of the department filter. *)
Definition is_refresh (o : origin VariantB.handler) : bool :=
  match o with
  | FromInterval h | FromUser h =>
      match h with
      | VariantB.RefreshData | VariantB.OnDepartmentChange _ | VariantB.ClearFilters => true
      | _ => false
      end
  | FromHook => false
  end.

Definition refresh_pending (p : pending VariantB.handler) : Prop :=
  is_refresh (p_origin p) = true.

(** What one stretch of a job may do: it leaves the intervals alone, does
    not set [loading] again, and touches [refreshing] only within
    [refreshData]. *)
Definition stretch_ok (refresh : bool) (w0 w : world VariantB.handler) : Prop :=
  intervals w = intervals w0 ∧
  (field "loading" w0 = Bool false → field "loading" w = Bool false) ∧
  (refresh = false → field "refreshing" w = field "refreshing" w0).

(** A job that runs [refreshData] finishes with [refreshing] cleared. *)
Definition final_ok (refresh : bool) (w : world VariantB.handler) : Prop :=
  refresh = true → field "refreshing" w = Bool false.

Definition task_ok (p : pending VariantB.handler) : Prop :=
  ∀ r w', guarantee (stretch_ok (is_refresh (p_origin p)))
            (final_ok (is_refresh (p_origin p))) w' (p_resume p r w').

(** The initial load finishes on its first reply, with [loading] cleared. *)
Definition settled_load (p : pending VariantB.handler) : Prop :=
  p_origin p = FromHook ∧
  ∀ r w', ∃ w'',
    p_resume p r w' = Done w'' (Normal tt) ∧
    field "loading" w'' = Bool false ∧
    field "refreshing" w'' = field "refreshing" w' ∧
    intervals w'' = intervals w'.

(** From the moment the component is mounted. *)
Definition regime (sys : system VariantB.handler) : Prop :=
  (0 < delivered sys)%nat ∧
  field "loading" (sys_world sys) = Bool false ∧
  intervals (sys_world sys) = [(1%nat, VariantB.RefreshData, 60000)] ∧
  Forall task_ok (inflight sys) ∧
  (field "refreshing" (sys_world sys) = Bool true → Exists refresh_pending (inflight sys)).

Definition inv (sys : system VariantB.handler) : Prop :=
  let w := sys_world sys in
  match sys_phase sys with
  | Created =>
      inflight sys = [] ∧ delivered sys = 0%nat ∧ intervals w = [] ∧
      field "loading" w = Bool true ∧ field "refreshing" w = Bool false
  | Starting =>
      intervals w = [] ∧ field "refreshing" w = Bool false ∧
      ((delivered sys = 0%nat ∧ field "loading" w = Bool true ∧
        ∃ p, inflight sys = [p] ∧ settled_load p) ∨
       ((0 < delivered sys)%nat ∧ field "loading" w = Bool false ∧ inflight sys = []))
  | Mounted | Destroyed => regime sys
  end.

(** *** Sample runs *)

Definition a_date : date := Date 10 2026 "09:00:00".

(** The component starts, its first load succeeds, it is mounted, then
    unmounted. *)
Definition session_until_unmount {H : Type} : list (event H) :=
  [EvWillStart; EvReply 0 (Resolve (Obj [])); EvMounted; EvUnmount].

(** The first load fails, the component is mounted, the interval fires. *)
Definition session_with_refresh {H : Type} : list (event H) :=
  [EvWillStart; EvReply 0 (Reject (Str "timeout")); EvMounted; EvInterval 0].

(** A server out of reach: every call is rejected. *)
Definition always_rejects {H : Type} (server : world H → rpc → reply) : Prop :=
  ∀ w c, ∃ reason, server w c = Reject reason.

Definition unreachable_server {H : Type} : world H → rpc → reply :=
  λ _ _, Reject (Str "timeout").

(** What a run of [evs] from the creation at [a_date] shows, if the
    schedule is possible. *)
Definition after {H A : Type} (comp : component H) (evs : list (event H))
    (observe : system H → A) : option A :=
  observe <$> run comp evs (boot comp a_date).

Definition dashboard_calls {H : Type} (sys : system H) : nat :=
  calls "get_all_dashboard_data" (sys_world sys).

Definition registered_intervals {H : Type} (sys : system H) : list (nat * H * Z) :=
  intervals (sys_world sys).

(** Variant B takes the failure of its remote calls on itself. *)
Definition failure_contained (server : world VariantB.handler → rpc → reply)
    (w : world VariantB.handler) : Prop :=
  (let '(w', r) := complete server (VariantB.loadDashboardData w) in
   r = Normal tt ∧ field "loading" w' = Bool false ∧
   ∀ f, f ≠ "loading"%string → field f w' = field f w) ∧
  (let '(w', r) := complete server (VariantB.loadMonthlySummary w) in
   r = Normal tt ∧ ∀ f, field f w' = field f w) ∧
  (let '(w', r) := complete server (VariantB.refreshData w) in
   r = Normal tt ∧ field "loading" w' = Bool false ∧
   field "refreshing" w' = Bool false ∧
   ∀ f, f ≠ "loading"%string → f ≠ "refreshing"%string → field f w' = field f w) ∧
  (∀ d reason, ∃ sys,
     run VariantB.AttendanceDashboard [EvWillStart; EvReply 0 (Reject reason)]
       (boot VariantB.AttendanceDashboard d) = Some sys ∧
     field "loading" (sys_world sys) = Bool false ∧
     uncaught (sys_world sys) = [] ∧
     inflight sys = []).

(** *** Numerals *)

(** The value of a decimal numeral read after the digits accumulated in [a]. *)
Fixpoint uint_value (d : Decimal.uint) (a : Z) : Z :=
  match d with
  | Decimal.Nil => a
  | Decimal.D0 l => uint_value l (a * 10 + 0)
  | Decimal.D1 l => uint_value l (a * 10 + 1)
  | Decimal.D2 l => uint_value l (a * 10 + 2)
  | Decimal.D3 l => uint_value l (a * 10 + 3)
  | Decimal.D4 l => uint_value l (a * 10 + 4)
  | Decimal.D5 l => uint_value l (a * 10 + 5)
  | Decimal.D6 l => uint_value l (a * 10 + 6)
  | Decimal.D7 l => uint_value l (a * 10 + 7)
  | Decimal.D8 l => uint_value l (a * 10 + 8)
  | Decimal.D9 l => uint_value l (a * 10 + 9)
  end.


(** *** What the handlers read and send *)

(** The fields the user sets: filters, tab and toggles. *)
Definition filter_fields : list string :=
  ["selectedDepartment"; "selectedJob"; "selectedMonth"; "selectedYear";
   "activeTab"; "employeeFilter"; "showLeaveList"]%string.


Definition dashboard_call_B (w : world VariantB.handler) : rpc :=
  Rpc "attendance.dashboard" "get_all_dashboard_data" [field "selectedDepartment" w].

Definition dashboard_call_A (w : world VariantA.handler) : rpc :=
  Rpc "attendance.dashboard" "get_all_dashboard_data"
    [field "selectedDepartment" w; field "selectedJob" w].

Definition monthly_call_B (w : world VariantB.handler) : rpc :=
  Rpc "attendance.dashboard" "get_monthly_work_summary" (monthly_args_B w).

Definition monthly_call_A (w : world VariantA.handler) : rpc :=
  Rpc "attendance.dashboard" "get_monthly_work_summary" (monthly_args_A w).

Definition employee_call_A (w : world VariantA.handler) : rpc :=
  Rpc "attendance.dashboard" "get_employee_list"
    [field "employeeFilter" w; field "selectedDepartment" w; field "selectedJob" w].

(** The [value] of each option of a selector. *)
Definition option_values (options : value) : list value :=
  match options with
  | Arr items => List.map (assoc "value") (List.map (λ o, match o with
                                                         | Obj fields => fields
                                                         | _ => []
                                                         end) items)
  | _ => []
  end.

(** What the selector hands to its handler when the option holding [v] is
    chosen: [ev.target.value] is the value as a string. *)
Definition chosen (v : value) : string := to_string v.

(** A server that gives the same answer to every call. *)
Definition always_resolves {H : Type} (server : world H → rpc → reply) (data : value)
  : Prop :=
  ∀ w c, server w c = Resolve data.

Definition answering {H : Type} (data : value) : world H → rpc → reply :=
  λ _ _, Resolve data.

(** A server that answers by method. *)
Definition answers {H : Type} (server : world H → rpc → reply) (method : string)
    (data : value) : Prop :=
  ∀ w c, rpc_method c = method → server w c = Resolve data.

Definition by_method {H : Type} (dashboard monthly : value) : world H → rpc → reply :=
  λ _ c, if String.eqb (rpc_method c) "get_all_dashboard_data"
         then Resolve dashboard else Resolve monthly.

(** A payload that is neither an object nor [null] nor [undefined]. *)
Definition plain (data : value) : bool :=
  match data with
  | Bool _ | Num _ | Str _ | Arr _ => true
  | _ => false
  end.

(** Variant A takes the failure of its remote calls on itself. *)
Definition failure_contained_A (server : world VariantA.handler → rpc → reply)
    (w : world VariantA.handler) : Prop :=
  (let '(w', r) := complete server (VariantA.loadDashboardData w) in
   r = Normal tt ∧ field "loading" w' = Bool false ∧
   ∀ f, f ≠ "loading"%string → field f w' = field f w) ∧
  (let '(w', r) := complete server (VariantA.loadEmployeeList w) in
   r = Normal tt ∧ ∀ f, field f w' = field f w) ∧
  (let '(w', r) := complete server (VariantA.loadMonthlySummary w) in
   r = Normal tt ∧ ∀ f, field f w' = field f w) ∧
  (let '(w', r) := complete server (VariantA.refreshData w) in
   r = Normal tt ∧ field "loading" w' = Bool false ∧
   field "refreshing" w' = Bool false ∧
   ∀ f, f ≠ "loading"%string → f ≠ "refreshing"%string → field f w' = field f w).




(** An employee record with the three fields the status helpers read. *)
Definition employee (check_in is_working is_late : value) : value :=
  Obj [("check_in", check_in); ("is_working", is_working); ("is_late", is_late)]%string.

(** *** The effects a dashboard is expected to have *)

Fixpoint starts_with (prefix s : string) : bool :=
  match prefix, s with
  | EmptyString, _ => true
  | String a prefix', String b s' => Ascii.eqb a b && starts_with prefix' s'
  | String _ _, EmptyString => false
  end.

(** Calls to its own model and methods, errors logged, the export link
    opened in a new tab; never an uncaught exception. *)
Definition expected_effect (methods : list string) (e : effect) : bool :=
  match e with
  | OrmCall c =>
      String.eqb (rpc_model c) "attendance.dashboard" &&
      existsb (String.eqb (rpc_method c)) methods
  | ConsoleError _ _ => true
  | WindowOpen url target =>
      starts_with "/attendance_dashboard/export_monthly_excel?" url &&
      String.eqb target "_blank"
  | Uncaught _ => false
  end.

Definition methods_B : list string :=
  ["get_all_dashboard_data"; "get_monthly_work_summary"]%string.

Definition methods_A : list string :=
  ["get_all_dashboard_data"; "get_employee_list"; "get_monthly_work_summary"]%string.

Definition expected_call (methods : list string) (c : rpc) : Prop :=
  rpc_model c = "attendance.dashboard"%string ∧ In (rpc_method c) methods.

(** A stretch of a job adds expected effects only and leaves the timers
    alone. *)
Definition orderly {H : Type} (methods : list string) (w0 w : world H) : Prop :=
  (forallb (expected_effect methods) (trace w0) = true →
   forallb (expected_effect methods) (trace w) = true) ∧
  intervals w = intervals w0 ∧
  refreshInterval w = refreshInterval w0.

Definition orderly_system {H : Type} (methods : list string) (callback : H)
    (sys : system H) : Prop :=
  forallb (expected_effect methods) (trace (sys_world sys)) = true ∧
  Forall (λ p, ∀ r w', tidy (orderly methods) w' (p_resume p r w')) (inflight sys) ∧
  match sys_phase sys with
  | Created | Starting =>
      intervals (sys_world sys) = [] ∧ refreshInterval (sys_world sys) = Undefined
  | Mounted | Destroyed =>
      intervals (sys_world sys) = [(1%nat, callback, 60000)] ∧
      refreshInterval (sys_world sys) = Num (Int 1)
  end.

(** Variant B mounted and idle, in the state [setup()] built. *)
Definition mounted_sample : system VariantB.handler :=
  System (World (VariantB.initial_state a_date) (Num (Int 1))
            [(1%nat, VariantB.RefreshData, 60000)] a_date [])
         [] Mounted 1.

(** *** The flags along the life of a component, in general *)

(** What one stretch of a job may do to the flags: it does not set
    [loading] again, and touches [refreshing] only within a refresh. *)
Definition flags_stretch {H : Type} (refresh : bool) (w0 w : world H) : Prop :=
  (field "loading" w0 = Bool false → field "loading" w = Bool false) ∧
  (refresh = false → field "refreshing" w = field "refreshing" w0).

Definition flags_final {H : Type} (refresh : bool) (w : world H) : Prop :=
  refresh = true → field "refreshing" w = Bool false.

Definition flags_task {H : Type} (refresh_job : origin H → bool) (p : pending H) : Prop :=
  ∀ r w', guarantee (flags_stretch (refresh_job (p_origin p)))
            (flags_final (refresh_job (p_origin p))) w' (p_resume p r w').

Definition first_load {H : Type} (p : pending H) : Prop :=
  p_origin p = FromHook ∧
  ∀ r w', ∃ w'',
    p_resume p r w' = Done w'' (Normal tt) ∧
    field "loading" w'' = Bool false ∧
    field "refreshing" w'' = field "refreshing" w'.

Definition flags_inv {H : Type} (refresh_job : origin H → bool) (sys : system H) : Prop :=
  let w := sys_world sys in
  match sys_phase sys with
  | Created =>
      inflight sys = [] ∧ delivered sys = 0%nat ∧
      field "loading" w = Bool true ∧ field "refreshing" w = Bool false
  | Starting =>
      field "refreshing" w = Bool false ∧
      ((delivered sys = 0%nat ∧ field "loading" w = Bool true ∧
        ∃ p, inflight sys = [p] ∧ first_load p) ∨
       ((0 < delivered sys)%nat ∧ field "loading" w = Bool false ∧ inflight sys = []))
  | Mounted | Destroyed =>
      (0 < delivered sys)%nat ∧
      field "loading" w = Bool false ∧
      Forall (flags_task refresh_job) (inflight sys) ∧
      (field "refreshing" w = Bool true →
       Exists (λ p, refresh_job (p_origin p) = true) (inflight sys))
  end.

(** The jobs of variant A that run [refreshData]. *)
Definition is_refresh_A (o : origin VariantA.handler) : bool :=
  match o with
  | FromInterval h | FromUser h =>
      match h with
      | VariantA.RefreshData | VariantA.OnDepartmentChange _
      | VariantA.OnJobChange _ | VariantA.ClearFilters => true
      | _ => false
      end
  | FromHook => false
  end.

(** A session of variant A: the initial load fails, the component is
    mounted, and the user picks a job. *)
Definition session_with_job_filter : list (event VariantA.handler) :=
  [EvWillStart; EvReply 0 (Reject (Str "offline")); EvMounted;
   EvUser (VariantA.OnJobChange "4")].

(** A server that rejects the calls to [method]. *)
Definition refuses {H : Type} (server : world H → rpc → reply) (method : string) : Prop :=
  ∀ w c, rpc_method c = method → ∃ reason, server w c = Reject reason.

(** Variant B as [setup()] built it, with the monthly tab open. *)
Definition on_monthly_tab : world VariantB.handler :=
  with_state (insert "activeTab" (Str "monthly"))
    (sys_world (boot VariantB.AttendanceDashboard a_date)).

(** *** The export link on the states of a dashboard *)

Definition is_num (v : value) : bool :=
  match v with
  | Num _ => true
  | _ => false
  end.

(** [selectedMonth] and [selectedYear] hold numbers, as [setup()] leaves
    them. *)
Definition month_and_year_set {H : Type} (w : world H) : Prop :=
  is_num (field "selectedMonth" w) = true ∧ is_num (field "selectedYear" w) = true.

(** A stretch of a job keeps a property of the world. *)
Definition keeps {H : Type} (P : world H → Prop) (w0 w : world H) : Prop := P w0 → P w.

Definition kept_system {H : Type} (P : world H → Prop) (sys : system H) : Prop :=
  P (sys_world sys) ∧
  Forall (λ p, ∀ r w', guarantee (keeps P) (λ _, True) w' (p_resume p r w'))
         (inflight sys).

(** The two examples of the specification, read on the states a dashboard
    can be in: no department selected; department 3 and year 2024
    selected (and no job). *)
Definition unfiltered_export_is_empty : Prop :=
  ∀ sys, reachable VariantB.AttendanceDashboard sys →
    field "selectedDepartment" (sys_world sys) = Null →
    query_B (sys_world sys) = ""%string.

Definition department_and_year_only : Prop :=
  ∀ sys, reachable VariantA.AttendanceDashboard sys →
    field "selectedDepartment" (sys_world sys) = Num (Int 3) →
    field "selectedJob" (sys_world sys) = Null →
    field "selectedYear" (sys_world sys) = Num (Int 2024) →
    query_A (sys_world sys) = "department_id=3&year=2024"%string.

(** A session of variant A: loaded, mounted, then department 3 and the
    year 2024 are chosen. *)
Definition session_with_choices : list (event VariantA.handler) :=
  [EvWillStart; EvReply 0 (Resolve (Obj [])); EvMounted;
   EvUser (VariantA.OnDepartmentChange "3"); EvUser (VariantA.OnYearChange "2024")].

End Properties.

(** * Theorems *)

Import JS Runtime Helpers Properties.

(** ** The built-ins on sample inputs *)

Example parseInt_examples :
  JS.parseInt "12" = JS.Int 12 /\ JS.parseInt " -7px" = JS.Int (-7) /\
  JS.parseInt "0x1f" = JS.Int 31 /\ JS.parseInt "abc" = JS.NaN /\
  JS.parseInt "" = JS.NaN /\ JS.Z_to_string 2024 = "2024"%string /\
  JS.Z_to_string 0 = "0"%string /\ JS.Z_to_string (-5) = "-5"%string.
Proof. repeat split; reflexivity. Qed.

(** Numbers are doubles: a numeral beyond 2^53 is rounded to the nearest
    one, ties to even, and a number beyond 2^53 prints the fewest digits
    that read back as it, with an exponent from 10^21 on. *)
Example double_examples :
  JS.parseInt "9007199254740993" = JS.Int 9007199254740992 ∧
  JS.parseInt "9007199254740995" = JS.Int 9007199254740996 ∧
  JS.parseInt "1000000000000000000000" = JS.Int (10 ^ 21) ∧
  JS.Z_to_string (2 ^ 53) = "9007199254740992"%string ∧
  JS.Z_to_string (2 ^ 60) = "1152921504606847000"%string ∧
  JS.Z_to_string (10 ^ 21) = "1e+21"%string ∧
  JS.Z_to_string (2 ^ 70) = "1.1805916207174113e+21"%string ∧
  JS.Z_to_string (- 10 ^ 21) = "-1e+21"%string ∧
  JS.num_to_string (JS.round_double (2 ^ 1024)) = "Infinity"%string.
Proof. repeat split; vm_compute; reflexivity. Qed.

Example split_examples :
  JS.split " " "" = [""%string] /\ JS.split " " "a b" = ["a"; "b"]%string /\
  JS.split " " " a" = [""; "a"]%string /\ JS.split " " " " = [""; ""]%string /\
  JS.split " " "Ali  Vali" = ["Ali"; ""; "Vali"]%string.
Proof. repeat split; reflexivity. Qed.

Example getInitials_examples :
  Helpers.getInitials "Ali Valiyev" = JS.Normal "AV"%string ∧
  Helpers.getInitials "madina" = JS.Normal "MA"%string ∧
  Helpers.getInitials "x" = JS.Normal "X"%string ∧
  Helpers.getInitials "" = JS.Normal "?"%string ∧
  Helpers.getInitials " Ali" = JS.Normal "UNDEFINEDA"%string ∧
  Helpers.getInitials "Ali " = JS.Normal "AUNDEFINED"%string.
Proof. repeat split; reflexivity. Qed.

(** ** Presentation helpers *)

Lemma Qle_bool_false (a b : Q) : Qle_bool a b = false ↔ (b < a)%Q.
Proof.
  split.
  - intros Hf. apply Qnot_le_lt. intros Hle.
    apply Qle_bool_iff in Hle. congruence.
  - intros Hlt. destruct (Qle_bool a b) eqn:E; [|reflexivity].
    apply Qle_bool_iff in E. exfalso. exact (Qlt_not_le _ _ Hlt E).
Qed.

Lemma number_ge_finite (q b : Q) : number_ge (Finite q) b = true ↔ (b <= q)%Q.
Proof. apply Qle_bool_iff. Qed.

Lemma number_lt_finite (q b : Q) : number_lt (Finite q) b = true ↔ (q < b)%Q.
Proof.
  cbn [number_lt]. rewrite negb_true_iff. apply Qle_bool_false.
Qed.

(** On a number that is not [NaN], [a < b] is the negation of [a >= b]. *)
Lemma number_lt_ge (a : number) (b : Q) :
  number_ge a b = false ↔ number_lt a b = true ∨ a = NotANumber.
Proof.
  destruct a as [|[]|q]; cbn [number_ge number_lt negb].
  - split; auto.
  - split; auto.
  - split; [discriminate|]. intros [Hf | Hf]; discriminate Hf.
  - rewrite negb_true_iff. split; [auto|]. intros [Hf | Hf]; [exact Hf | discriminate Hf].
Qed.

(** Monotony in the constant, for the two constants of the code. *)
Lemma number_ge_90_70 (a : number) : number_ge a 90 = true → number_ge a 70 = true.
Proof.
  destruct a as [|[]|q]; cbn [number_ge negb]; auto.
  rewrite !Qle_bool_iff. intros H90. eapply Qle_trans; [|exact H90]. discriminate.
Qed.

(** C8, as the specification words it, fails: the rate [NaN] is red, since
    neither test holds, and it is not below 70. *)
Lemma getProgressColor_as_specified_fails : ¬ thresholds_as_specified.
Proof.
  intros Hspec. destruct (Hspec NotANumber) as (_ & _ & [Hred _]).
  discriminate (Hred eq_refl).
Qed.

(** C8, amended.  [getProgressColor] is green exactly when [rate >= 90]
    holds, amber exactly when [rate >= 70] and [rate < 90] hold, and red
    exactly when [rate >= 70] does not hold: below 70, and also for [NaN].
    On finite rates this is the order of the rationals; 90 is green, 89.9
    and 70 are amber, 69.9 is red. *)
Theorem getProgressColor_thresholds :
  (∀ rate : number,
     (getProgressColor rate = "#10b981"%string ↔ number_ge rate 90 = true) ∧
     (getProgressColor rate = "#f59e0b"%string ↔
        number_ge rate 70 = true ∧ number_lt rate 90 = true) ∧
     (getProgressColor rate = "#ef4444"%string ↔ number_ge rate 70 = false) ∧
     (number_ge rate 70 = false ↔ number_lt rate 70 = true ∨ rate = NotANumber)) ∧
  (∀ q : Q,
     (getProgressColor (Finite q) = "#10b981"%string ↔ (90 <= q)%Q) ∧
     (getProgressColor (Finite q) = "#f59e0b"%string ↔ (70 <= q)%Q ∧ (q < 90)%Q) ∧
     (getProgressColor (Finite q) = "#ef4444"%string ↔ (q < 70)%Q)) ∧
  getProgressColor NotANumber = "#ef4444"%string ∧
  getProgressColor (Finite 90) = "#10b981"%string ∧
  getProgressColor (Finite (899 # 10)) = "#f59e0b"%string ∧
  getProgressColor (Finite 70) = "#f59e0b"%string ∧
  getProgressColor (Finite (699 # 10)) = "#ef4444"%string.
Proof.
  assert (Hall : ∀ rate : number,
     (getProgressColor rate = "#10b981"%string ↔ number_ge rate 90 = true) ∧
     (getProgressColor rate = "#f59e0b"%string ↔
        number_ge rate 70 = true ∧ number_lt rate 90 = true) ∧
     (getProgressColor rate = "#ef4444"%string ↔ number_ge rate 70 = false) ∧
     (number_ge rate 70 = false ↔ number_lt rate 70 = true ∨ rate = NotANumber)).
  { intros rate. split; [|split; [|split; [|apply number_lt_ge]]].
    - unfold getProgressColor.
      destruct (number_ge rate 90); [tauto|].
      destruct (number_ge rate 70); split; discriminate.
    - unfold getProgressColor. pose proof (number_ge_90_70 rate) as Hmono.
      pose proof (number_lt_ge rate 90) as Hlt.
      destruct (number_ge rate 90) eqn:E90.
      + split; [discriminate|]. intros [_ H90].
        destruct rate as [|[]|q]; cbn [number_ge number_lt negb] in *;
          try discriminate. rewrite E90 in H90. discriminate H90.
      + destruct (number_ge rate 70) eqn:E70.
        * split; [|reflexivity]. intros _. split; [reflexivity|].
          destruct (proj1 Hlt eq_refl) as [H | ->]; [exact H | discriminate E70].
        * split; [discriminate|]. intros [Hf _]. discriminate Hf.
    - unfold getProgressColor. pose proof (number_ge_90_70 rate) as Hmono.
      destruct (number_ge rate 90).
      + rewrite (Hmono eq_refl). split; discriminate.
      + destruct (number_ge rate 70); split; (reflexivity || discriminate). }
  split; [exact Hall|]. split; [|repeat split; reflexivity].
  intros q. destruct (Hall (Finite q)) as (Hgreen & Hamber & Hred & Hbelow).
  rewrite Hgreen, Hamber, Hred, Hbelow.
  rewrite !number_ge_finite, number_lt_finite, number_lt_finite.
  split; [tauto|]. split; [tauto|].
  split; [intros [H | H]; [exact H | discriminate H] | auto].
Qed.

(** ** The form view patch *)

(** C9. The patched getter returns the empty object for the model
    [hr.daily.report] and what the unpatched getter returns for any other
    model. *)
Theorem actionMenuItems_patch (super_items : value) :
  FormControllerPatch.actionMenuItems super_items (Str "hr.daily.report") = Obj [] ∧
  (∀ resModel : value, resModel ≠ Str "hr.daily.report" →
     FormControllerPatch.actionMenuItems super_items resModel = super_items).
Proof.
  split; [reflexivity|].
  intros resModel Hne. unfold FormControllerPatch.actionMenuItems.
  destruct resModel as [| |b|n|s|items|fields]; try reflexivity.
  cbn. destruct (String.eqb s "hr.daily.report") eqn:E; [|reflexivity].
  apply String.eqb_eq in E. subst s. congruence.
Qed.

Lemma actionMenuItems_patch_witness :
  FormControllerPatch.actionMenuItems (Obj [("action", Arr []); ("print", Arr [])])
    (Str "hr.employee")
  = Obj [("action", Arr []); ("print", Arr [])].
Proof.
  apply (actionMenuItems_patch (Obj [("action", Arr []); ("print", Arr [])])).
  discriminate.
Defined.

(** ** [getInitials] *)

Lemma truthy_Str (s : string) : s ≠ ""%string → truthy (Str s) = true.
Proof. destruct s; [congruence | reflexivity]. Qed.

Lemma split_not_nil (sep : ascii) (s : string) : split sep s ≠ [].
Proof.
  destruct s as [|c rest]; cbn; [discriminate|].
  destruct (Ascii.eqb c sep); [discriminate|].
  destruct (split sep rest); discriminate.
Qed.

Lemma getInitials_one_part (name p : string) :
  name ≠ ""%string → split " " name = [p] →
  getInitials name = Normal (toUpperCase (substring 0 2 name)).
Proof.
  intros Hne Hsplit. unfold getInitials.
  rewrite (truthy_Str _ Hne), Hsplit. reflexivity.
Qed.

Lemma getInitials_two_parts (name p0 p1 : string) (rest : list string) :
  name ≠ ""%string → split " " name = p0 :: p1 :: rest →
  getInitials name =
    bind_result (first_of (Str p0)) (λ a,
    bind_result (first_of (Str p1)) (λ b, call_toUpperCase (add a b))).
Proof.
  intros Hne Hsplit. unfold getInitials.
  rewrite (truthy_Str _ Hne), Hsplit. reflexivity.
Qed.

(** ** [getInitials] on names of any script *)

Lemma split_text_not_nil sep s : Unicode.split sep s ≠ [].
Proof.
  destruct s as [|c rest]; cbn [Unicode.split]; [discriminate|].
  destruct (N.eqb c sep); [discriminate|].
  destruct (Unicode.split sep rest); discriminate.
Qed.

Lemma getInitials_text_unfold up (name : Unicode.text) :
  name ≠ [] →
  Unicode.getInitials up name =
    let parts := Unicode.split Unicode.space name in
    if (2 <=? length parts)%nat then
      bind_result (Unicode.first_of (Unicode.index parts 0)) (λ a,
      bind_result (Unicode.first_of (Unicode.index parts 1)) (λ b,
      Unicode.call_toUpperCase up (Unicode.add a b)))
    else Normal (up (Unicode.substring 0 2 name)).
Proof. destruct name; [congruence | reflexivity]. Qed.

Lemma getInitials_text_one_part up (name p : Unicode.text) :
  name ≠ [] → Unicode.split Unicode.space name = [p] →
  Unicode.getInitials up name = Normal (up (Unicode.substring 0 2 name)).
Proof.
  intros Hne Hsplit. unfold Unicode.getInitials.
  destruct name; [congruence|]. rewrite Hsplit. reflexivity.
Qed.

Lemma getInitials_text_two_parts up (name p0 p1 : Unicode.text) rest :
  Unicode.split Unicode.space name = p0 :: p1 :: rest →
  Unicode.getInitials up name =
    bind_result (Unicode.first_of (Unicode.Text p0)) (λ a,
    bind_result (Unicode.first_of (Unicode.Text p1)) (λ b,
    Unicode.call_toUpperCase up (Unicode.add a b))).
Proof.
  intros Hsplit. unfold Unicode.getInitials.
  destruct name; [discriminate Hsplit|]. rewrite Hsplit. reflexivity.
Qed.

Lemma upper_unit_ascii (c : Unicode.code_unit) :
  (c < 128)%N → (Unicode.upper_unit c < 128)%N.
Proof.
  intros Hc. unfold Unicode.upper_unit.
  destruct ((97 <=? c)%N && (c <=? 122)%N) eqn:E; [|exact Hc]. lia.
Qed.

Lemma simple_upper_ascii_case : Unicode.ascii_case Unicode.simple_upper.
Proof. intros s _. reflexivity. Qed.

Lemma simple_upper_question_mark : Unicode.question_mark_only Unicode.simple_upper.
Proof.
  intros s. unfold Unicode.simple_upper.
  destruct s as [|c [|c' s']]; cbn; try discriminate.
  intros E. injection E as E. f_equal.
  unfold Unicode.upper_unit in E.
  destruct ((97 <=? c)%N && (c <=? 122)%N) eqn:Ec; [|exact E].
  apply andb_prop in Ec as [H1 H2]. apply N.leb_le in H1, H2. lia.
Qed.

(** C4, as the specification words it, fails for any upper-casing that
    treats ASCII as Unicode does: the one-character name ["?"] is not empty
    and its initials are ["?"]. *)
Lemma getInitials_as_specified_fails :
  ¬ ∃ toUpperCase, Unicode.ascii_case toUpperCase ∧ initials_as_specified toUpperCase.
Proof.
  intros (up & Hascii & Hspec).
  destruct (Hspec (Unicode.literal "?")) as [[Hq _] _].
  assert (Hnil : Unicode.literal "?" = []); [|discriminate Hnil].
  apply Hq.
  rewrite (getInitials_text_one_part up _ (Unicode.literal "?")); [|discriminate|reflexivity].
  rewrite Hascii; [reflexivity|].
  repeat constructor.
Qed.

(** C4, amended.  On names of any script, [getInitials] returns ["?"]
    exactly for the empty name and for the name ["?"]; when the first two
    parts of the name are both non-empty it returns the upper case of the
    two-character string made of their first characters, which for ASCII
    characters is two upper-case characters; for a non-empty name of one
    part it returns the upper case of the first two characters of the
    name. *)
Theorem getInitials_contract (toUpperCase : Unicode.text → Unicode.text)
    (name : Unicode.text) :
  Unicode.ascii_case toUpperCase →
  Unicode.question_mark_only toUpperCase →
  (Unicode.getInitials toUpperCase name = Normal (Unicode.literal "?") ↔
     name = [] ∨ name = Unicode.literal "?") ∧
  (∀ c0 r0 c1 r1 rest,
     Unicode.split Unicode.space name = (c0 :: r0) :: (c1 :: r1) :: rest →
     Unicode.getInitials toUpperCase name = Normal (toUpperCase [c0; c1]) ∧
     ((c0 < 128)%N → (c1 < 128)%N →
      Unicode.getInitials toUpperCase name
      = Normal [Unicode.upper_unit c0; Unicode.upper_unit c1])) ∧
  (name ≠ [] → ∀ p, Unicode.split Unicode.space name = [p] →
     Unicode.getInitials toUpperCase name
     = Normal (toUpperCase (Unicode.substring 0 2 name))).
Proof.
  intros Hascii Hquestion. split; [|split].
  - split.
    + intros Hq.
      destruct name as [|c rest]; [left; reflexivity|right].
      assert (Hne : c :: rest ≠ []) by discriminate.
      destruct (Unicode.split Unicode.space (c :: rest)) as [|p0 [|p1 parts]] eqn:Hsplit.
      * exfalso. exact (split_text_not_nil _ _ Hsplit).
      * rewrite (getInitials_text_one_part _ _ _ Hne Hsplit) in Hq.
        injection Hq as Hq. apply Hquestion in Hq.
        destruct rest as [|c' rest']; [exact Hq | discriminate Hq].
      * rewrite (getInitials_text_two_parts _ _ _ _ _ Hsplit) in Hq.
        destruct p0 as [|c0 r0], p1 as [|c1 r1]; cbn in Hq;
          try discriminate Hq;
          injection Hq as Hq; apply Hquestion in Hq; discriminate Hq.
    + intros [-> | ->]; [reflexivity|].
      rewrite (getInitials_text_one_part _ _ (Unicode.literal "?"));
        [|discriminate|reflexivity].
      rewrite Hascii; [reflexivity|]. repeat constructor.
  - intros c0 r0 c1 r1 rest Hsplit.
    rewrite (getInitials_text_two_parts _ _ _ _ _ Hsplit).
    split; [reflexivity|]. intros H0 H1. cbn.
    rewrite Hascii; [reflexivity|]. repeat constructor; assumption.
  - intros Hne p Hsplit. exact (getInitials_text_one_part _ _ _ Hne Hsplit).
Qed.

Lemma getInitials_contract_witness :
  Unicode.getInitials Unicode.simple_upper (Unicode.literal "Ali Valiyev")
    = Normal (Unicode.literal "AV") ∧
  Unicode.getInitials Unicode.simple_upper (Unicode.literal "madina")
    = Normal (Unicode.literal "MA") ∧
  Unicode.getInitials Unicode.simple_upper a_cyrillic_name
    = Normal [1040; 1053]%N.
Proof.
  split; [|split].
  - refine (proj2 (proj1 (proj2 (getInitials_contract Unicode.simple_upper
                                   (Unicode.literal "Ali Valiyev")
                                   simple_upper_ascii_case simple_upper_question_mark))
                     65 (Unicode.literal "li") 86 (Unicode.literal "aliyev") [] eq_refl) _ _)%N;
      reflexivity.
  - refine (proj2 (proj2 (getInitials_contract Unicode.simple_upper
                            (Unicode.literal "madina")
                            simple_upper_ascii_case simple_upper_question_mark))
              _ (Unicode.literal "madina") eq_refl).
    discriminate.
  - exact (proj1 (proj1 (proj2 (getInitials_contract Unicode.simple_upper a_cyrillic_name
                                  simple_upper_ascii_case simple_upper_question_mark))
                    1040 [1083; 1080; 1096; 1077; 1088] 1053
                    [1072; 1074; 1086; 1080; 1081] [] eq_refl)%N).
Defined.

(** *** The ASCII model is the model on code units, on ASCII names *)

Lemma N_of_ascii_space (c : ascii) : N.eqb (N_of_ascii c) Unicode.space = Ascii.eqb c " ".
Proof. destruct c as [[] [] [] [] [] [] [] []]; reflexivity. Qed.

Lemma upper_unit_char (c : ascii) :
  Unicode.upper_unit (N_of_ascii c) = N_of_ascii (upper_char c).
Proof. destruct c as [[] [] [] [] [] [] [] []]; reflexivity. Qed.

Lemma literal_upper (s : string) :
  List.map Unicode.upper_unit (Unicode.literal s) = Unicode.literal (toUpperCase s).
Proof.
  induction s as [|c s IH]; [reflexivity|].
  change (Unicode.upper_unit (N_of_ascii c) :: List.map Unicode.upper_unit (Unicode.literal s)
          = N_of_ascii (upper_char c) :: Unicode.literal (toUpperCase s)).
  rewrite IH, upper_unit_char. reflexivity.
Qed.

Lemma literal_app (s t : string) :
  Unicode.literal (s +:+ t) = Unicode.literal s ++ Unicode.literal t.
Proof.
  induction s as [|c s IH]; [reflexivity|].
  change (N_of_ascii c :: Unicode.literal (s +:+ t)
          = N_of_ascii c :: (Unicode.literal s ++ Unicode.literal t)).
  rewrite IH. reflexivity.
Qed.

Lemma split_literal (s : string) :
  Unicode.split Unicode.space (Unicode.literal s) = List.map Unicode.literal (split " " s).
Proof.
  induction s as [|c s IH]; [reflexivity|].
  change (Unicode.literal (String c s)) with (N_of_ascii c :: Unicode.literal s).
  cbn [Unicode.split split]. rewrite N_of_ascii_space, IH.
  destruct (Ascii.eqb c " "); [reflexivity|].
  destruct (split " " s); reflexivity.
Qed.

Lemma split_seven_bit (s : string) :
  seven_bit s → Forall seven_bit (split " " s).
Proof.
  unfold seven_bit. induction s as [|c s IH]; intros Hs.
  - repeat constructor.
  - cbn [list_ascii_of_string] in Hs. apply Forall_cons in Hs as [Hc Hs].
    specialize (IH Hs). cbn [split].
    destruct (Ascii.eqb c " "); [constructor; [constructor | exact IH]|].
    destruct (split " " s) as [|p ps]; [repeat constructor; exact Hc|].
    apply Forall_cons in IH as [Hp Hps].
    constructor; [|exact Hps]. cbn [list_ascii_of_string]. constructor; assumption.
Qed.

Lemma substring_literal (s : string) :
  Unicode.substring 0 2 (Unicode.literal s) = Unicode.literal (substring 0 2 s).
Proof.
  destruct s as [|a [|b t]]; try reflexivity.
  unfold substring. cbn. destruct t; reflexivity.
Qed.

Lemma literal_seven_bit (s : string) :
  seven_bit s → Forall (λ c, (c < 128)%N) (Unicode.literal s).
Proof.
  unfold seven_bit, Unicode.literal. intros Hs. apply Forall_map. exact Hs.
Qed.

Lemma substring_seven_bit (s : string) : seven_bit s → seven_bit (substring 0 2 s).
Proof.
  unfold seven_bit. destruct s as [|a [|b t]]; intros Hs; try exact Hs.
  unfold substring. cbn. apply Forall_cons in Hs as [Ha Hs].
  apply Forall_cons in Hs as [Hb _]. destruct t; repeat constructor; assumption.
Qed.

(** On a name written in ASCII, whatever upper-casing agrees with Unicode
    on ASCII gives the initials the ASCII model computes. *)
Lemma getInitials_on_ascii (toUpperCase : Unicode.text → Unicode.text) (name : string) :
  Unicode.ascii_case toUpperCase → seven_bit name →
  Unicode.getInitials toUpperCase (Unicode.literal name)
  = literal_result (getInitials name).
Proof.
  intros Hascii Hname.
  assert (Hup : ∀ s, seven_bit s →
            toUpperCase (Unicode.literal s) = Unicode.literal (JS.toUpperCase s)).
  { intros s Hs. rewrite Hascii by (apply literal_seven_bit; exact Hs).
    apply literal_upper. }
  destruct name as [|c r]; [reflexivity|].
  pose proof (split_seven_bit _ Hname) as Hparts.
  rewrite getInitials_text_unfold by discriminate. cbv zeta.
  unfold getInitials. cbn [truthy String.eqb negb].
  rewrite split_literal, length_map.
  destruct (split " " (String c r)) as [|p0 [|p1 rest]] eqn:Hsplit.
  - exfalso. exact (split_not_nil _ _ Hsplit).
  - cbn [length Nat.leb literal_result].
    rewrite substring_literal, Hup by (apply substring_seven_bit; exact Hname).
    reflexivity.
  - apply Forall_cons in Hparts as [H0 Hparts]. apply Forall_cons in Hparts as [H1 _].
    cbn [length Nat.leb List.map Unicode.index index nth_error].
    destruct p0 as [|c0 r0], p1 as [|c1 r1]; try reflexivity.
    + cbn [Unicode.first_of first_of char0 bind_result Unicode.add add Unicode.to_text
           to_string call_toUpperCase Unicode.call_toUpperCase literal_result
           Unicode.literal list_ascii_of_string List.map].
      rewrite <- (Hup ("undefined" +:+ String c1 "")%string).
      * reflexivity.
      * unfold seven_bit in *. cbn [list_ascii_of_string] in H1.
        apply Forall_cons in H1 as [H1 _].
        repeat constructor; (exact H1 || reflexivity).
    + cbn [Unicode.first_of first_of char0 bind_result Unicode.add add Unicode.to_text
           to_string call_toUpperCase Unicode.call_toUpperCase literal_result
           Unicode.literal list_ascii_of_string List.map].
      rewrite <- (Hup (String c0 "" +:+ "undefined")%string).
      * reflexivity.
      * unfold seven_bit in *. cbn [list_ascii_of_string] in H0.
        apply Forall_cons in H0 as [H0 _].
        repeat constructor; (exact H0 || reflexivity).
    + cbn [Unicode.first_of first_of char0 bind_result Unicode.add add Unicode.to_text
           to_string call_toUpperCase Unicode.call_toUpperCase literal_result
           Unicode.literal list_ascii_of_string List.map].
      rewrite <- (Hup (String c0 "" +:+ String c1 "")%string).
      * reflexivity.
      * unfold seven_bit in *. cbn [list_ascii_of_string] in H0, H1.
        apply Forall_cons in H0 as [H0 _]. apply Forall_cons in H1 as [H1 _].
        repeat constructor; assumption.
Qed.



(** ** Export *)

Lemma param_truthy (key : string) (v : value) :
  (param key v ≠ [] ↔ truthy v = true) ∧ (truthy v = true → v ≠ Null).
Proof.
  unfold param. split; [split|].
  - destruct (truthy v); [reflexivity | congruence].
  - intros ->. discriminate.
  - intros Ht ->. discriminate Ht.
Qed.

Ltac case_truthy :=
  repeat match goal with
         | |- context [truthy ?v] => destruct (truthy v)
         end.

Lemma exportToExcel_A (w : world VariantA.handler) :
  VariantA.exportToExcel w =
  Done (log (WindowOpen ("/attendance_dashboard/export_monthly_excel?" +:+ query_A w)
               "_blank") w) (Normal tt).
Proof.
  unfold VariantA.exportToExcel, query_A, param, read, window_open, mbind, async_bind.
  cbn [bind_susp]. case_truthy; reflexivity.
Qed.

Lemma exportToExcel_B (w : world VariantB.handler) :
  VariantB.exportToExcel w =
  Done (log (WindowOpen ("/attendance_dashboard/export_monthly_excel?" +:+ query_B w)
               "_blank") w) (Normal tt).
Proof.
  unfold VariantB.exportToExcel, query_B, param, read, window_open, mbind, async_bind.
  cbn [bind_susp]. case_truthy; reflexivity.
Qed.


(** In the state [setup()] builds, month and year hold the current date:
    with no department chosen the link still carries both. *)
Example exportToExcel_after_setup :
  query_B (sys_world (boot VariantB.AttendanceDashboard a_date))
    = "month=11&year=2026"%string ∧
  query_A (sys_world (boot VariantA.AttendanceDashboard a_date))
    = "month=11&year=2026"%string.
Proof. split; vm_compute; reflexivity. Qed.

(** ** Reading the world after a job *)

(** Unfolds the monad down to the resumption a job denotes. *)
Ltac async_run :=
  unfold try_catch, mbind, mret, async_bind, async_ret, read, orm_call, assign, eval,
    new_Date, console_error, window_open, setInterval, set_refreshInterval;
  cbn [bind_susp catch_susp complete get_prop].

Ltac name_neq := solve [assumption | discriminate | apply not_eq_sym; assumption].

(** Fields, calls and traces of a world built by assignments and logs. *)
Ltac world_simpl :=
  unfold field, calls, calls_of, uncaught;
  cbn [state trace intervals clock refreshInterval with_state log with_clock];
  repeat first
    [ rewrite lookup_insert_eq
    | rewrite lookup_insert_ne by name_neq
    | rewrite flat_map_app
    | rewrite List.filter_app
    | rewrite length_app
    | rewrite app_nil_r ];
  cbn [flat_map List.filter length app default from_option].

(** One more step of a job: unfold the monad, or split on what decides the
    next step (a reply of the server, the shape of the payload, the tab). *)
Ltac async_step :=
  first
    [ progress async_run
    | match goal with
      | |- context [match ?server ?w ?c with Resolve _ => _ | Reject _ => _ end] =>
          destruct (server w c) eqn:?
      | |- context [get_prop ?d _] => is_var d; destruct d; cbn [get_prop]
      end ].

(** Closes a goal about a server that always resolves, or always rejects,
    once the reply it gave is known. *)
Ltac settle_reply :=
  intros;
  match goal with
  | Hall : ∀ w0 c, ?server w0 c = _, E : ?server _ _ = _ |- _ =>
      rewrite Hall in E;
      first [discriminate E | injection E as ->; world_simpl; reflexivity]
  end.

Ltac monthly_only :=
  intros server w; async_run;
  match goal with
  | |- context [server ?w1 ?c] => destruct (server w1 c) eqn:?
  end;
  async_run;
  (split; [reflexivity|]);
  (split; [world_simpl; reflexivity|]);
  (split; [world_simpl; cbn; lia|]);
  (split; [world_simpl; reflexivity|]);
  (split; [intros; world_simpl; reflexivity|]);
  split; settle_reply.

(** ** Month and year selection *)

(** C7. In both variants [onMonthChange] and [onYearChange] assign the parsed
    value to [selectedMonth], respectively [selectedYear], and then issue
    one remote call, [get_monthly_work_summary] with the filters of the
    state; no [get_all_dashboard_data] call is made, and no field of the
    state other than the selected one and [monthlySummary] is written. *)
Theorem month_year_change_reloads_monthly_only (value : string) :
  reloads_monthly_only (VariantB.onMonthChange value) "selectedMonth"
    (Num (parseInt value)) monthly_args_B ∧
  reloads_monthly_only (VariantB.onYearChange value) "selectedYear"
    (Num (parseInt value)) monthly_args_B ∧
  reloads_monthly_only (VariantA.onMonthChange value) "selectedMonth"
    (Num (parseInt value)) monthly_args_A ∧
  reloads_monthly_only (VariantA.onYearChange value) "selectedYear"
    (Num (parseInt value)) monthly_args_A.
Proof.
  unfold reloads_monthly_only, monthly_args_A, monthly_args_B.
  split; [|split; [|split]].
  - unfold VariantB.onMonthChange, VariantB.loadMonthlySummary. monthly_only.
  - unfold VariantB.onYearChange, VariantB.loadMonthlySummary. monthly_only.
  - unfold VariantA.onMonthChange, VariantA.loadMonthlySummary. monthly_only.
  - unfold VariantA.onYearChange, VariantA.loadMonthlySummary. monthly_only.
Qed.

(** Brings the field read by a test on a later world back to the world [w]
    the job started on, when the job has not written it meanwhile. *)
Ltac tab_of w :=
  match goal with
  | |- context [strict_eq_str (field ?f ?W) ?s] =>
      lazymatch W with
      | w => fail
      | _ => let E := fresh in
             assert (E : field f W = field f w) by (world_simpl; reflexivity);
             rewrite E; clear E
      end
  end.

(** ** Background refresh and the monthly summary *)

(** What the server is known to reply to the calls a job made. *)
Ltac replied_by Hans :=
  repeat match goal with
         | E : ?server ?W ?C = Resolve ?d |- _ =>
             rewrite (Hans W C eq_refl) in E; injection E as <-
         | E : ?server ?W ?C = Reject _ |- _ =>
             rewrite (Hans W C eq_refl) in E; discriminate E
         end.

Ltac refused_by Href :=
  repeat match goal with
         | E : ?server ?W ?C = Resolve _ |- _ =>
             let reason := fresh "reason" in
             let Hr := fresh "Hr" in
             destruct (Href W C eq_refl) as [reason Hr]; rewrite Hr in E; discriminate E
         end.

Lemma refreshData_B_summary (server : world VariantB.handler → rpc → reply) w :
  let w' := (complete server (VariantB.refreshData w)).1 in
  (strict_eq_str (field "activeTab" w) "monthly" = false →
     field "monthlySummary" w' = field "monthlySummary" w) ∧
  (strict_eq_str (field "activeTab" w) "monthly" = true →
     (∀ summary, answers server "get_monthly_work_summary" summary →
        field "monthlySummary" w' = summary) ∧
     (refuses server "get_monthly_work_summary" →
        field "monthlySummary" w' = field "monthlySummary" w)).
Proof.
  cbv zeta.
  unfold VariantB.refreshData, VariantB.loadDashboardData, VariantB.loadMonthlySummary.
  repeat async_step; tab_of w; destruct (strict_eq_str _ _);
    repeat async_step; cbn [fst];
    (split; [intros Htab | intros Htab]); try discriminate Htab;
    try (world_simpl; reflexivity);
    (split; [intros summary Hans; replied_by Hans | intros Href; refused_by Href]);
    world_simpl; reflexivity.
Qed.

(** C5. In variant B [refreshData] reloads the dashboard and then reloads
    the monthly summary exactly when [activeTab] is ['monthly']: it then
    calls [get_monthly_work_summary] once and stores the reply in
    [monthlySummary] (keeping the old summary if the call fails); on any
    other tab it makes no such call and leaves [monthlySummary] as it was.
    In variant A [refreshData] makes the dashboard call and no other,
    whatever the tab, and the reload itself stores the [monthly_summary] of
    the payload into [monthlySummary]. *)
Theorem refreshData_monthly_guard :
  (∀ (server : world VariantB.handler → rpc → reply) (w : world VariantB.handler),
     let '(w', r) := complete server (VariantB.refreshData w) in
     r = Normal tt ∧
     calls "get_all_dashboard_data" w' = S (calls "get_all_dashboard_data" w) ∧
     calls "get_monthly_work_summary" w' =
       (calls "get_monthly_work_summary" w +
        if strict_eq_str (field "activeTab" w) "monthly" then 1 else 0)%nat ∧
     (strict_eq_str (field "activeTab" w) "monthly" = false →
        field "monthlySummary" w' = field "monthlySummary" w) ∧
     (strict_eq_str (field "activeTab" w) "monthly" = true →
        (∀ summary, answers server "get_monthly_work_summary" summary →
           field "monthlySummary" w' = summary) ∧
        (refuses server "get_monthly_work_summary" →
           field "monthlySummary" w' = field "monthlySummary" w))) ∧
  (∀ (server : world VariantA.handler → rpc → reply) (w : world VariantA.handler),
     let '(w', r) := complete server (VariantA.refreshData w) in
     r = Normal tt ∧
     calls_of w' =
       calls_of w ++ [Rpc "attendance.dashboard" "get_all_dashboard_data"
                        [field "selectedDepartment" w; field "selectedJob" w]] ∧
     (∀ fields, (∀ w0 c, server w0 c = Resolve (Obj fields)) →
        field "monthlySummary" w' = assoc "monthly_summary" fields)).
Proof.
  split; intros server w.
  - pose proof (refreshData_B_summary server w) as Hsummary. cbv zeta in Hsummary.
    assert (Hcalls :
      let '(w', r) := complete server (VariantB.refreshData w) in
      r = Normal tt ∧
      calls "get_all_dashboard_data" w' = S (calls "get_all_dashboard_data" w) ∧
      calls "get_monthly_work_summary" w' =
        (calls "get_monthly_work_summary" w +
         if strict_eq_str (field "activeTab" w) "monthly" then 1 else 0)%nat).
    { unfold VariantB.refreshData, VariantB.loadDashboardData, VariantB.loadMonthlySummary.
      repeat async_step; tab_of w; destruct (strict_eq_str _ _);
        repeat async_step; world_simpl; cbn; repeat split; lia. }
    destruct (complete server (VariantB.refreshData w)) as [w' r].
    destruct Hcalls as (Hr & Hdash & Hmon), Hsummary as [Hother Hmonthly].
    auto.
  - unfold VariantA.refreshData, VariantA.loadDashboardData.
    repeat async_step;
      (split; [reflexivity|]);
      (split; [world_simpl; reflexivity|]);
      settle_reply.
Qed.

(** ** The flags along the life of the component (variant B) *)

Ltac stretch_tac :=
  unfold stretch_ok, final_ok;
  repeat match goal with
         | |- _ ∧ _ => split
         | |- _ → _ => intro
         end;
  try discriminate;
  world_simpl; first [reflexivity | assumption].

Ltac guarantee_tac :=
  async_run;
  lazymatch goal with
  | |- guarantee _ _ _ (Done _ _) => apply guarantee_done; stretch_tac
  | |- guarantee _ _ _ (Await _ _ _) =>
      apply guarantee_await;
      [ stretch_tac
      | let r := fresh "r" in let w' := fresh "w'" in
        intros r w'; destruct r as [[]|]; cbn [get_prop]; guarantee_tac ]
  | |- context [if strict_eq_str ?v ?s then _ else _] =>
      destruct (strict_eq_str v s); guarantee_tac
  end.

Lemma handle_ok h w :
  guarantee (stretch_ok (is_refresh (FromUser h))) (final_ok (is_refresh (FromUser h))) w
    (VariantB.handle h w).
Proof.
  destruct h; cbn [is_refresh VariantB.handle];
    unfold VariantB.refreshData, VariantB.onDepartmentChange, VariantB.clearFilters, VariantB.setActiveTab,
      VariantB.toggleLeaveList, VariantB.onMonthChange, VariantB.onYearChange, VariantB.exportToExcel,
      VariantB.refreshData, VariantB.loadDashboardData, VariantB.loadMonthlySummary.
  all: guarantee_tac.
Qed.

Lemma Exists_delete_other {A} (P : A → Prop) (l : list A) i x :
  l !! i = Some x → ¬ P x → Exists P l → Exists P (delete i l).
Proof.
  intros Hi Hx Hex. revert i Hi.
  induction Hex as [y l Hy | y l Hex IH]; intros [|i] Hi; cbn in *.
  - injection Hi as ->. contradiction.
  - by apply Exists_cons_hd.
  - exact Hex.
  - apply Exists_cons_tl. by apply IH.
Qed.

Lemma settle_regime o m (sys : system VariantB.handler) :
  (0 < delivered sys)%nat →
  field "loading" (sys_world sys) = Bool false →
  intervals (sys_world sys) = [(1%nat, VariantB.RefreshData, 60000)] →
  Forall task_ok (inflight sys) →
  (is_refresh o = false → field "refreshing" (sys_world sys) = Bool true →
   Exists refresh_pending (inflight sys)) →
  guarantee (stretch_ok (is_refresh o)) (final_ok (is_refresh o)) (sys_world sys) m →
  regime (settle o m sys).
Proof.
  intros Hd Hl Hi Hall Hex Hg.
  inversion Hg as [w0 w r [Hiv [Hld Hrf]] Hfin | w0 w c k [Hiv [Hld Hrf]] Hk]; subst.
  - assert (Hreg : ∀ w1, field "loading" w1 = field "loading" w →
                         field "refreshing" w1 = field "refreshing" w →
                         intervals w1 = intervals w →
                         regime (System w1 (inflight sys) (sys_phase sys) (delivered sys))).
    { intros w1 E1 E2 E3. unfold regime. cbn.
      rewrite E1, E2, E3, Hiv. repeat split; auto.
      intros Hr. destruct (is_refresh o) eqn:Eo.
      - rewrite (Hfin eq_refl) in Hr. discriminate Hr.
      - apply Hex; [reflexivity|]. by rewrite <- Hrf. }
    destruct r; cbn; by apply Hreg.
  - unfold regime. cbn. rewrite Hiv. repeat split; auto.
    + apply Forall_app. split; [assumption|].
      apply Forall_singleton. exact Hk.
    + intros Hr. apply Exists_app.
      destruct (is_refresh o) eqn:Eo.
      * right. apply Exists_cons_hd. exact Eo.
      * left. apply Hex; [reflexivity|]. by rewrite <- Hrf.
Qed.

Lemma boot_inv d : inv (boot VariantB.AttendanceDashboard d).
Proof. unfold inv, boot. cbn. repeat split; reflexivity. Qed.

Lemma initial_load_settles (w : world VariantB.handler) :
  ∃ w1 c k,
    run_all (onWillStart (setup VariantB.AttendanceDashboard)) w = Await w1 c k ∧
    intervals w1 = intervals w ∧
    (∀ f, field f w1 = field f w) ∧
    settled_load (Pending FromHook c k).
Proof.
  unfold run_all. cbn [foldr onWillStart setup VariantB.AttendanceDashboard VariantB.setup].
  unfold VariantB.loadDashboardData. async_run.
  do 3 eexists. split; [reflexivity|].
  split; [reflexivity|]. split; [reflexivity|].
  split; [reflexivity|].
  intros r w'. cbn [p_resume].
  destruct r as [[]|]; async_run; eexists;
    (split; [reflexivity|]); world_simpl; repeat split; reflexivity.
Qed.

Lemma mounted_hook (w : world VariantB.handler) :
  ∃ w1,
    run_all (onMounted (setup VariantB.AttendanceDashboard)) w = Done w1 (Normal tt) ∧
    intervals w1 = intervals w ++ [(S (length (intervals w)), VariantB.RefreshData, 60000)] ∧
    (∀ f, field f w1 = field f w).
Proof.
  unfold run_all. cbn [foldr onMounted setup VariantB.AttendanceDashboard VariantB.setup].
  async_run. eexists. split; [reflexivity|]. split; reflexivity.
Qed.

Lemma settle_phase o m (sys : system VariantB.handler) :
  sys_phase (settle o m sys) = sys_phase sys.
Proof. destruct m as [w []|]; reflexivity. Qed.

Lemma settle_delivered o m (sys : system VariantB.handler) :
  delivered (settle o m sys) = delivered sys.
Proof. destruct m as [w []|]; reflexivity. Qed.

Lemma regime_inv (sys : system VariantB.handler) :
  sys_phase sys = Mounted ∨ sys_phase sys = Destroyed → regime sys → inv sys.
Proof. unfold inv. intros [-> | ->]; auto. Qed.

Lemma inv_regime (sys : system VariantB.handler) :
  sys_phase sys = Mounted ∨ sys_phase sys = Destroyed → inv sys → regime sys.
Proof. unfold inv. intros [-> | ->]; auto. Qed.

Lemma step_inv ev sys sys' :
  inv sys → step VariantB.AttendanceDashboard ev sys = Some sys' → inv sys'.
Proof.
  intros Hinv Hstep. destruct sys as [w fl ph n].
  destruct ev as [| |i r|i|h| |d]; unfold step in Hstep;
    cbn [sys_phase sys_world inflight delivered] in Hstep.
  - (* the framework starts the component *)
    destruct ph; try discriminate Hstep. apply (inj Some) in Hstep; subst sys'.
    destruct Hinv as (Hfl & Hn & Hiv & Hl & Hr).
    cbn [sys_world inflight delivered sys_phase] in *. subst fl n.
    destruct (initial_load_settles w) as (w1 & c & k & E & Hiv1 & Hf & Hs).
    unfold start, enter. cbn [sys_world]. rewrite E. unfold inv. cbn.
    rewrite Hiv1, !Hf. repeat split; auto.
    left. repeat split; auto. eexists. split; [reflexivity | exact Hs].
  - (* the component is mounted *)
    destruct ph; try discriminate Hstep. destruct fl; [|discriminate Hstep].
    apply (inj Some) in Hstep; subst sys'.
    destruct Hinv as (Hiv & Hr & [(_ & _ & p & Hp & _) | (Hn & Hl & _)]);
      [discriminate Hp|]. cbn [sys_world inflight delivered sys_phase] in *.
    destruct (mounted_hook w) as (w1 & E & Hiv1 & Hf).
    unfold start, enter. cbn [sys_world]. rewrite E. unfold inv, regime. cbn.
    rewrite Hiv1, Hiv, !Hf. repeat split; auto.
    rewrite Hr. discriminate.
  - (* a reply is delivered *)
    destruct (fl !! i) as [p|] eqn:Hp; [|discriminate Hstep].
    apply (inj Some) in Hstep; subst sys'.
    destruct ph; unfold inv in Hinv; cbn [sys_world inflight delivered sys_phase] in Hinv.
    + destruct Hinv as (-> & _). discriminate Hp.
    + destruct Hinv as (Hiv & Hr & [(Hn & Hl & p0 & -> & Hs) | (_ & _ & ->)]);
        [|discriminate Hp].
      destruct i; [|discriminate Hp]. apply (inj Some) in Hp; subst p0.
      destruct Hs as [_ Hs]. destruct (Hs r w) as (w2 & E & Hl2 & Hr2 & Hiv2).
      rewrite E. unfold inv. cbn. rewrite Hiv2, Hr2.
      repeat split; auto. right. repeat split; auto. lia.
    + destruct Hinv as (Hn & Hl & Hiv & Hall & Hex).
      apply regime_inv; [rewrite settle_phase; auto|].
      apply settle_regime; cbn [sys_world inflight delivered sys_phase] in *;
        [ lia | assumption | assumption | by apply Forall_delete | | ].
      * intros Ho Hr. apply (Exists_delete_other _ _ _ _ Hp); [|auto].
        unfold refresh_pending. rewrite Ho. discriminate.
      * exact (proj1 (Forall_lookup _ _) Hall _ _ Hp r w).
    + destruct Hinv as (Hn & Hl & Hiv & Hall & Hex).
      apply regime_inv; [rewrite settle_phase; auto|].
      apply settle_regime; cbn [sys_world inflight delivered sys_phase] in *;
        [ lia | assumption | assumption | by apply Forall_delete | | ].
      * intros Ho Hr. apply (Exists_delete_other _ _ _ _ Hp); [|auto].
        unfold refresh_pending. rewrite Ho. discriminate.
      * exact (proj1 (Forall_lookup _ _) Hall _ _ Hp r w).
  - (* an interval fires *)
    destruct (intervals w !! i) as [[[id cb] ms]|] eqn:Hi; [|discriminate Hstep].
    apply (inj Some) in Hstep; subst sys'.
    assert (Hph : ph = Mounted ∨ ph = Destroyed).
    { destruct ph; unfold inv in Hinv; cbn [sys_world inflight delivered sys_phase] in Hinv;
        auto.
      - destruct Hinv as (_ & _ & Hiv & _). rewrite Hiv in Hi. discriminate Hi.
      - destruct Hinv as (Hiv & _). rewrite Hiv in Hi. discriminate Hi. }
    apply inv_regime in Hinv; [|exact Hph].
    destruct Hinv as (Hn & Hl & Hiv & Hall & Hex).
    apply regime_inv; [unfold start; rewrite settle_phase; exact Hph|].
    apply settle_regime; cbn [sys_world inflight delivered sys_phase] in *;
      [ assumption | assumption | assumption | assumption | auto | apply handle_ok ].
  - (* the user triggers a handler *)
    destruct ph; try discriminate Hstep. apply (inj Some) in Hstep; subst sys'.
    destruct Hinv as (Hn & Hl & Hiv & Hall & Hex).
    apply regime_inv; [unfold start; rewrite settle_phase; auto|].
    apply settle_regime; cbn [sys_world inflight delivered sys_phase] in *;
      [ assumption | assumption | assumption | assumption | auto | apply handle_ok ].
  - (* the component leaves the page *)
    destruct ph; try discriminate Hstep. apply (inj Some) in Hstep; subst sys'.
    exact Hinv.
  - (* time passes *)
    apply (inj Some) in Hstep; subst sys'. destruct ph; exact Hinv.
Qed.

Lemma run_inv evs : ∀ sys sys',
  inv sys → run VariantB.AttendanceDashboard evs sys = Some sys' → inv sys'.
Proof.
  induction evs as [|ev evs IH]; intros sys sys' Hinv Hrun; cbn in Hrun.
  - by apply (inj Some) in Hrun; subst.
  - destruct (step VariantB.AttendanceDashboard ev sys) as [sys1|] eqn:Hstep; [|discriminate Hrun].
    eapply IH; [|exact Hrun]. eapply step_inv; eassumption.
Qed.

Lemma reachable_inv sys : reachable VariantB.AttendanceDashboard sys → inv sys.
Proof. intros (d & evs & Hrun). eapply run_inv; [apply boot_inv | exact Hrun]. Qed.

Lemma guarantee_weaken {H A : Type} (S1 S2 : world H → world H → Prop)
    (F1 F2 : world H → Prop) (w : world H) (m : susp H A) :
  (∀ a b, S1 a b → S2 a b) → (∀ a, F1 a → F2 a) →
  guarantee S1 F1 w m → guarantee S2 F2 w m.
Proof.
  intros HS HF Hg. induction Hg as [w0 w r Hs Hf | w0 w c k Hs Hk IH].
  - apply guarantee_done; auto.
  - apply guarantee_await; auto.
Qed.

Lemma step_delivered {H : Type} (comp : component H) ev (sys sys' : system H) :
  step comp ev sys = Some sys' → (delivered sys <= delivered sys')%nat.
Proof.
  assert (Hsettle : ∀ o m (s : system H), delivered (settle o m s) = delivered s).
  { intros o m s. destruct m as [w []|]; reflexivity. }
  destruct ev; unfold step, start;
    repeat match goal with
           | |- context [match ?x with _ => _ end] => destruct x
           end;
    intros Hs; try discriminate Hs; apply (inj Some) in Hs; subst sys';
    rewrite ?Hsettle; cbn; lia.
Qed.

Lemma run_delivered {H : Type} (comp : component H) evs : ∀ sys sys' : system H,
  run comp evs sys = Some sys' → (delivered sys <= delivered sys')%nat.
Proof.
  induction evs as [|ev evs IH]; intros sys sys' Hrun; cbn in Hrun.
  - apply (inj Some) in Hrun. subst. lia.
  - destruct (step comp ev sys) as [sys1|] eqn:Hstep; [|discriminate Hrun].
    apply step_delivered in Hstep. apply IH in Hrun. lia.
Qed.

Lemma inv_loading sys :
  inv sys →
  field "loading" (sys_world sys) = Bool (delivered sys =? 0)%nat ∧
  (delivered sys = 0%nat → sys_phase sys = Created ∨ sys_phase sys = Starting).
Proof.
  unfold inv, regime. destruct (sys_phase sys).
  - intros (_ & -> & _ & -> & _). auto.
  - intros (_ & _ & [(-> & -> & _) | (Hn & -> & _)]); [auto|].
    destruct (delivered sys); [lia|]. split; [reflexivity | discriminate].
  - intros (Hn & -> & _). destruct (delivered sys); [lia|].
    split; [reflexivity | discriminate].
  - intros (Hn & -> & _). destruct (delivered sys); [lia|].
    split; [reflexivity | discriminate].
Qed.

Lemma refreshData_clears (server : world VariantB.handler → rpc → reply) w :
  field "refreshing" (complete server (VariantB.refreshData w)).1 = Bool false.
Proof.
  unfold VariantB.refreshData, VariantB.loadDashboardData, VariantB.loadMonthlySummary.
  repeat async_step; tab_of w; destruct (strict_eq_str _ _);
    repeat async_step; cbn [fst]; world_simpl; reflexivity.
Qed.

(** C6. In every system variant B can reach, [loading] is [true] exactly
    until the first reply is delivered, which happens before the component
    is mounted, and once [false] it stays [false]; [refreshing] is [true]
    only after mounting and only while a job that runs [refreshData] is in
    flight; every such job leaves [refreshing] cleared when it finishes,
    however its calls settle. *)
Theorem loading_and_refreshing_flags (sys : system VariantB.handler) :
  reachable VariantB.AttendanceDashboard sys →
  field "loading" (sys_world sys) = Bool (delivered sys =? 0)%nat ∧
  (delivered sys = 0%nat → sys_phase sys = Created ∨ sys_phase sys = Starting) ∧
  (∀ evs sys', run VariantB.AttendanceDashboard evs sys = Some sys' →
     field "loading" (sys_world sys) = Bool false →
     field "loading" (sys_world sys') = Bool false) ∧
  (field "refreshing" (sys_world sys) = Bool true →
     (sys_phase sys = Mounted ∨ sys_phase sys = Destroyed) ∧
     Exists refresh_pending (inflight sys)) ∧
  Forall (λ p, refresh_pending p → ∀ r w',
            guarantee (λ _ _, True) (λ w1, field "refreshing" w1 = Bool false)
              w' (p_resume p r w'))
         (inflight sys) ∧
  (∀ server w0,
     field "refreshing" (complete server (VariantB.refreshData w0)).1 = Bool false).
Proof.
  intros Hreach. pose proof (reachable_inv _ Hreach) as Hinv.
  destruct (inv_loading _ Hinv) as [Hload Hzero].
  split; [exact Hload|]. split; [exact Hzero|]. split; [|split; [|split]].
  - intros evs sys' Hrun Hfalse.
    assert (Hinv' : inv sys') by (eapply run_inv; eassumption).
    apply inv_loading in Hinv' as [Hload' _]. rewrite Hload'.
    apply run_delivered in Hrun. rewrite Hload in Hfalse.
    destruct (delivered sys); [discriminate Hfalse|].
    destruct (delivered sys'); [lia | reflexivity].
  - intros Hr. unfold inv in Hinv. destruct (sys_phase sys).
    + destruct Hinv as (_ & _ & _ & _ & Hr'). congruence.
    + destruct Hinv as (_ & Hr' & _). congruence.
    + destruct Hinv as (_ & _ & _ & _ & Hex). auto.
    + destruct Hinv as (_ & _ & _ & _ & Hex). auto.
  - assert (Hok : Forall task_ok (inflight sys) ∨
                  ∃ p, inflight sys = [p] ∧ p_origin p = FromHook).
    { unfold inv in Hinv. destruct (sys_phase sys).
      - destruct Hinv as (-> & _). left. constructor.
      - destruct Hinv as (_ & _ & [(_ & _ & p & -> & Ho & _) | (_ & _ & ->)]).
        + right. eauto.
        + left. constructor.
      - destruct Hinv as (_ & _ & _ & Hall & _). auto.
      - destruct Hinv as (_ & _ & _ & Hall & _). auto. }
    destruct Hok as [Hall | (p & -> & Ho)].
    + eapply Forall_impl; [exact Hall|]. intros p Hp Hrp r w'.
      unfold refresh_pending in Hrp.
      eapply guarantee_weaken; [| |exact (Hp r w')].
      * auto.
      * intros a Ha. apply Ha. exact Hrp.
    + apply Forall_singleton. unfold refresh_pending. rewrite Ho. discriminate.
  - exact refreshData_clears.
Qed.

Lemma loading_and_refreshing_flags_witness :
  ∃ sys,
    run VariantB.AttendanceDashboard session_with_refresh
      (boot VariantB.AttendanceDashboard a_date) = Some sys ∧
    field "loading" (sys_world sys) = Bool false ∧
    field "refreshing" (sys_world sys) = Bool true ∧
    Exists refresh_pending (inflight sys).
Proof.
  eexists. split; [reflexivity|].
  match goal with
  | |- context [sys_world ?s] =>
      pose proof (loading_and_refreshing_flags s
                    (ex_intro _ a_date (ex_intro _ session_with_refresh eq_refl)))
        as Hflags
  end.
  split; [exact (proj1 Hflags)|]. split; [reflexivity|].
  exact (proj2 (proj1 (proj2 (proj2 (proj2 Hflags))) eq_refl)).
Defined.

(** ** The interval after teardown *)

(** In variant B, once the component is destroyed the interval is still in
    the browser's table: when its period elapses, [refreshData] runs and
    one more dashboard call goes out. *)
Lemma interval_fires_when_destroyed (sys : system VariantB.handler) :
  reachable VariantB.AttendanceDashboard sys →
  sys_phase sys = Destroyed →
  ∃ sys',
    step VariantB.AttendanceDashboard (EvInterval 0) sys = Some sys' ∧
    calls "get_all_dashboard_data" (sys_world sys') =
      S (calls "get_all_dashboard_data" (sys_world sys)).
Proof.
  intros Hreach Hph. pose proof (reachable_inv _ Hreach) as Hinv.
  apply inv_regime in Hinv; [|auto]. destruct Hinv as (_ & _ & Hiv & _).
  unfold step. rewrite Hiv. cbn [lookup list_lookup].
  eexists. split; [reflexivity|].
  unfold start. cbn [handle VariantB.AttendanceDashboard VariantB.handle].
  unfold VariantB.refreshData, VariantB.loadDashboardData. async_run.
  cbn [settle sys_world]. world_simpl. cbn. lia.
Qed.

(** C2. Both variants register the interval in [onMounted] and nothing in
    [onWillUnmount]: after the component is unmounted the interval is still
    registered, and when its 60 seconds elapse [refreshData] runs and a
    second [get_all_dashboard_data] call goes out. *)
Theorem interval_survives_unmount :
  (after VariantB.AttendanceDashboard session_until_unmount sys_phase = Some Destroyed ∧
   after VariantB.AttendanceDashboard session_until_unmount registered_intervals
     = Some [(1%nat, VariantB.RefreshData, 60000)] ∧
   after VariantB.AttendanceDashboard session_until_unmount dashboard_calls = Some 1%nat ∧
   after VariantB.AttendanceDashboard (session_until_unmount ++ [EvInterval 0])
     dashboard_calls = Some 2%nat) ∧
  (after VariantA.AttendanceDashboard session_until_unmount sys_phase = Some Destroyed ∧
   after VariantA.AttendanceDashboard session_until_unmount registered_intervals
     = Some [(1%nat, VariantA.RefreshData, 60000)] ∧
   after VariantA.AttendanceDashboard session_until_unmount dashboard_calls = Some 1%nat ∧
   after VariantA.AttendanceDashboard (session_until_unmount ++ [EvInterval 0])
     dashboard_calls = Some 2%nat).
Proof. repeat split; vm_compute; reflexivity. Qed.

(** ** Remote failures *)

Ltac rejected Hrej :=
  match goal with
  | |- context [match ?server ?w ?c with Resolve _ => _ | Reject _ => _ end] =>
      let reason := fresh "reason" in
      let E := fresh "E" in
      destruct (Hrej w c) as [reason E]; rewrite E; clear E
  end.

(** C3. When the server rejects its calls, the fetch operations of variant B
    return normally: [loadDashboardData] changes nothing but [loading], which
    it clears; [loadMonthlySummary] changes nothing; [refreshData] changes
    nothing but [loading] and [refreshing], both cleared at its end.  After
    a failed initial load [loading] is [false], no call is in flight and no
    exception went uncaught. *)
Theorem remote_failure_is_contained
    (server : world VariantB.handler → rpc → reply) (w : world VariantB.handler) :
  always_rejects server → failure_contained server w.
Proof.
  intros Hrej. unfold failure_contained. split; [|split; [|split]].
  - unfold VariantB.loadDashboardData. async_run. rejected Hrej. async_run.
    split; [reflexivity|]. split; [world_simpl; reflexivity|].
    intros f Hf. world_simpl. reflexivity.
  - unfold VariantB.loadMonthlySummary. async_run. rejected Hrej. async_run.
    split; [reflexivity|]. intros f. world_simpl. reflexivity.
  - unfold VariantB.refreshData, VariantB.loadDashboardData, VariantB.loadMonthlySummary.
    async_run. rejected Hrej. async_run. tab_of w.
    destruct (strict_eq_str _ _); async_run; try (rejected Hrej; async_run);
      (split; [reflexivity|]); (split; [world_simpl; reflexivity|]);
      (split; [world_simpl; reflexivity|]);
      intros f Hf1 Hf2; world_simpl; reflexivity.
  - intros d reason. eexists. split; [reflexivity|].
    split; [reflexivity|]. split; reflexivity.
Qed.

Lemma remote_failure_is_contained_witness :
  always_rejects (@unreachable_server VariantB.handler) ∧
  failure_contained unreachable_server
    (sys_world (boot VariantB.AttendanceDashboard a_date)).
Proof.
  assert (Hrej : always_rejects (@unreachable_server VariantB.handler))
    by (intros w c; eexists; reflexivity).
  split; [exact Hrej|].
  exact (remote_failure_is_contained unreachable_server
           (sys_world (boot VariantB.AttendanceDashboard a_date)) Hrej).
Defined.

(** ** The export link *)

(** *** What every job keeps *)

Section Kept.

Context {H : Type} (comp : component H) (P : world H → Prop).

Hypothesis handlers_keep :
  ∀ h w, guarantee (keeps P) (λ _, True) w (handle comp h w).
Hypothesis start_keeps :
  ∀ w, guarantee (keeps P) (λ _, True) w (run_all (onWillStart (setup comp)) w).
Hypothesis mount_keeps :
  ∀ w, guarantee (keeps P) (λ _, True) w (run_all (onMounted (setup comp)) w).
Hypothesis unmount_keeps :
  ∀ w, guarantee (keeps P) (λ _, True) w (run_all (onWillUnmount (setup comp)) w).
Hypothesis uncaught_keeps : ∀ e w, P w → P (log (Uncaught e) w).
Hypothesis clock_keeps : ∀ d w, P w → P (with_clock d w).
Hypothesis boots_with : ∀ d, P (sys_world (boot comp d)).

Lemma settle_kept o m (sys : system H) :
  kept_system P sys →
  guarantee (keeps P) (λ _, True) (sys_world sys) m →
  kept_system P (settle o m sys).
Proof.
  intros [Hw Hall] Hg.
  inversion Hg as [w0 w r Hkeep _ | w0 w c k Hkeep Hk]; subst.
  - destruct r; split; cbn [settle sys_world inflight]; auto.
  - split; cbn [settle sys_world inflight]; [auto|].
    apply Forall_app. split; [exact Hall|]. apply Forall_singleton. exact Hk.
Qed.

Lemma step_kept ev (sys sys' : system H) :
  kept_system P sys → step comp ev sys = Some sys' → kept_system P sys'.
Proof.
  intros Hkept Hstep. destruct sys as [w fl ph n].
  destruct ev as [| |i r|i|h| |d]; unfold step in Hstep;
    cbn [sys_phase sys_world inflight delivered] in Hstep.
  - destruct ph; try discriminate Hstep. apply (inj Some) in Hstep; subst sys'.
    apply settle_kept; [exact Hkept | apply start_keeps].
  - destruct ph; try discriminate Hstep. destruct fl; [|discriminate Hstep].
    apply (inj Some) in Hstep; subst sys'.
    apply settle_kept; [exact Hkept | apply mount_keeps].
  - destruct (fl !! i) as [p|] eqn:Hp; [|discriminate Hstep].
    apply (inj Some) in Hstep; subst sys'.
    destruct Hkept as [Hw Hall]. cbn [sys_world inflight] in *.
    apply settle_kept.
    + split; cbn [sys_world inflight]; [exact Hw | by apply Forall_delete].
    + exact (proj1 (Forall_lookup _ _) Hall _ _ Hp r w).
  - destruct (intervals w !! i) as [[[id cb] ms]|] eqn:Hi; [|discriminate Hstep].
    apply (inj Some) in Hstep; subst sys'.
    apply settle_kept; [exact Hkept | apply handlers_keep].
  - destruct ph; try discriminate Hstep. apply (inj Some) in Hstep; subst sys'.
    apply settle_kept; [exact Hkept | apply handlers_keep].
  - destruct ph; try discriminate Hstep. apply (inj Some) in Hstep; subst sys'.
    apply settle_kept; [exact Hkept | apply unmount_keeps].
  - apply (inj Some) in Hstep; subst sys'. destruct Hkept as [Hw Hall].
    split; cbn [sys_world inflight] in *; auto.
Qed.

Lemma reachable_kept (sys : system H) : reachable comp sys → P (sys_world sys).
Proof.
  intros (d & evs & Hrun).
  assert (Hboot : kept_system P (boot comp d)) by (split; [apply boots_with | constructor]).
  enough (kept_system P sys) as [Hw _] by exact Hw.
  revert Hrun Hboot. generalize (boot comp d).
  induction evs as [|ev evs IH]; intros sys0 Hrun Hkept; cbn [run] in Hrun.
  - apply (inj Some) in Hrun. by subst.
  - destruct (step comp ev sys0) as [sys1|] eqn:Hstep; [|discriminate Hrun].
    eapply IH; [exact Hrun|]. eapply step_kept; eassumption.
Qed.

End Kept.

Ltac month_and_year_tac :=
  unfold keeps, month_and_year_set;
  let Hm := fresh "Hm" in let Hy := fresh "Hy" in
  intros [Hm Hy]; unfold field in Hm, Hy; world_simpl;
  split; first [reflexivity | assumption].

Ltac kept_tac :=
  async_run;
  lazymatch goal with
  | |- guarantee _ _ _ (Done _ _) =>
      apply guarantee_done; [month_and_year_tac | exact I]
  | |- guarantee _ _ _ (Await _ _ _) =>
      apply guarantee_await;
      [ month_and_year_tac
      | let r := fresh "r" in let w' := fresh "w'" in
        intros r w'; destruct r as [[]|]; cbn [get_prop]; kept_tac ]
  | |- context [if strict_eq_str ?v ?s then _ else _] =>
      destruct (strict_eq_str v s); kept_tac
  end.

Lemma month_and_year_set_B (sys : system VariantB.handler) :
  reachable VariantB.AttendanceDashboard sys → month_and_year_set (sys_world sys).
Proof.
  apply reachable_kept.
  - intros h w. destruct h; cbn [handle VariantB.AttendanceDashboard VariantB.handle];
      unfold VariantB.refreshData, VariantB.onDepartmentChange, VariantB.clearFilters,
        VariantB.setActiveTab, VariantB.toggleLeaveList, VariantB.onMonthChange,
        VariantB.onYearChange, VariantB.exportToExcel, VariantB.refreshData,
        VariantB.loadDashboardData, VariantB.loadMonthlySummary.
    all: kept_tac.
  - intros w. unfold run_all.
    cbn [foldr onWillStart setup VariantB.AttendanceDashboard VariantB.setup].
    unfold VariantB.loadDashboardData. kept_tac.
  - intros w. unfold run_all.
    cbn [foldr onMounted setup VariantB.AttendanceDashboard VariantB.setup]. kept_tac.
  - intros w. unfold run_all.
    cbn [foldr onWillUnmount setup VariantB.AttendanceDashboard VariantB.setup]. kept_tac.
  - intros e w Hw. exact Hw.
  - intros d w Hw. exact Hw.
  - intros d. split; reflexivity.
Qed.

Lemma month_and_year_set_A (sys : system VariantA.handler) :
  reachable VariantA.AttendanceDashboard sys → month_and_year_set (sys_world sys).
Proof.
  apply reachable_kept.
  - intros h w. destruct h; cbn [handle VariantA.AttendanceDashboard VariantA.handle];
      unfold VariantA.refreshData, VariantA.onDepartmentChange, VariantA.onJobChange,
        VariantA.clearFilters, VariantA.setActiveTab, VariantA.onEmployeeFilterChange,
        VariantA.onMonthChange, VariantA.onYearChange, VariantA.exportToExcel,
        VariantA.refreshData, VariantA.loadDashboardData, VariantA.loadMonthlySummary,
        VariantA.loadEmployeeList.
    all: kept_tac.
  - intros w. unfold run_all.
    cbn [foldr onWillStart setup VariantA.AttendanceDashboard VariantA.setup].
    unfold VariantA.loadDashboardData. kept_tac.
  - intros w. unfold run_all.
    cbn [foldr onMounted setup VariantA.AttendanceDashboard VariantA.setup]. kept_tac.
  - intros w. unfold run_all.
    cbn [foldr onWillUnmount setup VariantA.AttendanceDashboard VariantA.setup]. kept_tac.
  - intros e w Hw. exact Hw.
  - intros d w Hw. exact Hw.
  - intros d. split; reflexivity.
Qed.

(** *** The query string *)

Lemma param_nonempty (key : string) (v : value) (s : string) :
  In s (param key v) → s ≠ ""%string.
Proof.
  unfold param. destruct (truthy v); [|intros []].
  intros [<- | []]. destruct key; discriminate.
Qed.

Lemma join_empty (sep : string) (l : list string) :
  (∀ s, In s l → s ≠ ""%string) → join sep l = ""%string → l = [].
Proof.
  destruct l as [|x [|y rest]]; intros Hne Hjoin; [reflexivity| |]; exfalso;
    apply (Hne x (or_introl eq_refl)); cbn [join] in Hjoin;
    destruct x; [reflexivity | discriminate Hjoin | reflexivity | discriminate Hjoin].
Qed.

Lemma param_empty (key : string) (v : value) : param key v = [] ↔ truthy v = false.
Proof. unfold param. destruct (truthy v); split; congruence. Qed.

Lemma query_B_empty {H : Type} (w : world H) :
  query_B w = ""%string ↔
  truthy (field "selectedDepartment" w) = false ∧
  truthy (field "selectedMonth" w) = false ∧
  truthy (field "selectedYear" w) = false.
Proof.
  unfold query_B. split.
  - intros Hq. apply join_empty in Hq.
    + apply app_eq_nil in Hq as [Hd Hq]. apply app_eq_nil in Hq as [Hm Hy].
      rewrite <- !param_empty. eauto.
    + intros s Hs. rewrite !in_app_iff in Hs.
      destruct Hs as [Hs | [Hs | Hs]]; exact (param_nonempty _ _ _ Hs).
  - intros (Hd & Hm & Hy). unfold param. rewrite Hd, Hm, Hy. reflexivity.
Qed.

Lemma query_A_empty {H : Type} (w : world H) :
  query_A w = ""%string ↔
  truthy (field "selectedDepartment" w) = false ∧
  truthy (field "selectedJob" w) = false ∧
  truthy (field "selectedMonth" w) = false ∧
  truthy (field "selectedYear" w) = false.
Proof.
  unfold query_A. split.
  - intros Hq. apply join_empty in Hq.
    + apply app_eq_nil in Hq as [Hd Hq]. apply app_eq_nil in Hq as [Hj Hq].
      apply app_eq_nil in Hq as [Hm Hy].
      rewrite <- !param_empty. eauto.
    + intros s Hs. rewrite !in_app_iff in Hs.
      destruct Hs as [Hs | [Hs | [Hs | Hs]]]; exact (param_nonempty _ _ _ Hs).
  - intros (Hd & Hj & Hm & Hy). unfold param. rewrite Hd, Hj, Hm, Hy. reflexivity.
Qed.

Lemma param_number (key : string) (n : num) :
  param key (Num n) = [] ↔ n = NaN ∨ n = Int 0.
Proof.
  rewrite param_empty. destruct n as [|z|negative]; cbn [truthy].
  - split; auto.
  - rewrite negb_false_iff, Z.eqb_eq. split.
    + intros ->. auto.
    + intros [Hn | Hz]; [discriminate Hn | congruence].
  - split; [discriminate|]. intros [Hn | Hz]; discriminate.
Qed.

Lemma truthy_Int (z : Z) : z ≠ 0 → truthy (Num (Int z)) = true.
Proof. intros Hz. cbn. destruct (Z.eqb_spec z 0); [contradiction | reflexivity]. Qed.

(** What the export reads, after the session in which department 3 and the
    year 2024 are chosen. *)
Lemma choices_made :
  after VariantA.AttendanceDashboard session_with_choices
    (λ sys, (field "selectedDepartment" (sys_world sys), field "selectedJob" (sys_world sys),
             field "selectedMonth" (sys_world sys), field "selectedYear" (sys_world sys)))
  = Some (Num (Int 3), Null, Num (Int 11), Num (Int 2024)).
Proof. vm_compute. reflexivity. Qed.

(** C1, as the specification words its two examples, fails on a dashboard:
    freshly set up, with no department selected, the query string is
    [month=11&year=2026]; with department 3 and year 2024 chosen it is
    [department_id=3&month=11&year=2024]. *)
Lemma exportToExcel_as_specified_fails :
  ¬ unfiltered_export_is_empty ∧ ¬ department_and_year_only.
Proof.
  split.
  - intros Hspec.
    specialize (Hspec (boot VariantB.AttendanceDashboard a_date)
                  (ex_intro _ a_date (ex_intro _ [] eq_refl)) eq_refl).
    vm_compute in Hspec. discriminate Hspec.
  - intros Hspec. pose proof choices_made as Hobs. unfold after in Hobs.
    destruct (run VariantA.AttendanceDashboard session_with_choices
                (boot VariantA.AttendanceDashboard a_date)) as [sys|] eqn:Hrun;
      [|discriminate Hobs].
    cbn [fmap option_fmap option_map] in Hobs. injection Hobs as Hd Hj Hm Hy.
    specialize (Hspec sys (ex_intro _ a_date (ex_intro _ _ Hrun)) Hd Hj Hy).
    unfold query_A, param in Hspec. rewrite Hd, Hj, Hm, Hy in Hspec.
    vm_compute in Hspec. discriminate Hspec.
Qed.

(** C1, amended.  [exportToExcel] opens the fixed path followed by [?] and
    the parameters joined by [&]; a parameter is there exactly when its
    field is truthy, hence only when the field is not [null]; the parameter
    of a number is missing only for 0 and [NaN]; and the query string is
    empty exactly when no field is truthy.  On a dashboard
    [selectedMonth] and [selectedYear] are numbers from [setup()] on, never
    [null]: when they are not zero the link carries both, so with no
    department or job selected the query string is [month=..&year=..], and
    with department 3 selected it is [department_id=3&month=..&year=..]. *)
Theorem exportToExcel_query :
  (∀ w : world VariantA.handler,
     VariantA.exportToExcel w =
     Done (log (WindowOpen ("/attendance_dashboard/export_monthly_excel?" +:+ query_A w)
                  "_blank") w) (Normal tt)) ∧
  (∀ w : world VariantB.handler,
     VariantB.exportToExcel w =
     Done (log (WindowOpen ("/attendance_dashboard/export_monthly_excel?" +:+ query_B w)
                  "_blank") w) (Normal tt)) ∧
  (∀ key v, (param key v ≠ [] ↔ truthy v = true) ∧ (truthy v = true → v ≠ Null)) ∧
  (∀ key n, param key (Num n) = [] ↔ n = NaN ∨ n = Int 0) ∧
  (∀ (H : Type) (w : world H),
     (query_B w = ""%string ↔
        truthy (field "selectedDepartment" w) = false ∧
        truthy (field "selectedMonth" w) = false ∧
        truthy (field "selectedYear" w) = false) ∧
     (query_A w = ""%string ↔
        truthy (field "selectedDepartment" w) = false ∧
        truthy (field "selectedJob" w) = false ∧
        truthy (field "selectedMonth" w) = false ∧
        truthy (field "selectedYear" w) = false)) ∧
  (∀ sys, reachable VariantB.AttendanceDashboard sys →
     month_and_year_set (sys_world sys)) ∧
  (∀ sys, reachable VariantA.AttendanceDashboard sys →
     month_and_year_set (sys_world sys)) ∧
  (∀ (H : Type) (w : world H) (m y : Z),
     field "selectedMonth" w = Num (Int m) → field "selectedYear" w = Num (Int y) →
     m ≠ 0 → y ≠ 0 →
     (field "selectedDepartment" w = Null →
        query_B w = "month=" +:+ Z_to_string m +:+ "&year=" +:+ Z_to_string y ∧
        (field "selectedJob" w = Null →
         query_A w = "month=" +:+ Z_to_string m +:+ "&year=" +:+ Z_to_string y)) ∧
     (field "selectedDepartment" w = Num (Int 3) →
        query_B w = "department_id=3&month=" +:+ Z_to_string m
                    +:+ "&year=" +:+ Z_to_string y ∧
        (field "selectedJob" w = Null →
         query_A w = "department_id=3&month=" +:+ Z_to_string m
                     +:+ "&year=" +:+ Z_to_string y))).
Proof.
  split; [exact exportToExcel_A|].
  split; [exact exportToExcel_B|].
  split; [exact param_truthy|].
  split; [exact param_number|].
  split; [intros H w; split; [apply query_B_empty | apply query_A_empty]|].
  split; [exact month_and_year_set_B|].
  split; [exact month_and_year_set_A|].
  intros H w m y Hm Hy Hm0 Hy0.
  pose proof (truthy_Int m Hm0) as Htm. pose proof (truthy_Int y Hy0) as Hty.
  split; intros Hd; (split; [|intros Hj]); unfold query_A, query_B, param;
    rewrite Hd, ?Hj, Hm, Hy, Htm, Hty; reflexivity.
Qed.

Lemma exportToExcel_query_witness :
  after VariantA.AttendanceDashboard session_with_choices
    (λ sys, query_A (sys_world sys))
  = Some "department_id=3&month=11&year=2024"%string ∧
  query_B (sys_world (boot VariantB.AttendanceDashboard a_date))
  = "month=11&year=2026"%string.
Proof.
  destruct exportToExcel_query as (_ & _ & _ & _ & _ & _ & _ & Hquery).
  split.
  - pose proof choices_made as Hobs. unfold after in *.
    destruct (run VariantA.AttendanceDashboard session_with_choices
                (boot VariantA.AttendanceDashboard a_date)) as [sys|];
      [|discriminate Hobs].
    cbn [fmap option_fmap option_map] in *. injection Hobs as Hd Hj Hm Hy.
    f_equal.
    refine (proj2 (proj2 (Hquery _ (sys_world sys) 11 2024 Hm Hy _ _) Hd) Hj);
      discriminate.
  - refine (proj1 (proj1 (Hquery _ (sys_world (boot VariantB.AttendanceDashboard a_date))
                            11 2026 eq_refl eq_refl _ _) eq_refl)); discriminate.
Defined.

(** * Further properties of the code *)

(** ** Integers through [parseInt] *)

Lemma digits_some d : ∀ a,
  digits 10 (Some a) (NilEmpty.string_of_uint d) = Some (uint_value d a).
Proof.
  induction d; intros a; cbn [NilEmpty.string_of_uint digits uint_value]; auto;
    match goal with
    | |- context [digit_value 10 ?c] =>
        let v := eval vm_compute in (digit_value 10 c) in
        change (digit_value 10 c) with v
    end; apply IHd.
Qed.

Lemma digits_none d :
  d ≠ Decimal.Nil →
  digits 10 None (NilEmpty.string_of_uint d) = Some (uint_value d 0).
Proof.
  destruct d; intros Hd; try congruence;
    cbn [NilEmpty.string_of_uint digits uint_value];
    match goal with
    | |- context [digit_value 10 ?c] =>
        let v := eval vm_compute in (digit_value 10 c) in
        change (digit_value 10 c) with v
    end; apply digits_some.
Qed.

Lemma uint_value_acc d : ∀ p,
  uint_value d (Zpos p) = Zpos (Pos.of_uint_acc d p).
Proof.
  induction d; intros p; cbn [uint_value Pos.of_uint_acc]; auto;
    rewrite <- IHd; f_equal; lia.
Qed.

Lemma uint_value_0 d : uint_value d 0 = Z.of_N (Pos.of_uint d).
Proof.
  induction d; cbn [uint_value Pos.of_uint]; auto;
    match goal with
    | |- uint_value _ (0 * 10 + ?k) = _ => change (0 * 10 + k) with k
    end; rewrite uint_value_acc; reflexivity.
Qed.

Lemma uint_value_to_uint p : uint_value (Pos.to_uint p) 0 = Zpos p.
Proof. rewrite uint_value_0, DecimalPos.Unsigned.of_to. reflexivity. Qed.

Lemma string_of_uint_first d :
  match NilEmpty.string_of_uint d with
  | EmptyString => True
  | String c _ => is_space c = false ∧ c ≠ "-"%char ∧ c ≠ "+"%char ∧ c ≠ "x"%char ∧ c ≠ "X"%char
  end.
Proof. destruct d; cbn; auto; repeat split; (reflexivity || discriminate). Qed.

Lemma parseInt_unsigned d :
  d ≠ Decimal.Nil →
  parseInt (NilEmpty.string_of_uint d) = round_double (uint_value d 0) ∧
  parseInt (String "-" (NilEmpty.string_of_uint d)) = round_double (- uint_value d 0).
Proof.
  intros Hd. pose proof (digits_none d Hd) as Hdig.
  unfold parseInt.
  destruct d as [|d|d|d|d|d|d|d|d|d|d]; try congruence;
    cbn [NilEmpty.string_of_uint skip_spaces] in *;
    repeat match goal with
           | |- context [is_space ?c] =>
               let v := eval vm_compute in (is_space c) in
               change (is_space c) with v
           end;
    cbv iota;
    try (destruct d; cbn [NilEmpty.string_of_uint] in * );
    rewrite Hdig; split; reflexivity.
Qed.

(** [parseInt] reads the digits of an integer as the nearest double. *)
Lemma parseInt_decimal (z : Z) : parseInt (decimal z) = round_double z.
Proof.
  unfold decimal. destruct z as [|p|p]; [reflexivity| |].
  - cbn [Z.to_int NilZero.string_of_int].
    unfold NilZero.string_of_uint.
    destruct (Pos.to_uint p) eqn:E;
      try (exfalso; exact (DecimalPos.Unsigned.to_uint_nonnil p E));
      rewrite <- E;
      rewrite (proj1 (parseInt_unsigned _ (DecimalPos.Unsigned.to_uint_nonnil p)));
      rewrite uint_value_to_uint; reflexivity.
  - cbn [Z.to_int NilZero.string_of_int].
    unfold NilZero.string_of_uint.
    destruct (Pos.to_uint p) eqn:E;
      try (exfalso; exact (DecimalPos.Unsigned.to_uint_nonnil p E));
      rewrite <- E;
      rewrite (proj2 (parseInt_unsigned _ (DecimalPos.Unsigned.to_uint_nonnil p)));
      rewrite uint_value_to_uint; reflexivity.
Qed.

(** A safe integer is a double. *)
Lemma round_double_safe (z : Z) : safe_integer z → round_double z = Int z.
Proof.
  intros [Hlo Hhi].
  assert (Hlog : ∀ p, Zpos p < 2 ^ 53 → nearest_double (Zpos p) = Some (Zpos p)).
  { intros p Hp. unfold nearest_double. cbv zeta.
    assert (Z.log2 (Zpos p) < 53) by (apply Z.log2_lt_pow2; [lia | exact Hp]).
    destruct (Z.leb_spec (Z.log2 (Zpos p)) 52); [reflexivity | lia]. }
  destruct z as [|p|p]; [reflexivity| |]; unfold round_double.
  - rewrite Hlog by exact Hhi. reflexivity.
  - change (- Zneg p) with (Zpos p). rewrite Hlog; [reflexivity|].
    change (Zneg p) with (- Zpos p) in Hlo. lia.
Qed.

Lemma Z_to_string_safe (z : Z) : safe_integer z → Z_to_string z = decimal z.
Proof.
  intros [Hlo Hhi]. unfold Z_to_string.
  destruct (Z.ltb_spec (Z.abs z) (2 ^ 53)) as [_ | Habs]; [reflexivity|].
  exfalso. lia.
Qed.

(** On a safe integer [parseInt] reads back what [String] prints. *)
Lemma parseInt_to_string (z : Z) : safe_integer z → parseInt (Z_to_string z) = Int z.
Proof.
  intros Hsafe. rewrite (Z_to_string_safe z Hsafe), parseInt_decimal.
  apply round_double_safe, Hsafe.
Qed.

Lemma decimal_nonempty (z : Z) : decimal z ≠ ""%string.
Proof.
  intros E. pose proof (parseInt_decimal z) as Hp. rewrite E in Hp.
  change (parseInt "") with NaN in Hp.
  destruct z; unfold round_double in Hp; try discriminate Hp;
    destruct (nearest_double _); discriminate Hp.
Qed.

(** ** What a refresh sends and what it leaves alone *)

Ltac in_fields :=
  match goal with
  | Hin : In ?f _ |- _ =>
      cbn [In filter_fields] in Hin;
      repeat match type of Hin with
             | _ ∨ _ => destruct Hin as [Hin | Hin]
             end;
      try contradiction; subst f
  end.

Lemma refreshData_B_keeps (server : world VariantB.handler → rpc → reply) w f :
  In f filter_fields →
  field f (complete server (VariantB.refreshData w)).1 = field f w.
Proof.
  intros Hin.
  unfold VariantB.refreshData, VariantB.loadDashboardData, VariantB.loadMonthlySummary.
  repeat async_step; tab_of w; destruct (strict_eq_str _ _);
    repeat async_step; cbn [fst]; in_fields; world_simpl; reflexivity.
Qed.

Lemma refreshData_A_keeps (server : world VariantA.handler → rpc → reply) w f :
  In f filter_fields →
  field f (complete server (VariantA.refreshData w)).1 = field f w.
Proof.
  intros Hin. unfold VariantA.refreshData, VariantA.loadDashboardData.
  repeat async_step; cbn [fst]; in_fields; world_simpl; reflexivity.
Qed.

Lemma refreshData_B_calls (server : world VariantB.handler → rpc → reply) w :
  calls_of (complete server (VariantB.refreshData w)).1 =
  calls_of w ++ dashboard_call_B w ::
    (if strict_eq_str (field "activeTab" w) "monthly" then [monthly_call_B w] else []).
Proof.
  unfold VariantB.refreshData, VariantB.loadDashboardData, VariantB.loadMonthlySummary,
    dashboard_call_B, monthly_call_B, monthly_args_B.
  repeat async_step; tab_of w; destruct (strict_eq_str _ _);
    repeat async_step; cbn [fst]; world_simpl; rewrite <- ?app_assoc; reflexivity.
Qed.

Lemma refreshData_A_calls (server : world VariantA.handler → rpc → reply) w :
  calls_of (complete server (VariantA.refreshData w)).1 = calls_of w ++ [dashboard_call_A w].
Proof.
  unfold VariantA.refreshData, VariantA.loadDashboardData, dashboard_call_A.
  repeat async_step; cbn [fst]; world_simpl; reflexivity.
Qed.

(** X1. Whatever the server replies, [refreshData] leaves the filters, the
    tab and the toggles as they were, in both variants. *)
Theorem refreshData_keeps_filters :
  (∀ (server : world VariantB.handler → rpc → reply) w f,
     In f filter_fields →
     field f (complete server (VariantB.refreshData w)).1 = field f w) ∧
  (∀ (server : world VariantA.handler → rpc → reply) w f,
     In f filter_fields →
     field f (complete server (VariantA.refreshData w)).1 = field f w).
Proof.
  split; intros server w f Hin.
  - apply refreshData_B_keeps. exact Hin.
  - apply refreshData_A_keeps. exact Hin.
Qed.

(** X2. [refreshData] issues the dashboard call with the filters of the
    state, followed in variant B by the monthly call when the tab is
    ['monthly'], and no other call, whatever the replies. *)
Theorem refreshData_calls :
  (∀ (server : world VariantB.handler → rpc → reply) w,
     calls_of (complete server (VariantB.refreshData w)).1 =
     calls_of w ++ dashboard_call_B w ::
       (if strict_eq_str (field "activeTab" w) "monthly" then [monthly_call_B w] else [])) ∧
  (∀ (server : world VariantA.handler → rpc → reply) w,
     calls_of (complete server (VariantA.refreshData w)).1 =
     calls_of w ++ [dashboard_call_A w]).
Proof.
  split; intros server w.
  - apply refreshData_B_calls.
  - apply refreshData_A_calls.
Qed.

(** ** Choosing in the selectors *)

Lemma Z_to_string_nonempty (z : Z) : Z_to_string z ≠ ""%string.
Proof.
  unfold Z_to_string. destruct (Z.abs z <? 2 ^ 53); [apply decimal_nonempty|].
  assert (Hlarge : ∀ x, large_to_string x ≠ ""%string).
  { intros x. unfold large_to_string. cbv zeta.
    destruct (_ <=? 21)%nat; [apply decimal_nonempty|].
    unfold exponent_form. cbv zeta.
    destruct (strip_zeros _) as [|c [|c' rest]];
      [apply decimal_nonempty | discriminate | discriminate]. }
  destruct (z <? 0); [discriminate | apply Hlarge].
Qed.

Lemma truthy_Z_to_string (z : Z) : truthy (Str (Z_to_string z)) = true.
Proof. apply truthy_Str, Z_to_string_nonempty. Qed.

Lemma onDepartmentChange_B_unfold value (w : world VariantB.handler) :
  VariantB.onDepartmentChange value w =
  VariantB.refreshData
    (with_state (insert "selectedDepartment"
                   (if truthy (Str value) then Num (parseInt value) else Null)) w).
Proof. reflexivity. Qed.

Lemma onDepartmentChange_A_unfold value (w : world VariantA.handler) :
  VariantA.onDepartmentChange value w =
  VariantA.refreshData
    (with_state (insert "selectedDepartment"
                   (if truthy (Str value) then Num (parseInt value) else Null)) w).
Proof. reflexivity. Qed.

Lemma onJobChange_A_unfold value (w : world VariantA.handler) :
  VariantA.onJobChange value w =
  VariantA.refreshData
    (with_state (insert "selectedJob"
                   (if truthy (Str value) then Num (parseInt value) else Null)) w).
Proof. reflexivity. Qed.

Ltac filter_kept :=
  first [ rewrite refreshData_B_keeps by (cbn; tauto)
        | rewrite refreshData_A_keeps by (cbn; tauto) ].

(** X3. Choosing the department whose identifier is the safe integer [id]
    stores [id], sends it as the department of the dashboard call issued at
    once, and puts [department_id=id] in the export link, except that the
    identifier 0 is sent to the server but left out of the link.  The same
    holds for the job filter of variant A. *)
Theorem filter_choice_reaches_call_and_export (id : Z) :
  safe_integer id →
  (∀ (server : world VariantB.handler → rpc → reply) w,
     let w' := (complete server (VariantB.onDepartmentChange (chosen (Num (Int id))) w)).1 in
     field "selectedDepartment" w' = Num (Int id) ∧
     (∃ more, calls_of w' =
        calls_of w ++
        Rpc "attendance.dashboard" "get_all_dashboard_data" [Num (Int id)] :: more) ∧
     param "department_id" (field "selectedDepartment" w') =
       if id =? 0 then [] else ["department_id=" +:+ Z_to_string id]) ∧
  (∀ (server : world VariantA.handler → rpc → reply) w,
     let w' := (complete server (VariantA.onDepartmentChange (chosen (Num (Int id))) w)).1 in
     field "selectedDepartment" w' = Num (Int id) ∧
     calls_of w' =
       calls_of w ++
       [Rpc "attendance.dashboard" "get_all_dashboard_data"
          [Num (Int id); field "selectedJob" w]] ∧
     param "department_id" (field "selectedDepartment" w') =
       if id =? 0 then [] else ["department_id=" +:+ Z_to_string id]) ∧
  (∀ (server : world VariantA.handler → rpc → reply) w,
     let w' := (complete server (VariantA.onJobChange (chosen (Num (Int id))) w)).1 in
     field "selectedJob" w' = Num (Int id) ∧
     calls_of w' =
       calls_of w ++
       [Rpc "attendance.dashboard" "get_all_dashboard_data"
          [field "selectedDepartment" w; Num (Int id)]] ∧
     param "job_id" (field "selectedJob" w') =
       if id =? 0 then [] else ["job_id=" +:+ Z_to_string id]).
Proof.
  intros Hsafe.
  assert (Hparam : ∀ key, param key (Num (Int id)) =
                          if id =? 0 then [] else [key +:+ "=" +:+ Z_to_string id]).
  { intros key. unfold param. cbn. destruct (id =? 0); reflexivity. }
  unfold chosen. cbn [to_string num_to_string].
  split; [|split]; intros server w; cbn zeta.
  - rewrite onDepartmentChange_B_unfold, truthy_Z_to_string, parseInt_to_string
      by exact Hsafe.
    filter_kept. rewrite refreshData_B_calls.
    unfold dashboard_call_B. world_simpl.
    split; [reflexivity|]. split; [eexists; reflexivity | apply Hparam].
  - rewrite onDepartmentChange_A_unfold, truthy_Z_to_string, parseInt_to_string
      by exact Hsafe.
    filter_kept. rewrite refreshData_A_calls.
    unfold dashboard_call_A. world_simpl.
    split; [reflexivity|]. split; [reflexivity | apply Hparam].
  - rewrite onJobChange_A_unfold, truthy_Z_to_string, parseInt_to_string
      by exact Hsafe.
    filter_kept. rewrite refreshData_A_calls.
    unfold dashboard_call_A. world_simpl.
    split; [reflexivity|]. split; [reflexivity | apply Hparam].
Qed.

Lemma filter_choice_reaches_call_and_export_witness :
  safe_integer 3 ∧
  field "selectedJob"
    (complete unreachable_server
       (VariantA.onJobChange (chosen (Num (Int 3)))
          (sys_world (boot VariantA.AttendanceDashboard a_date)))).1 = Num (Int 3) ∧
  param "job_id"
    (field "selectedJob"
       (complete unreachable_server
          (VariantA.onJobChange (chosen (Num (Int 3)))
             (sys_world (boot VariantA.AttendanceDashboard a_date)))).1)
  = ["job_id=3"%string].
Proof.
  assert (Hsafe : safe_integer 3) by (split; reflexivity).
  split; [exact Hsafe|].
  destruct (proj2 (proj2 (filter_choice_reaches_call_and_export 3 Hsafe))
              unreachable_server (sys_world (boot VariantA.AttendanceDashboard a_date)))
    as (Hstored & _ & Hparam).
  split; [exact Hstored | exact Hparam].
Defined.

(** X4. [clearFilters] resets the filters to [null] and refreshes at once
    with them: in variant B it is the empty choice of the department
    selector; in variant A one dashboard call goes out, with both filters
    [null]. *)
Theorem clearFilters_refreshes_unfiltered :
  (∀ w : world VariantB.handler,
     VariantB.clearFilters w = VariantB.onDepartmentChange "" w) ∧
  (∀ (server : world VariantB.handler → rpc → reply) w,
     let w' := (complete server (VariantB.clearFilters w)).1 in
     field "selectedDepartment" w' = Null ∧
     ∃ more, calls_of w' =
       calls_of w ++ Rpc "attendance.dashboard" "get_all_dashboard_data" [Null] :: more) ∧
  (∀ (server : world VariantA.handler → rpc → reply) w,
     let w' := (complete server (VariantA.clearFilters w)).1 in
     field "selectedDepartment" w' = Null ∧ field "selectedJob" w' = Null ∧
     calls_of w' =
       calls_of w ++ [Rpc "attendance.dashboard" "get_all_dashboard_data" [Null; Null]]).
Proof.
  split; [reflexivity|]. split; intros server w; cbn zeta.
  - change (VariantB.clearFilters w)
      with (VariantB.refreshData (with_state (insert "selectedDepartment" Null) w)).
    filter_kept. rewrite refreshData_B_calls.
    unfold dashboard_call_B. world_simpl. split; [reflexivity | eexists; reflexivity].
  - change (VariantA.clearFilters w)
      with (VariantA.refreshData
              (with_state (insert "selectedJob" Null)
                 (with_state (insert "selectedDepartment" Null) w))).
    do 2 filter_kept. rewrite refreshData_A_calls.
    unfold dashboard_call_A. world_simpl. repeat split; reflexivity.
Qed.

Ltac stores_parsed :=
  intros server w; async_run;
  match goal with
  | |- context [server ?w1 ?c] => destruct (server w1 c)
  end;
  async_run; cbn [fst]; world_simpl; reflexivity.

Lemma onMonthChange_B_stores value (server : world VariantB.handler → rpc → reply) w :
  field "selectedMonth" (complete server (VariantB.onMonthChange value w)).1
  = Num (parseInt value).
Proof.
  revert server w. unfold VariantB.onMonthChange, VariantB.loadMonthlySummary. stores_parsed.
Qed.

Lemma onMonthChange_A_stores value (server : world VariantA.handler → rpc → reply) w :
  field "selectedMonth" (complete server (VariantA.onMonthChange value w)).1
  = Num (parseInt value).
Proof.
  revert server w. unfold VariantA.onMonthChange, VariantA.loadMonthlySummary. stores_parsed.
Qed.

Lemma onYearChange_B_stores value (server : world VariantB.handler → rpc → reply) w :
  field "selectedYear" (complete server (VariantB.onYearChange value w)).1
  = Num (parseInt value).
Proof.
  revert server w. unfold VariantB.onYearChange, VariantB.loadMonthlySummary. stores_parsed.
Qed.

Lemma onYearChange_A_stores value (server : world VariantA.handler → rpc → reply) w :
  field "selectedYear" (complete server (VariantA.onYearChange value w)).1
  = Num (parseInt value).
Proof.
  revert server w. unfold VariantA.onYearChange, VariantA.loadMonthlySummary. stores_parsed.
Qed.

(** X5. [getMonthOptions] offers the months 1 to 12 in order, and choosing
    any of them in the month selector stores that very number: the selector
    never leaves [selectedMonth] outside 1..12. *)
Theorem month_options_round_trip :
  option_values getMonthOptions = List.map (λ m, Num (Int m)) [1; 2; 3; 4; 5; 6; 7; 8; 9; 10; 11; 12] ∧
  (∀ v, In v (option_values getMonthOptions) →
     ∃ m, v = Num (Int m) ∧ 1 <= m <= 12 ∧
       (∀ (server : world VariantB.handler → rpc → reply) w,
          field "selectedMonth" (complete server (VariantB.onMonthChange (chosen v) w)).1 = v) ∧
       (∀ (server : world VariantA.handler → rpc → reply) w,
          field "selectedMonth" (complete server (VariantA.onMonthChange (chosen v) w)).1 = v)).
Proof.
  split; [reflexivity|].
  intros v Hin. cbn in Hin.
  repeat match type of Hin with
         | _ ∨ _ => destruct Hin as [Hin | Hin]
         end;
    try contradiction; subst v; eexists; (split; [reflexivity|]);
    (split; [lia|]);
    unfold chosen; cbn [to_string num_to_string];
    (split; intros server w;
     [rewrite onMonthChange_B_stores | rewrite onMonthChange_A_stores];
     rewrite parseInt_to_string by (split; reflexivity); reflexivity).
Qed.

Lemma month_options_round_trip_witness :
  ∃ m, Num (Int 7) = Num (Int m) ∧ 1 <= m <= 12 ∧
    (∀ (server : world VariantB.handler → rpc → reply) w,
       field "selectedMonth"
         (complete server (VariantB.onMonthChange (chosen (Num (Int 7))) w)).1
       = Num (Int 7)) ∧
    (∀ (server : world VariantA.handler → rpc → reply) w,
       field "selectedMonth"
         (complete server (VariantA.onMonthChange (chosen (Num (Int 7))) w)).1
       = Num (Int 7)).
Proof.
  apply (proj2 month_options_round_trip (Num (Int 7))).
  cbn. tauto.
Defined.

(** X6. [getYearOptions] offers last year, this year and next year of the
    clock, in that order, and changes nothing; the year [setup()] selects is
    the middle option, and choosing a year that is a safe integer, as every
    year of the calendar is, stores that year. *)
Theorem year_options_round_trip :
  (∀ (H : Type) (w : world H),
     @getYearOptions H w =
     Done w (Normal (Arr [Num (Int (getFullYear (clock w) - 1));
                          Num (Int (getFullYear (clock w)));
                          Num (Int (getFullYear (clock w) + 1))]))) ∧
  (∀ d, field "selectedYear" (sys_world (boot VariantB.AttendanceDashboard d))
        = Num (Int (getFullYear d)) ∧
        field "selectedYear" (sys_world (boot VariantA.AttendanceDashboard d))
        = Num (Int (getFullYear d))) ∧
  (∀ y : Z, safe_integer y →
     (∀ (server : world VariantB.handler → rpc → reply) w,
        field "selectedYear"
          (complete server (VariantB.onYearChange (chosen (Num (Int y))) w)).1
        = Num (Int y)) ∧
     (∀ (server : world VariantA.handler → rpc → reply) w,
        field "selectedYear"
          (complete server (VariantA.onYearChange (chosen (Num (Int y))) w)).1
        = Num (Int y))).
Proof.
  split; [reflexivity|]. split.
  - intros d. split; reflexivity.
  - intros y Hsafe. unfold chosen. cbn [to_string num_to_string].
    split; intros server w;
      [rewrite onYearChange_B_stores | rewrite onYearChange_A_stores];
      rewrite parseInt_to_string by exact Hsafe; reflexivity.
Qed.

Lemma year_options_round_trip_witness :
  safe_integer 2027 ∧
  field "selectedYear"
    (complete unreachable_server
       (VariantB.onYearChange (chosen (Num (Int 2027)))
          (sys_world (boot VariantB.AttendanceDashboard a_date)))).1 = Num (Int 2027).
Proof.
  assert (Hsafe : safe_integer 2027) by (split; reflexivity).
  split; [exact Hsafe|].
  exact (proj1 (proj2 (proj2 year_options_round_trip) 2027 Hsafe)
           unreachable_server (sys_world (boot VariantB.AttendanceDashboard a_date))).
Defined.

(** ** Tabs and toggles *)

Ltac one_reply server :=
  match goal with
  | |- context [match server ?w1 ?c with Resolve _ => _ | Reject _ => _ end] =>
      destruct (server w1 c)
  end.

Lemma setActiveTab_B_effect (tab : value)
    (server : world VariantB.handler → rpc → reply) w :
  let '(w', r) := complete server (VariantB.setActiveTab tab w) in
  r = Normal tt ∧
  field "activeTab" w' = tab ∧
  field "showLeaveList" w' = Bool false ∧
  calls_of w' =
    calls_of w ++ (if strict_eq_str tab "monthly" then [monthly_call_B w] else []) ∧
  (∀ f, f ≠ "activeTab"%string → f ≠ "showLeaveList"%string →
        f ≠ "monthlySummary"%string → field f w' = field f w).
Proof.
  unfold VariantB.setActiveTab, VariantB.loadMonthlySummary, monthly_call_B, monthly_args_B.
  async_run. destruct (strict_eq_str tab "monthly"); async_run;
    try (one_reply server; async_run);
    (split; [reflexivity|]); (split; [world_simpl; reflexivity|]);
    (split; [world_simpl; reflexivity|]); (split; [world_simpl; reflexivity|]);
    intros f Hf1 Hf2 Hf3; world_simpl; reflexivity.
Qed.

Lemma setActiveTab_A_effect (tab : value)
    (server : world VariantA.handler → rpc → reply) w :
  let '(w', r) := complete server (VariantA.setActiveTab tab w) in
  r = Normal tt ∧
  field "activeTab" w' = tab ∧
  calls_of w' =
    calls_of w ++ (if strict_eq_str tab "employees" then [employee_call_A w]
                   else if strict_eq_str tab "monthly" then [monthly_call_A w]
                   else []) ∧
  (∀ f, f ≠ "activeTab"%string → f ≠ "employeeList"%string →
        f ≠ "monthlySummary"%string → field f w' = field f w).
Proof.
  unfold VariantA.setActiveTab, VariantA.loadMonthlySummary, VariantA.loadEmployeeList,
    monthly_call_A, monthly_args_A, employee_call_A.
  async_run. destruct (strict_eq_str tab "employees"); [|destruct (strict_eq_str tab "monthly")];
    async_run; try (one_reply server; async_run);
    (split; [reflexivity|]); (split; [world_simpl; reflexivity|]);
    (split; [world_simpl; reflexivity|]);
    intros f Hf1 Hf2 Hf3; world_simpl; reflexivity.
Qed.

(** X7. Switching tab stores the tab and keeps every filter.  Entering
    ['monthly'] issues one [get_monthly_work_summary] call with the current
    filters; entering ['employees'] (variant A) one [get_employee_list] call
    with the current employee filter, department and job; any other tab
    issues no call.  Variant B also closes the leave list. *)
Theorem setActiveTab_loads_its_tab (tab : value) :
  (∀ (server : world VariantB.handler → rpc → reply) w,
     let '(w', r) := complete server (VariantB.setActiveTab tab w) in
     r = Normal tt ∧
     field "activeTab" w' = tab ∧
     field "showLeaveList" w' = Bool false ∧
     calls_of w' =
       calls_of w ++ (if strict_eq_str tab "monthly" then [monthly_call_B w] else []) ∧
     (∀ f, f ≠ "activeTab"%string → f ≠ "showLeaveList"%string →
           f ≠ "monthlySummary"%string → field f w' = field f w)) ∧
  (∀ (server : world VariantA.handler → rpc → reply) w,
     let '(w', r) := complete server (VariantA.setActiveTab tab w) in
     r = Normal tt ∧
     field "activeTab" w' = tab ∧
     calls_of w' =
       calls_of w ++ (if strict_eq_str tab "employees" then [employee_call_A w]
                      else if strict_eq_str tab "monthly" then [monthly_call_A w]
                      else []) ∧
     (∀ f, f ≠ "activeTab"%string → f ≠ "employeeList"%string →
           f ≠ "monthlySummary"%string → field f w' = field f w)).
Proof.
  split; intros server w.
  - apply setActiveTab_B_effect.
  - apply setActiveTab_A_effect.
Qed.

(** X8. [toggleLeaveList] flips [showLeaveList] and touches nothing else:
    no call, no other field.  Toggling twice gives back the flag it started
    from (as a boolean), and a tab switch after a toggle closes the list. *)
Theorem toggleLeaveList_flips (w : world VariantB.handler) :
  ∃ w1 w2,
    VariantB.toggleLeaveList w = Done w1 (Normal tt) ∧
    VariantB.toggleLeaveList w1 = Done w2 (Normal tt) ∧
    field "showLeaveList" w1 = Bool (negb (truthy (field "showLeaveList" w))) ∧
    field "showLeaveList" w2 = Bool (truthy (field "showLeaveList" w)) ∧
    trace w1 = trace w ∧ trace w2 = trace w ∧
    (∀ f, f ≠ "showLeaveList"%string → field f w1 = field f w ∧ field f w2 = field f w) ∧
    (∀ tab server,
       field "showLeaveList" (complete server (VariantB.setActiveTab tab w1)).1 = Bool false).
Proof.
  unfold VariantB.toggleLeaveList. async_run. do 2 eexists.
  split; [reflexivity|]. split; [reflexivity|].
  split; [world_simpl; reflexivity|].
  split; [world_simpl; cbn; rewrite negb_involutive; reflexivity|].
  split; [reflexivity|]. split; [reflexivity|]. split.
  - intros f Hf. world_simpl. split; reflexivity.
  - intros tab server.
    match goal with
    | |- context [complete server (VariantB.setActiveTab tab ?w1)] =>
        pose proof (setActiveTab_B_effect tab server w1) as Heff;
        destruct (complete server (VariantB.setActiveTab tab w1)) as [w' r]
    end.
    apply Heff.
Qed.

(** ** The employee list (variant A) *)

(** X9. [onEmployeeFilterChange] stores the filter and issues one call,
    [get_employee_list] with the new filter and the current department and
    job; the reply becomes [employeeList]; if the call fails the list stays
    as it was and the handler still returns normally.  No other field is
    written and no dashboard call is made. *)
Theorem onEmployeeFilterChange_reloads_list (filter : value)
    (server : world VariantA.handler → rpc → reply) (w : world VariantA.handler) :
  let '(w', r) := complete server (VariantA.onEmployeeFilterChange filter w) in
  r = Normal tt ∧
  field "employeeFilter" w' = filter ∧
  calls_of w' =
    calls_of w ++ [Rpc "attendance.dashboard" "get_employee_list"
                     [filter; field "selectedDepartment" w; field "selectedJob" w]] ∧
  (∀ f, f ≠ "employeeFilter"%string → f ≠ "employeeList"%string →
        field f w' = field f w) ∧
  (∀ data, always_resolves server data → field "employeeList" w' = data) ∧
  (always_rejects server → field "employeeList" w' = field "employeeList" w).
Proof.
  unfold VariantA.onEmployeeFilterChange, VariantA.loadEmployeeList.
  async_run.
  match goal with
  | |- context [server ?w1 ?c] => destruct (server w1 c) eqn:Es
  end; async_run;
    (split; [reflexivity|]); (split; [world_simpl; reflexivity|]);
    (split; [world_simpl; reflexivity|]);
    (split; [intros f Hf1 Hf2; world_simpl; reflexivity|]); split.
  - intros d Hd. rewrite Hd in Es. injection Es as ->. world_simpl. reflexivity.
  - intros Hrej.
    match type of Es with
    | server ?w1 ?c = _ => destruct (Hrej w1 c) as [reason Hr]
    end.
    rewrite Hr in Es. discriminate Es.
  - intros d Hd. rewrite Hd in Es. discriminate Es.
  - intros _. world_simpl. reflexivity.
Qed.

(** ** What a dashboard reply becomes *)

Ltac resolved_with Hres :=
  match goal with
  | |- context [match ?server ?w ?c with Resolve _ => _ | Reject _ => _ end] =>
      rewrite (Hres w c)
  end.

(** X10. A dashboard reply that is an object is copied field by field, a
    missing key giving [undefined], except that variant B stores the empty
    list when [on_leave_employees] is missing or falsy.  [lastUpdate] takes
    the time of the clock, [loading] is cleared, and the filters, the tab
    and (in variant B) [monthlySummary] are not written. *)
Theorem loadDashboardData_copies_payload (fields : list (string * value)) :
  (∀ (server : world VariantB.handler → rpc → reply) w,
     always_resolves server (Obj fields) →
     let '(w', r) := complete server (VariantB.loadDashboardData w) in
     r = Normal tt ∧
     field "todayStats" w' = assoc "today_stats" fields ∧
     field "absentEmployees" w' = assoc "absent_employees" fields ∧
     field "onLeaveEmployees" w' =
       (if truthy (assoc "on_leave_employees" fields)
        then assoc "on_leave_employees" fields else Arr []) ∧
     field "departments" w' = assoc "departments" fields ∧
     field "lastUpdate" w' = Str (toLocaleTimeString (clock w)) ∧
     field "loading" w' = Bool false ∧
     field "monthlySummary" w' = field "monthlySummary" w ∧
     (∀ f, In f filter_fields → field f w' = field f w)) ∧
  (∀ (server : world VariantA.handler → rpc → reply) w,
     always_resolves server (Obj fields) →
     let '(w', r) := complete server (VariantA.loadDashboardData w) in
     r = Normal tt ∧
     field "todayStats" w' = assoc "today_stats" fields ∧
     field "recentCheckins" w' = assoc "recent_checkins" fields ∧
     field "monthlySummary" w' = assoc "monthly_summary" fields ∧
     field "departments" w' = assoc "departments" fields ∧
     field "jobs" w' = assoc "jobs" fields ∧
     field "lastUpdate" w' = Str (toLocaleTimeString (clock w)) ∧
     field "loading" w' = Bool false ∧
     field "employeeList" w' = field "employeeList" w ∧
     (∀ f, In f filter_fields → field f w' = field f w)).
Proof.
  split; intros server w Hres.
  - unfold VariantB.loadDashboardData. async_run. resolved_with Hres. async_run.
    repeat (split; [first [reflexivity | world_simpl; reflexivity]|]).
    intros f Hin. in_fields; world_simpl; reflexivity.
  - unfold VariantA.loadDashboardData. async_run. resolved_with Hres. async_run.
    repeat (split; [first [reflexivity | world_simpl; reflexivity]|]).
    intros f Hin. in_fields; world_simpl; reflexivity.
Qed.

Lemma loadDashboardData_copies_payload_witness :
  field "onLeaveEmployees"
    (complete (answering (Obj [("today_stats", Obj [("present", Num (Int 4))])]%string))
       (VariantB.loadDashboardData (sys_world (boot VariantB.AttendanceDashboard a_date)))).1
  = Arr [] ∧
  field "absentEmployees"
    (complete (answering (Obj [("today_stats", Obj [("present", Num (Int 4))])]%string))
       (VariantB.loadDashboardData (sys_world (boot VariantB.AttendanceDashboard a_date)))).1
  = Undefined.
Proof.
  pose proof (proj1 (loadDashboardData_copies_payload
                       [("today_stats", Obj [("present", Num (Int 4))])]%string)
                (answering (Obj [("today_stats", Obj [("present", Num (Int 4))])]%string))
                (sys_world (boot VariantB.AttendanceDashboard a_date))
                (λ _ _, eq_refl)) as Hcopy.
  destruct (complete _ _) as [w' r].
  destruct Hcopy as (_ & _ & Habsent & Hleave & _).
  split; [exact Hleave | exact Habsent].
Defined.

Ltac null_reply Hres :=
  async_run; resolved_with Hres; async_run;
  (split; [reflexivity|]); (split; [world_simpl; reflexivity|]);
  (split; [intros f Hf; world_simpl; reflexivity|]);
  cbn [trace log with_state]; rewrite <- app_assoc; eexists; reflexivity.

(** X11. A dashboard reply of [null] or [undefined] is taken as a failure:
    reading its first field throws, the error is caught and logged, nothing
    but [loading] is written, and the load returns normally, in both
    variants. *)
Theorem null_reply_is_a_failure (data : value) :
  data = Null ∨ data = Undefined →
  (∀ (server : world VariantB.handler → rpc → reply) w,
     always_resolves server data →
     let '(w', r) := complete server (VariantB.loadDashboardData w) in
     r = Normal tt ∧ field "loading" w' = Bool false ∧
     (∀ f, f ≠ "loading"%string → field f w' = field f w) ∧
     ∃ msg, trace w' =
       trace w ++ [OrmCall (dashboard_call_B w);
                   ConsoleError "Dashboard ma'lumotlarini yuklashda xato:" (TypeError msg)]) ∧
  (∀ (server : world VariantA.handler → rpc → reply) w,
     always_resolves server data →
     let '(w', r) := complete server (VariantA.loadDashboardData w) in
     r = Normal tt ∧ field "loading" w' = Bool false ∧
     (∀ f, f ≠ "loading"%string → field f w' = field f w) ∧
     ∃ msg, trace w' =
       trace w ++ [OrmCall (dashboard_call_A w);
                   ConsoleError "Dashboard ma'lumotlarini yuklashda xato:" (TypeError msg)]).
Proof.
  intros Hdata. split; intros server w Hres.
  - unfold VariantB.loadDashboardData, dashboard_call_B.
    destruct Hdata as [-> | ->]; null_reply Hres.
  - unfold VariantA.loadDashboardData, dashboard_call_A.
    destruct Hdata as [-> | ->]; null_reply Hres.
Qed.

Lemma null_reply_is_a_failure_witness :
  (Null = Null ∨ Null = Undefined) ∧
  always_resolves (@answering VariantB.handler Null) Null ∧
  field "loading"
    (complete (answering Null)
       (VariantB.loadDashboardData (sys_world (boot VariantB.AttendanceDashboard a_date)))).1
  = Bool false.
Proof.
  split; [left; reflexivity|]. split; [intros w c; reflexivity|].
  pose proof (proj1 (null_reply_is_a_failure Null (or_introl eq_refl))
                (answering Null) (sys_world (boot VariantB.AttendanceDashboard a_date))
                (λ _ _, eq_refl)) as Hnull.
  destruct (complete _ _) as [w' r].
  exact (proj1 (proj2 Hnull)).
Defined.

(** ** Variant A under failure, and its refresh against the month selector *)

(** X12. When the server rejects its calls, the fetch operations of variant
    A return normally: [loadDashboardData] changes nothing but [loading],
    which it clears; [loadEmployeeList] and [loadMonthlySummary] change
    nothing; [refreshData] changes nothing but [loading] and [refreshing],
    both cleared at its end. *)
Theorem remote_failure_is_contained_A
    (server : world VariantA.handler → rpc → reply) (w : world VariantA.handler) :
  always_rejects server → failure_contained_A server w.
Proof.
  intros Hrej. unfold failure_contained_A. split; [|split; [|split]].
  - unfold VariantA.loadDashboardData. async_run. rejected Hrej. async_run.
    split; [reflexivity|]. split; [world_simpl; reflexivity|].
    intros f Hf. world_simpl. reflexivity.
  - unfold VariantA.loadEmployeeList. async_run. rejected Hrej. async_run.
    split; [reflexivity|]. intros f. world_simpl. reflexivity.
  - unfold VariantA.loadMonthlySummary. async_run. rejected Hrej. async_run.
    split; [reflexivity|]. intros f. world_simpl. reflexivity.
  - unfold VariantA.refreshData, VariantA.loadDashboardData.
    async_run. rejected Hrej. async_run.
    split; [reflexivity|]. split; [world_simpl; reflexivity|].
    split; [world_simpl; reflexivity|].
    intros f Hf1 Hf2. world_simpl. reflexivity.
Qed.

Lemma remote_failure_is_contained_A_witness :
  always_rejects (@unreachable_server VariantA.handler) ∧
  failure_contained_A unreachable_server
    (sys_world (boot VariantA.AttendanceDashboard a_date)).
Proof.
  assert (Hrej : always_rejects (@unreachable_server VariantA.handler))
    by (intros w c; eexists; reflexivity).
  split; [exact Hrej|].
  exact (remote_failure_is_contained_A unreachable_server
           (sys_world (boot VariantA.AttendanceDashboard a_date)) Hrej).
Defined.

Ltac answered_by Hans :=
  match goal with
  | |- context [match ?server ?w ?c with Resolve _ => _ | Reject _ => _ end] =>
      rewrite (Hans w c eq_refl)
  end.

(** X13. The user navigates to a month, whose summary is stored; later a
    background refresh runs, when the server has fresh data.  In variant A
    the refresh replaces the stored summary by the [monthly_summary] of the
    dashboard payload, fetched with department and job only, while
    [selectedMonth] keeps the chosen month.  In variant B the refresh
    reloads the summary on the monthly tab only, with the chosen month and
    the selected year, and stores the fresh reply; on any other tab the
    stored summary stays. *)
Theorem refresh_against_month_navigation (raw : string) (stored fresh : value)
    (fields : list (string * value)) :
  (∀ (server1 server2 : world VariantA.handler → rpc → reply) w,
     answers server1 "get_monthly_work_summary" stored →
     answers server2 "get_all_dashboard_data" (Obj fields) →
     let w1 := (complete server1 (VariantA.onMonthChange raw w)).1 in
     let w2 := (complete server2 (VariantA.refreshData w1)).1 in
     field "monthlySummary" w1 = stored ∧
     field "monthlySummary" w2 = assoc "monthly_summary" fields ∧
     field "selectedMonth" w2 = Num (parseInt raw) ∧
     calls_of w2 =
       calls_of w1 ++ [Rpc "attendance.dashboard" "get_all_dashboard_data"
                         [field "selectedDepartment" w; field "selectedJob" w]]) ∧
  (∀ (server1 server2 : world VariantB.handler → rpc → reply) w,
     answers server1 "get_monthly_work_summary" stored →
     answers server2 "get_monthly_work_summary" fresh →
     let w1 := (complete server1 (VariantB.onMonthChange raw w)).1 in
     let w2 := (complete server2 (VariantB.refreshData w1)).1 in
     field "monthlySummary" w1 = stored ∧
     field "selectedMonth" w2 = Num (parseInt raw) ∧
     if strict_eq_str (field "activeTab" w) "monthly"
     then field "monthlySummary" w2 = fresh ∧
          calls_of w2 =
            calls_of w1 ++
            [Rpc "attendance.dashboard" "get_all_dashboard_data"
               [field "selectedDepartment" w];
             Rpc "attendance.dashboard" "get_monthly_work_summary"
               [field "selectedDepartment" w; Num (parseInt raw);
                field "selectedYear" w]]
     else field "monthlySummary" w2 = stored ∧
          calls_of w2 =
            calls_of w1 ++
            [Rpc "attendance.dashboard" "get_all_dashboard_data"
               [field "selectedDepartment" w]]).
Proof.
  split; intros server1 server2 w Hstored Hlater; cbn zeta.
  - unfold VariantA.onMonthChange, VariantA.loadMonthlySummary.
    async_run. answered_by Hstored. async_run. cbn [fst].
    unfold VariantA.refreshData, VariantA.loadDashboardData.
    async_run. answered_by Hlater. async_run. cbn [fst].
    world_simpl. repeat split; reflexivity.
  - assert (Hnav :
      field "monthlySummary" (complete server1 (VariantB.onMonthChange raw w)).1 = stored ∧
      field "selectedMonth" (complete server1 (VariantB.onMonthChange raw w)).1
        = Num (parseInt raw) ∧
      calls_of (complete server1 (VariantB.onMonthChange raw w)).1
        = calls_of w ++ [Rpc "attendance.dashboard" "get_monthly_work_summary"
                           [field "selectedDepartment" w; Num (parseInt raw);
                            field "selectedYear" w]] ∧
      ∀ f, f ≠ "selectedMonth"%string → f ≠ "monthlySummary"%string →
           field f (complete server1 (VariantB.onMonthChange raw w)).1 = field f w).
    { unfold VariantB.onMonthChange, VariantB.loadMonthlySummary.
      async_run. answered_by Hstored. async_run. cbn [fst].
      world_simpl. repeat split; try reflexivity.
      intros f Hf1 Hf2. world_simpl. reflexivity. }
    destruct Hnav as (Hsummary & Hmonth & _ & Hframe).
    set (w1 := (complete server1 (VariantB.onMonthChange raw w)).1) in *.
    pose proof (refreshData_B_summary server2 w1) as [Hother Hmonthly].
    pose proof (refreshData_B_calls server2 w1) as Hcalls.
    unfold dashboard_call_B, monthly_call_B, monthly_args_B in Hcalls.
    rewrite Hmonth in Hcalls.
    rewrite (Hframe "activeTab"%string), (Hframe "selectedDepartment"%string),
      (Hframe "selectedYear"%string) in Hcalls by discriminate.
    rewrite (Hframe "activeTab"%string) in Hother, Hmonthly by discriminate.
    split; [exact Hsummary|].
    split; [rewrite refreshData_B_keeps by (cbn; tauto); exact Hmonth|].
    destruct (strict_eq_str (field "activeTab" w) "monthly").
    + split; [exact (proj1 (Hmonthly eq_refl) fresh Hlater) | exact Hcalls].
    + split; [rewrite (Hother eq_refl); exact Hsummary | exact Hcalls].
Qed.

Lemma refresh_against_month_navigation_witness :
  answers (@answering VariantB.handler (Str "march")) "get_monthly_work_summary"
          (Str "march") ∧
  answers (@answering VariantB.handler (Str "march, later")) "get_monthly_work_summary"
          (Str "march, later") ∧
  field "monthlySummary"
    (complete (answering (Str "march, later"))
       (VariantB.refreshData
          (complete (answering (Str "march"))
             (VariantB.onMonthChange "3" on_monthly_tab)).1)).1
  = Str "march, later".
Proof.
  assert (H1 : answers (@answering VariantB.handler (Str "march"))
                 "get_monthly_work_summary" (Str "march")) by (intros w c _; reflexivity).
  assert (H2 : answers (@answering VariantB.handler (Str "march, later"))
                 "get_monthly_work_summary" (Str "march, later"))
    by (intros w c _; reflexivity).
  split; [exact H1|]. split; [exact H2|].
  destruct (proj2 (refresh_against_month_navigation "3" (Str "march")
                     (Str "march, later") [])
              _ _ on_monthly_tab H1 H2) as (_ & _ & Hrefresh).
  exact (proj1 Hrefresh).
Defined.

(** ** The days of the month (variant B) *)






(** ** When [getInitials] throws *)

Lemma split_head_empty (sep : ascii) (s : string) (rest : list string) :
  split sep s = ""%string :: rest →
  (s = ""%string ∧ rest = []) ∨ (∃ r, s = String sep r ∧ split sep r = rest).
Proof.
  destruct s as [|c r]; cbn [split].
  - intros E. injection E as <-. left. auto.
  - destruct (Ascii.eqb c sep) eqn:Ec.
    + apply Ascii.eqb_eq in Ec. subst c. intros E. injection E as <-. right. eauto.
    + destruct (split sep r); intros E; discriminate E.
Qed.

(** X15. [getInitials] throws exactly for the name made of one space and for
    the names that begin with two spaces; for every other name it returns a
    string. *)
Theorem getInitials_throws_iff (name : string) :
  (∃ e, getInitials name = Throw e) ↔
  (name = " "%string ∨ ∃ rest, name = String " " (String " " rest)).
Proof.
  split.
  - intros [e He].
    destruct name as [|c r]; [discriminate He|].
    assert (Hne : String c r ≠ ""%string) by discriminate.
    destruct (split " " (String c r)) as [|p0 [|p1 parts]] eqn:Hsplit.
    + exfalso. exact (split_not_nil _ _ Hsplit).
    + rewrite (getInitials_one_part _ _ Hne Hsplit) in He. discriminate He.
    + rewrite (getInitials_two_parts _ _ _ _ Hne Hsplit) in He.
      destruct p0 as [|c0 r0], p1 as [|c1 r1]; cbn in He; try discriminate He.
      apply split_head_empty in Hsplit as [[Hs _] | (r' & Hs & Hsplit')];
        [discriminate Hs|].
      injection Hs as -> ->.
      apply split_head_empty in Hsplit' as [[-> _] | (r2 & -> & _)].
      * left. reflexivity.
      * right. eexists. reflexivity.
  - intros [-> | [rest ->]].
    + eexists. reflexivity.
    + unfold getInitials. cbn [truthy String.eqb negb split Ascii.eqb].
      change (Ascii.eqb " " " ") with true. cbv iota.
      eexists. reflexivity.
Qed.

(** ** Status of an employee (variant A) *)

Ltac status_cases emp :=
  unfold VariantA.getStatusClass, VariantA.getStatusText;
  destruct emp as [| |b|n|s|items|fields]; cbn [get_prop bind_result truthy negb];
  repeat match goal with
         | |- context [truthy ?v] => destruct (truthy v)
         end;
  cbn [negb].

(** X16. The class and the text of an employee agree on absence: the class
    is ['absent'] exactly when the text is the one for "not arrived".  The
    texts for "late" and "on time" imply the classes ['late'] and
    ['on-time'], but an employee at work gets the text for "at work"
    whatever the class, so a late employee still at work reads "at work".
    Both helpers throw exactly when the record is [null] or [undefined]. *)
Theorem status_class_and_text (emp : value) :
  (VariantA.getStatusClass emp = Normal "absent"%string ↔
   VariantA.getStatusText emp = Normal "❌ Kelmagan"%string) ∧
  (VariantA.getStatusText emp = Normal "⚠️ Kechikdi"%string →
   VariantA.getStatusClass emp = Normal "late"%string) ∧
  (VariantA.getStatusText emp = Normal "✅ O'z vaqtida"%string →
   VariantA.getStatusClass emp = Normal "on-time"%string) ∧
  (VariantA.getStatusText emp = Normal "🟢 Ishda"%string →
   VariantA.getStatusClass emp = Normal "late"%string ∨
   VariantA.getStatusClass emp = Normal "on-time"%string) ∧
  ((∃ e, VariantA.getStatusClass emp = Throw e) ↔ emp = Null ∨ emp = Undefined) ∧
  ((∃ e, VariantA.getStatusText emp = Throw e) ↔ emp = Null ∨ emp = Undefined) ∧
  (∀ check_in is_working is_late,
     truthy check_in = true → truthy is_working = true → truthy is_late = true →
     VariantA.getStatusClass (employee check_in is_working is_late) = Normal "late"%string ∧
     VariantA.getStatusText (employee check_in is_working is_late) = Normal "🟢 Ishda"%string).
Proof.
  split; [|split; [|split; [|split; [|split; [|split]]]]].
  - status_cases emp; split; intros E; first [reflexivity | discriminate E].
  - status_cases emp; intros E; first [reflexivity | discriminate E].
  - status_cases emp; intros E; first [reflexivity | discriminate E].
  - status_cases emp; intros E; first [discriminate E | left; reflexivity | right; reflexivity].
  - status_cases emp; split;
      first [ intros [e E]; discriminate E
            | intros [E | E]; discriminate E
            | intros _; eexists; reflexivity
            | intros _; auto ].
  - status_cases emp; split;
      first [ intros [e E]; discriminate E
            | intros [E | E]; discriminate E
            | intros _; eexists; reflexivity
            | intros _; auto ].
  - intros check_in is_working is_late Hc Hw Hl.
    unfold VariantA.getStatusClass, VariantA.getStatusText, employee.
    cbn [get_prop bind_result assoc String.eqb Ascii.eqb Bool.eqb].
    rewrite Hc, Hw, Hl. split; reflexivity.
Qed.

Lemma status_class_and_text_witness :
  VariantA.getStatusClass (employee (Str "08:47") (Bool true) (Bool true))
    = Normal "late"%string ∧
  VariantA.getStatusText (employee (Str "08:47") (Bool true) (Bool true))
    = Normal "🟢 Ishda"%string.
Proof.
  exact (proj2 (proj2 (proj2 (proj2 (proj2 (proj2
           (status_class_and_text Null))))))
           (Str "08:47") (Bool true) (Bool true) eq_refl eq_refl eq_refl).
Defined.

(** ** The patched [setup] of the form view *)

(** X17. The patched [setup] runs the original [setup] and then, for the
    model [hr.daily.report] only, sets [disableActionMenu] in the config of
    the environment, leaving the other keys alone; for any other model it
    adds nothing.  The flag is set exactly for the model whose action menu
    the patched getter empties. *)
Theorem setup_flags_the_report_form
    (super_setup : FormControllerPatch.controller → FormControllerPatch.controller)
    (this : FormControllerPatch.controller) (super_items : value) :
  let before := super_setup this in
  let after := FormControllerPatch.setup super_setup this in
  FormControllerPatch.resModel after = FormControllerPatch.resModel before ∧
  (∀ key, key ≠ "disableActionMenu"%string →
     FormControllerPatch.config after !! key = FormControllerPatch.config before !! key) ∧
  ((FormControllerPatch.resModel before = Str "hr.daily.report" ∧
    FormControllerPatch.config after !! "disableActionMenu"%string = Some (Bool true) ∧
    FormControllerPatch.actionMenuItems super_items (FormControllerPatch.resModel after)
      = Obj []) ∨
   (FormControllerPatch.resModel before ≠ Str "hr.daily.report" ∧
    after = before ∧
    FormControllerPatch.actionMenuItems super_items (FormControllerPatch.resModel after)
      = super_items)).
Proof.
  cbn zeta. unfold FormControllerPatch.setup, FormControllerPatch.actionMenuItems.
  destruct (super_setup this) as [model cfg]. cbn [FormControllerPatch.resModel].
  destruct (strict_eq_str model "hr.daily.report") eqn:E;
    cbn [FormControllerPatch.resModel FormControllerPatch.config].
  - rewrite E. split; [reflexivity|]. split.
    + intros key Hkey. by rewrite lookup_insert_ne.
    + left. split; [|split; [apply lookup_insert_eq | reflexivity]].
      destruct model; try discriminate E. cbn in E.
      apply String.eqb_eq in E. by subst.
  - rewrite E. split; [reflexivity|]. split; [reflexivity|].
    right. split; [|split; reflexivity].
    intros ->. discriminate E.
Qed.

(** ** What no run of the component ever does *)

Section Orderly.

Context {H : Type} (comp : component H) (methods : list string) (callback : H).

Hypothesis handlers_tidy :
  ∀ h w, tidy (orderly methods) w (handle comp h w).
Hypothesis start_tidy :
  ∀ w, tidy (orderly methods) w (run_all (onWillStart (setup comp)) w).
Hypothesis mount_registers :
  ∀ w, ∃ w1,
    run_all (onMounted (setup comp)) w = Done w1 (Normal tt) ∧
    trace w1 = trace w ∧
    intervals w1 = intervals w ++ [(S (length (intervals w)), callback, 60000)] ∧
    refreshInterval w1 = Num (Int (Z.of_nat (S (length (intervals w))))).
Hypothesis unmount_idle :
  ∀ w, run_all (onWillUnmount (setup comp)) w = Done w (Normal tt).
Hypothesis boots_clean :
  ∀ d, orderly_system methods callback (boot comp d).

Lemma settle_orderly o m (sys : system H) :
  orderly_system methods callback sys →
  tidy (orderly methods) (sys_world sys) m →
  orderly_system methods callback (settle o m sys).
Proof.
  intros (Htr & Hall & Hph) Ht.
  inversion Ht as [w0 w a (Hexp & Hiv & Hri) | w0 w c k (Hexp & Hiv & Hri) Hk]; subst;
    unfold orderly_system; cbn [settle sys_world inflight sys_phase];
    rewrite Hiv, Hri; (split; [auto|]); (split; [|exact Hph]).
  - exact Hall.
  - apply Forall_app. split; [exact Hall|]. apply Forall_singleton. exact Hk.
Qed.

Lemma step_orderly ev (sys sys' : system H) :
  orderly_system methods callback sys →
  step comp ev sys = Some sys' →
  orderly_system methods callback sys'.
Proof.
  intros Hord Hstep. destruct sys as [w fl ph n].
  destruct ev as [| |i r|i|h| |d]; unfold step in Hstep;
    cbn [sys_phase sys_world inflight delivered] in Hstep.
  - destruct ph; try discriminate Hstep. apply (inj Some) in Hstep; subst sys'.
    apply settle_orderly; [exact Hord | apply start_tidy].
  - destruct ph; try discriminate Hstep. destruct fl; [|discriminate Hstep].
    apply (inj Some) in Hstep; subst sys'.
    destruct Hord as (Htr & Hall & Hiv & Hri).
    cbn [sys_phase sys_world inflight] in *.
    destruct (mount_registers w) as (w1 & E & Htr1 & Hiv1 & Hri1).
    unfold start, enter. cbn [sys_world]. rewrite E.
    unfold orderly_system. cbn [settle sys_world inflight sys_phase].
    rewrite Htr1, Hiv1, Hri1, Hiv. auto.
  - destruct (fl !! i) as [p|] eqn:Hp; [|discriminate Hstep].
    apply (inj Some) in Hstep; subst sys'.
    destruct Hord as (Htr & Hall & Hph). cbn [sys_phase sys_world inflight] in *.
    apply settle_orderly.
    + unfold orderly_system. cbn [sys_world inflight sys_phase].
      split; [exact Htr|]. split; [by apply Forall_delete | exact Hph].
    + exact (proj1 (Forall_lookup _ _) Hall _ _ Hp r w).
  - destruct (intervals w !! i) as [[[id cb] ms]|] eqn:Hi; [|discriminate Hstep].
    apply (inj Some) in Hstep; subst sys'.
    apply settle_orderly; [exact Hord | apply handlers_tidy].
  - destruct ph; try discriminate Hstep. apply (inj Some) in Hstep; subst sys'.
    apply settle_orderly; [exact Hord | apply handlers_tidy].
  - destruct ph; try discriminate Hstep. apply (inj Some) in Hstep; subst sys'.
    unfold start, enter. cbn [sys_world]. rewrite unmount_idle.
    exact Hord.
  - apply (inj Some) in Hstep; subst sys'. exact Hord.
Qed.

Lemma reachable_orderly (sys : system H) :
  reachable comp sys → orderly_system methods callback sys.
Proof.
  intros (d & evs & Hrun). pose proof (boots_clean d) as Hboot.
  revert Hrun Hboot. generalize (boot comp d). induction evs as [|ev evs IH];
    intros sys0 Hrun Hord; cbn [run] in Hrun.
  - apply (inj Some) in Hrun. by subst.
  - destruct (step comp ev sys0) as [sys1|] eqn:Hstep; [|discriminate Hrun].
    eapply IH; [exact Hrun|]. eapply step_orderly; eassumption.
Qed.

End Orderly.

Ltac orderly_tac :=
  unfold orderly; cbn [trace intervals refreshInterval with_state log];
  (split; [|split; reflexivity]);
  let Hexp := fresh "Hexp" in
  intros Hexp; rewrite ?forallb_app, ?Hexp; reflexivity.

Ltac tidy_tac :=
  async_run;
  lazymatch goal with
  | |- tidy _ _ (Done _ (Normal _)) => apply tidy_done; orderly_tac
  | |- tidy _ _ (Await _ _ _) =>
      apply tidy_await;
      [ orderly_tac
      | let r := fresh "r" in let w' := fresh "w'" in
        intros r w'; destruct r as [[]|]; tidy_tac ]
  | |- context [if strict_eq_str ?v ?s then _ else _] =>
      destruct (strict_eq_str v s); tidy_tac
  end.

Lemma handlers_tidy_B h (w : world VariantB.handler) :
  tidy (orderly methods_B) w (VariantB.handle h w).
Proof.
  destruct h; cbn [VariantB.handle];
    unfold VariantB.refreshData, VariantB.onDepartmentChange, VariantB.clearFilters,
      VariantB.setActiveTab, VariantB.toggleLeaveList, VariantB.onMonthChange,
      VariantB.onYearChange, VariantB.exportToExcel, VariantB.refreshData,
      VariantB.loadDashboardData, VariantB.loadMonthlySummary.
  all: tidy_tac.
Qed.

Lemma handlers_tidy_A h (w : world VariantA.handler) :
  tidy (orderly methods_A) w (VariantA.handle h w).
Proof.
  destruct h; cbn [VariantA.handle];
    unfold VariantA.refreshData, VariantA.onDepartmentChange, VariantA.onJobChange,
      VariantA.clearFilters, VariantA.setActiveTab, VariantA.onEmployeeFilterChange,
      VariantA.onMonthChange, VariantA.onYearChange, VariantA.exportToExcel,
      VariantA.refreshData, VariantA.loadDashboardData, VariantA.loadMonthlySummary,
      VariantA.loadEmployeeList.
  all: tidy_tac.
Qed.

Lemma reachable_orderly_B (sys : system VariantB.handler) :
  reachable VariantB.AttendanceDashboard sys →
  orderly_system methods_B VariantB.RefreshData sys.
Proof.
  apply reachable_orderly.
  - exact handlers_tidy_B.
  - intros w. unfold run_all.
    cbn [foldr onWillStart setup VariantB.AttendanceDashboard VariantB.setup].
    unfold VariantB.loadDashboardData. tidy_tac.
  - intros w. unfold run_all.
    cbn [foldr onMounted setup VariantB.AttendanceDashboard VariantB.setup].
    async_run. eexists. repeat split; reflexivity.
  - intros w. reflexivity.
  - intros d. unfold orderly_system, boot. cbn. repeat split; constructor.
Qed.

Lemma reachable_orderly_A (sys : system VariantA.handler) :
  reachable VariantA.AttendanceDashboard sys →
  orderly_system methods_A VariantA.RefreshData sys.
Proof.
  apply reachable_orderly.
  - exact handlers_tidy_A.
  - intros w. unfold run_all.
    cbn [foldr onWillStart setup VariantA.AttendanceDashboard VariantA.setup].
    unfold VariantA.loadDashboardData. tidy_tac.
  - intros w. unfold run_all.
    cbn [foldr onMounted setup VariantA.AttendanceDashboard VariantA.setup].
    async_run. eexists. repeat split; reflexivity.
  - intros w. reflexivity.
  - intros d. unfold orderly_system, boot. cbn. repeat split; constructor.
Qed.

Lemma expected_no_uncaught {H : Type} methods (w : world H) :
  forallb (expected_effect methods) (trace w) = true → uncaught w = [].
Proof.
  unfold uncaught. induction (trace w) as [|e es IH]; [reflexivity|].
  cbn [forallb flat_map]. intros Hall. apply andb_prop in Hall as [He Hes].
  rewrite (IH Hes). destruct e; try reflexivity. discriminate He.
Qed.

Lemma expected_calls {H : Type} methods (w : world H) :
  forallb (expected_effect methods) (trace w) = true →
  Forall (expected_call methods) (calls_of w).
Proof.
  unfold calls_of. induction (trace w) as [|e es IH]; [constructor|].
  cbn [forallb flat_map]. intros Hall. apply andb_prop in Hall as [He Hes].
  specialize (IH Hes). destruct e; try exact IH.
  cbn [app]. constructor; [|exact IH].
  cbn [expected_effect] in He. apply andb_prop in He as [Hmodel Hmethod].
  split.
  - by apply String.eqb_eq.
  - apply existsb_exists in Hmethod as (m & Hin & Hm).
    apply String.eqb_eq in Hm. by rewrite Hm.
Qed.

Lemma expected_windows {H : Type} methods (w : world H) url target :
  forallb (expected_effect methods) (trace w) = true →
  In (WindowOpen url target) (trace w) →
  starts_with "/attendance_dashboard/export_monthly_excel?" url = true ∧
  target = "_blank"%string.
Proof.
  intros Hall Hin. rewrite forallb_forall in Hall. specialize (Hall _ Hin).
  cbn [expected_effect] in Hall. apply andb_prop in Hall as [Hurl Htarget].
  split; [exact Hurl | by apply String.eqb_eq].
Qed.

Lemma tidy_weaken {H A : Type} (S1 S2 : world H → world H → Prop)
    (w : world H) (m : susp H A) :
  (∀ a b, S1 a b → S2 a b) → tidy S1 w m → tidy S2 w m.
Proof.
  intros HS Ht. induction Ht as [w0 w a Hs | w0 w c k Hs Hk IH].
  - apply tidy_done; auto.
  - apply tidy_await; auto.
Qed.

(** X18. No job of the component ever ends in an uncaught exception,
    whatever the server replies and however the jobs interleave: in every
    reachable system, of either variant, nothing was left uncaught and every
    call in flight resumes into a job that finishes normally. *)
Theorem no_uncaught_exception :
  (∀ sys, reachable VariantB.AttendanceDashboard sys →
     uncaught (sys_world sys) = [] ∧
     Forall (λ p, ∀ r w', tidy (λ _ _, True) w' (p_resume p r w')) (inflight sys)) ∧
  (∀ sys, reachable VariantA.AttendanceDashboard sys →
     uncaught (sys_world sys) = [] ∧
     Forall (λ p, ∀ r w', tidy (λ _ _, True) w' (p_resume p r w')) (inflight sys)).
Proof.
  split; intros sys Hreach.
  - destruct (reachable_orderly_B sys Hreach) as (Htrace & Hall & _).
    split; [exact (expected_no_uncaught _ _ Htrace)|].
    eapply Forall_impl; [exact Hall|]. intros p Hp r w'.
    eapply tidy_weaken; [|exact (Hp r w')]. auto.
  - destruct (reachable_orderly_A sys Hreach) as (Htrace & Hall & _).
    split; [exact (expected_no_uncaught _ _ Htrace)|].
    eapply Forall_impl; [exact Hall|]. intros p Hp r w'.
    eapply tidy_weaken; [|exact (Hp r w')]. auto.
Qed.

(** X19. Every remote call the component ever issues goes to the model
    [attendance.dashboard] and to one of its own methods (two in variant B,
    three in variant A), and every window it opens is the export path, in a
    new tab. *)
Theorem only_own_calls_and_export_link :
  (∀ sys, reachable VariantB.AttendanceDashboard sys →
     Forall (expected_call methods_B) (calls_of (sys_world sys)) ∧
     ∀ url target, In (WindowOpen url target) (trace (sys_world sys)) →
       starts_with "/attendance_dashboard/export_monthly_excel?" url = true ∧
       target = "_blank"%string) ∧
  (∀ sys, reachable VariantA.AttendanceDashboard sys →
     Forall (expected_call methods_A) (calls_of (sys_world sys)) ∧
     ∀ url target, In (WindowOpen url target) (trace (sys_world sys)) →
       starts_with "/attendance_dashboard/export_monthly_excel?" url = true ∧
       target = "_blank"%string).
Proof.
  split; intros sys Hreach.
  - destruct (reachable_orderly_B sys Hreach) as (Htrace & _).
    split; [exact (expected_calls _ _ Htrace)|].
    intros url target. exact (expected_windows _ _ _ _ Htrace).
  - destruct (reachable_orderly_A sys Hreach) as (Htrace & _).
    split; [exact (expected_calls _ _ Htrace)|].
    intros url target. exact (expected_windows _ _ _ _ Htrace).
Qed.

(** X20. The component registers one interval and no more: none before it
    is mounted, and from then on -- also once destroyed -- exactly the one of
    60000 ms that calls [refreshData], whose identifier
    [this.refreshInterval] holds.  No handler registers a second one. *)
Theorem one_interval_from_mount_on :
  (∀ sys, reachable VariantB.AttendanceDashboard sys →
     match sys_phase sys with
     | Created | Starting =>
         intervals (sys_world sys) = [] ∧ refreshInterval (sys_world sys) = Undefined
     | Mounted | Destroyed =>
         intervals (sys_world sys) = [(1%nat, VariantB.RefreshData, 60000)] ∧
         refreshInterval (sys_world sys) = Num (Int 1)
     end) ∧
  (∀ sys, reachable VariantA.AttendanceDashboard sys →
     match sys_phase sys with
     | Created | Starting =>
         intervals (sys_world sys) = [] ∧ refreshInterval (sys_world sys) = Undefined
     | Mounted | Destroyed =>
         intervals (sys_world sys) = [(1%nat, VariantA.RefreshData, 60000)] ∧
         refreshInterval (sys_world sys) = Num (Int 1)
     end).
Proof.
  split; intros sys Hreach.
  - destruct (reachable_orderly_B sys Hreach) as (_ & _ & Hph). exact Hph.
  - destruct (reachable_orderly_A sys Hreach) as (_ & _ & Hph). exact Hph.
Qed.

(** ** Overlapping refreshes (variant B) *)

Lemma refreshData_B_starts (w : world VariantB.handler) :
  ∃ w1 c k,
    VariantB.refreshData w = Await w1 c k ∧
    (∀ f, f ≠ "refreshing"%string → field f w1 = field f w) ∧
    (∀ r w', strict_eq_str (field "activeTab" w') "monthly" = false →
       ∃ w'' res, k r w' = Done w'' res ∧ field "refreshing" w'' = Bool false).
Proof.
  unfold VariantB.refreshData, VariantB.loadDashboardData, VariantB.loadMonthlySummary.
  async_run. do 3 eexists. split; [reflexivity|]. split.
  - intros f Hf. world_simpl. reflexivity.
  - intros r w' Htab. destruct r as [[]|]; async_run;
      match goal with
      | |- context [strict_eq_str (field ?f ?W) ?s] =>
          assert (E : field f W = field f w') by (world_simpl; reflexivity);
          rewrite E, Htab; clear E
      end;
      async_run; do 2 eexists; (split; [reflexivity|]); world_simpl; reflexivity.
Qed.

(** X21. Two refreshes that overlap are not coordinated: when the first one
    finishes it clears [refreshing] although the second is still in flight.
    From any mounted system whose tab is not ['monthly'], start two
    refreshes and deliver the reply of the first: [refreshing] is [false]
    and a refresh is still waiting for its reply. *)
Theorem overlapping_refreshes_clear_early (sys : system VariantB.handler) (r : reply) :
  sys_phase sys = Mounted →
  strict_eq_str (field "activeTab" (sys_world sys)) "monthly" = false →
  ∃ sys',
    run VariantB.AttendanceDashboard
      [EvUser VariantB.RefreshData; EvUser VariantB.RefreshData;
       EvReply (length (inflight sys)) r] sys = Some sys' ∧
    field "refreshing" (sys_world sys') = Bool false ∧
    (∃ p, inflight sys' = inflight sys ++ [p] ∧ refresh_pending p).
Proof.
  intros Hph Htab. destruct sys as [w fl ph n]. cbn [sys_phase sys_world inflight] in *.
  subst ph. cbn [run step sys_phase].
  unfold start. cbn [sys_world handle VariantB.AttendanceDashboard VariantB.handle].
  destruct (refreshData_B_starts w) as (w1 & c1 & k1 & E1 & Hf1 & Hk1).
  rewrite E1. cbn [settle sys_world sys_phase inflight delivered].
  destruct (refreshData_B_starts w1) as (w2 & c2 & k2 & E2 & Hf2 & Hk2).
  rewrite E2. cbn [settle sys_world sys_phase inflight delivered].
  rewrite <- app_assoc. cbn [app].
  rewrite lookup_app_r by lia. rewrite Nat.sub_diag. cbn [lookup list_lookup p_resume p_origin].
  assert (Htab2 : strict_eq_str (field "activeTab" w2) "monthly" = false).
  { rewrite Hf2, Hf1 by discriminate. exact Htab. }
  destruct (Hk1 r w2 Htab2) as (w3 & res & E3 & Hr3).
  rewrite E3.
  assert (Hdel : delete (length fl)
                   (fl ++ [Pending (FromUser VariantB.RefreshData) c1 k1;
                           Pending (FromUser VariantB.RefreshData) c2 k2])
                 = fl ++ [Pending (FromUser VariantB.RefreshData) c2 k2]).
  { clear. induction fl as [|p fl IH]; [reflexivity|].
    change (p :: delete (length fl) (fl ++ [Pending (FromUser VariantB.RefreshData) c1 k1;
                                            Pending (FromUser VariantB.RefreshData) c2 k2])
            = p :: (fl ++ [Pending (FromUser VariantB.RefreshData) c2 k2])).
    f_equal. exact IH. }
  rewrite Hdel.
  destruct res as [[]|e]; cbn [settle sys_world inflight];
    eexists; (split; [reflexivity|]); (split; [exact Hr3 || (rewrite field_log; exact Hr3) |]);
    eexists; (split; [reflexivity | reflexivity]).
Qed.

Lemma overlapping_refreshes_clear_early_witness :
  sys_phase mounted_sample = Mounted ∧
  strict_eq_str (field "activeTab" (sys_world mounted_sample)) "monthly" = false ∧
  ∃ sys',
    run VariantB.AttendanceDashboard
      [EvUser VariantB.RefreshData; EvUser VariantB.RefreshData;
       EvReply (length (inflight mounted_sample)) (Reject (Str "timeout"))] mounted_sample
    = Some sys' ∧
    field "refreshing" (sys_world sys') = Bool false ∧
    (∃ p, inflight sys' = inflight mounted_sample ++ [p] ∧ refresh_pending p).
Proof.
  split; [reflexivity|]. split; [reflexivity|].
  exact (overlapping_refreshes_clear_early mounted_sample (Reject (Str "timeout"))
           eq_refl eq_refl).
Defined.

(** ** The export link of a fresh dashboard *)

(** X22. Right after [setup()], on any date of a real calendar (month index
    0 to 11, year other than 0), the export link carries the current month
    and year and no department or job: the query string is never empty on a
    fresh dashboard. *)
Theorem export_link_after_setup (d : date) :
  0 <= getMonth d <= 11 →
  getFullYear d ≠ 0 →
  query_B (sys_world (boot VariantB.AttendanceDashboard d))
    = "month=" +:+ Z_to_string (getMonth d + 1) +:+ "&year=" +:+ Z_to_string (getFullYear d) ∧
  query_A (sys_world (boot VariantA.AttendanceDashboard d))
    = "month=" +:+ Z_to_string (getMonth d + 1) +:+ "&year=" +:+ Z_to_string (getFullYear d).
Proof.
  intros Hmonth Hyear.
  assert (Hm : truthy (Num (Int (getMonth d + 1))) = true).
  { cbn. destruct (Z.eqb_spec (getMonth d + 1) 0); [lia | reflexivity]. }
  assert (Hy : truthy (Num (Int (getFullYear d))) = true).
  { cbn. destruct (Z.eqb_spec (getFullYear d) 0); [contradiction | reflexivity]. }
  unfold query_B, query_A, param.
  change (field "selectedDepartment" (sys_world (boot VariantB.AttendanceDashboard d)))
    with Null.
  change (field "selectedMonth" (sys_world (boot VariantB.AttendanceDashboard d)))
    with (Num (Int (getMonth d + 1))).
  change (field "selectedYear" (sys_world (boot VariantB.AttendanceDashboard d)))
    with (Num (Int (getFullYear d))).
  change (field "selectedDepartment" (sys_world (boot VariantA.AttendanceDashboard d)))
    with Null.
  change (field "selectedJob" (sys_world (boot VariantA.AttendanceDashboard d)))
    with Null.
  change (field "selectedMonth" (sys_world (boot VariantA.AttendanceDashboard d)))
    with (Num (Int (getMonth d + 1))).
  change (field "selectedYear" (sys_world (boot VariantA.AttendanceDashboard d)))
    with (Num (Int (getFullYear d))).
  rewrite Hm, Hy. split; reflexivity.
Qed.

Lemma export_link_after_setup_witness :
  0 <= getMonth a_date <= 11 ∧ getFullYear a_date ≠ 0 ∧
  query_B (sys_world (boot VariantB.AttendanceDashboard a_date))
    = "month=" +:+ Z_to_string (getMonth a_date + 1) +:+ "&year="
      +:+ Z_to_string (getFullYear a_date).
Proof.
  assert (Hmonth : 0 <= getMonth a_date <= 11) by (cbn; lia).
  assert (Hyear : getFullYear a_date ≠ 0) by discriminate.
  split; [exact Hmonth|]. split; [exact Hyear|].
  exact (proj1 (export_link_after_setup a_date Hmonth Hyear)).
Defined.

(** ** The interval keeps retrying *)

Lemma refreshData_B_first_call (w : world VariantB.handler) :
  ∃ w1 c k,
    VariantB.refreshData w = Await w1 c k ∧
    calls_of w1 = calls_of w ++ [dashboard_call_B w] ∧
    field "refreshing" w1 = Bool true.
Proof.
  unfold VariantB.refreshData, VariantB.loadDashboardData, dashboard_call_B. async_run.
  do 3 eexists. split; [reflexivity|]. world_simpl. split; reflexivity.
Qed.

Lemma refreshData_A_first_call (w : world VariantA.handler) :
  ∃ w1 c k,
    VariantA.refreshData w = Await w1 c k ∧
    calls_of w1 = calls_of w ++ [dashboard_call_A w] ∧
    field "refreshing" w1 = Bool true.
Proof.
  unfold VariantA.refreshData, VariantA.loadDashboardData, dashboard_call_A. async_run.
  do 3 eexists. split; [reflexivity|]. world_simpl. split; reflexivity.
Qed.

(** X23. Whatever happened before -- failed loads included -- and also once
    the component is destroyed, the interval can fire: it then starts one
    more refresh, which sets [refreshing] and issues the dashboard call with
    the filters of the moment.  This holds in every reachable system of
    either variant from mounting on. *)
Theorem interval_always_retries :
  (∀ sys, reachable VariantB.AttendanceDashboard sys →
     sys_phase sys = Mounted ∨ sys_phase sys = Destroyed →
     ∃ sys',
       step VariantB.AttendanceDashboard (EvInterval 0) sys = Some sys' ∧
       calls_of (sys_world sys') =
         calls_of (sys_world sys) ++ [dashboard_call_B (sys_world sys)] ∧
       field "refreshing" (sys_world sys') = Bool true ∧
       length (inflight sys') = S (length (inflight sys))) ∧
  (∀ sys, reachable VariantA.AttendanceDashboard sys →
     sys_phase sys = Mounted ∨ sys_phase sys = Destroyed →
     ∃ sys',
       step VariantA.AttendanceDashboard (EvInterval 0) sys = Some sys' ∧
       calls_of (sys_world sys') =
         calls_of (sys_world sys) ++ [dashboard_call_A (sys_world sys)] ∧
       field "refreshing" (sys_world sys') = Bool true ∧
       length (inflight sys') = S (length (inflight sys))).
Proof.
  split; intros sys Hreach Hph.
  - destruct (reachable_orderly_B sys Hreach) as (_ & _ & Hiv).
    assert (Hint : intervals (sys_world sys) = [(1%nat, VariantB.RefreshData, 60000)])
      by (destruct Hph as [E | E]; rewrite E in Hiv; apply Hiv).
    unfold step. rewrite Hint. cbn [lookup list_lookup].
    unfold start. cbn [handle VariantB.AttendanceDashboard VariantB.handle].
    destruct (refreshData_B_first_call (sys_world sys)) as (w1 & c & k & E & Hcalls & Hr).
    rewrite E. cbn [settle]. eexists. split; [reflexivity|].
    cbn [sys_world inflight]. rewrite length_app. cbn [length].
    split; [exact Hcalls|]. split; [exact Hr | lia].
  - destruct (reachable_orderly_A sys Hreach) as (_ & _ & Hiv).
    assert (Hint : intervals (sys_world sys) = [(1%nat, VariantA.RefreshData, 60000)])
      by (destruct Hph as [E | E]; rewrite E in Hiv; apply Hiv).
    unfold step. rewrite Hint. cbn [lookup list_lookup].
    unfold start. cbn [handle VariantA.AttendanceDashboard VariantA.handle].
    destruct (refreshData_A_first_call (sys_world sys)) as (w1 & c & k & E & Hcalls & Hr).
    rewrite E. cbn [settle]. eexists. split; [reflexivity|].
    cbn [sys_world inflight]. rewrite length_app. cbn [length].
    split; [exact Hcalls|]. split; [exact Hr | lia].
Qed.

Lemma interval_always_retries_witness :
  ∃ sys,
    run VariantB.AttendanceDashboard session_until_unmount
      (boot VariantB.AttendanceDashboard a_date) = Some sys ∧
    sys_phase sys = Destroyed ∧
    ∃ sys',
      step VariantB.AttendanceDashboard (EvInterval 0) sys = Some sys' ∧
      calls_of (sys_world sys') =
        calls_of (sys_world sys) ++ [dashboard_call_B (sys_world sys)] ∧
      field "refreshing" (sys_world sys') = Bool true ∧
      length (inflight sys') = S (length (inflight sys)).
Proof.
  eexists. split; [reflexivity|]. split; [reflexivity|].
  match goal with
  | |- context [sys_world ?s] =>
      exact (proj1 interval_always_retries s
               (ex_intro _ a_date (ex_intro _ session_until_unmount eq_refl))
               (or_intror eq_refl))
  end.
Defined.

(** ** The flags along the life of the component (variant A) *)

Lemma run_snoc {H : Type} (comp : component H) evs ev (sys : system H) :
  run comp (evs ++ [ev]) sys =
  match run comp evs sys with
  | Some sys1 => step comp ev sys1
  | None => None
  end.
Proof.
  revert sys. induction evs as [|e evs IH]; intros sys; cbn [run app].
  - destruct (step comp ev sys); reflexivity.
  - destruct (step comp e sys); [apply IH | reflexivity].
Qed.

Lemma reachable_step {H : Type} (comp : component H) ev (sys sys' : system H) :
  reachable comp sys → step comp ev sys = Some sys' → reachable comp sys'.
Proof.
  intros (d & evs & Hrun) Hstep. exists d, (evs ++ [ev]).
  rewrite run_snoc, Hrun. exact Hstep.
Qed.

Lemma reachable_run {H : Type} (comp : component H) evs : ∀ sys sys' : system H,
  reachable comp sys → run comp evs sys = Some sys' → reachable comp sys'.
Proof.
  induction evs as [|ev evs IH]; intros sys sys' Hreach Hrun; cbn [run] in Hrun.
  - apply (inj Some) in Hrun. by subst.
  - destruct (step comp ev sys) as [sys1|] eqn:Hstep; [|discriminate Hrun].
    eapply IH; [|exact Hrun]. eapply reachable_step; eassumption.
Qed.

Section Flags.

Context {H : Type} (comp : component H) (refresh_job : origin H → bool).

Hypothesis hook_is_no_refresh : refresh_job FromHook = false.
Hypothesis interval_as_user : ∀ h, refresh_job (FromInterval h) = refresh_job (FromUser h).
Hypothesis handlers_keep_flags :
  ∀ h w, guarantee (flags_stretch (refresh_job (FromUser h)))
           (flags_final (refresh_job (FromUser h))) w (handle comp h w).
Hypothesis start_loads :
  ∀ w, ∃ w1 c k,
    run_all (onWillStart (setup comp)) w = Await w1 c k ∧
    (∀ f, field f w1 = field f w) ∧
    first_load (Pending FromHook c k).
Hypothesis mount_keeps_state :
  ∀ w, ∃ w1,
    run_all (onMounted (setup comp)) w = Done w1 (Normal tt) ∧
    (∀ f, field f w1 = field f w).
Hypothesis unmount_idle :
  ∀ w, run_all (onWillUnmount (setup comp)) w = Done w (Normal tt).
Hypothesis no_interval_before_mount :
  ∀ sys, reachable comp sys →
    sys_phase sys = Created ∨ sys_phase sys = Starting →
    intervals (sys_world sys) = [].
Hypothesis boots_loading :
  ∀ d, flags_inv refresh_job (boot comp d).

Lemma settle_keeps_phase o m (sys : system H) :
  sys_phase (settle o m sys) = sys_phase sys.
Proof. destruct m as [w []|]; reflexivity. Qed.

Lemma settle_flags o m (sys : system H) :
  sys_phase sys = Mounted ∨ sys_phase sys = Destroyed →
  (0 < delivered sys)%nat →
  field "loading" (sys_world sys) = Bool false →
  Forall (flags_task refresh_job) (inflight sys) →
  (refresh_job o = false → field "refreshing" (sys_world sys) = Bool true →
   Exists (λ p, refresh_job (p_origin p) = true) (inflight sys)) →
  guarantee (flags_stretch (refresh_job o)) (flags_final (refresh_job o)) (sys_world sys) m →
  flags_inv refresh_job (settle o m sys).
Proof.
  intros Hph Hd Hl Hall Hex Hg.
  assert (Hmounted : ∀ s : system H,
            sys_phase s = sys_phase sys →
            ((0 < delivered s)%nat ∧
             field "loading" (sys_world s) = Bool false ∧
             Forall (flags_task refresh_job) (inflight s) ∧
             (field "refreshing" (sys_world s) = Bool true →
              Exists (λ p, refresh_job (p_origin p) = true) (inflight s))) →
            flags_inv refresh_job s).
  { intros s Hs Hbody. unfold flags_inv. rewrite Hs.
    destruct Hph as [-> | ->]; exact Hbody. }
  apply Hmounted; [apply settle_keeps_phase|].
  inversion Hg as [w0 w r [Hld Hrf] Hfin | w0 w c k [Hld Hrf] Hk]; subst.
  - assert (Hbody : ∀ w1 : world H, field "loading" w1 = field "loading" w →
                          field "refreshing" w1 = field "refreshing" w →
              (0 < delivered sys)%nat ∧ field "loading" w1 = Bool false ∧
              Forall (flags_task refresh_job) (inflight sys) ∧
              (field "refreshing" w1 = Bool true →
               Exists (λ p, refresh_job (p_origin p) = true) (inflight sys))).
    { intros w1 E1 E2. rewrite E1, E2. repeat split; auto.
      intros Hr. destruct (refresh_job o) eqn:Eo.
      - rewrite (Hfin eq_refl) in Hr. discriminate Hr.
      - apply Hex; [reflexivity|]. by rewrite <- Hrf. }
    destruct r; cbn [settle sys_world inflight delivered]; by apply Hbody.
  - cbn [settle sys_world inflight delivered]. repeat split; auto.
    + apply Forall_app. split; [assumption|]. apply Forall_singleton. exact Hk.
    + intros Hr. apply Exists_app. destruct (refresh_job o) eqn:Eo.
      * right. apply Exists_cons_hd. exact Eo.
      * left. apply Hex; [reflexivity|]. by rewrite <- Hrf.
Qed.

Lemma step_flags ev (sys sys' : system H) :
  reachable comp sys →
  flags_inv refresh_job sys →
  step comp ev sys = Some sys' →
  flags_inv refresh_job sys'.
Proof.
  intros Hreach Hinv Hstep.
  pose proof (no_interval_before_mount sys Hreach) as Hnone.
  destruct sys as [w fl ph n].
  destruct ev as [| |i r|i|h| |d]; unfold step in Hstep;
    cbn [sys_phase sys_world inflight delivered] in *.
  - destruct ph; try discriminate Hstep. apply (inj Some) in Hstep; subst sys'.
    destruct Hinv as (Hfl & Hn & Hl & Hr).
    cbn [sys_world inflight delivered sys_phase] in *. subst fl n.
    destruct (start_loads w) as (w1 & c & k & E & Hf & Hs).
    unfold start, enter. cbn [sys_world]. rewrite E. unfold flags_inv.
    cbn [settle sys_world inflight delivered sys_phase app].
    rewrite !Hf. split; [exact Hr|]. left. repeat split; auto.
    eexists. split; [reflexivity | exact Hs].
  - destruct ph; try discriminate Hstep. destruct fl; [|discriminate Hstep].
    apply (inj Some) in Hstep; subst sys'.
    destruct Hinv as (Hr & [(_ & _ & p & Hp & _) | (Hn & Hl & _)]);
      [discriminate Hp|]. cbn [sys_world inflight delivered sys_phase] in *.
    destruct (mount_keeps_state w) as (w1 & E & Hf).
    unfold start, enter. cbn [sys_world]. rewrite E. unfold flags_inv.
    cbn [settle sys_world inflight delivered sys_phase].
    rewrite !Hf. repeat split; auto. rewrite Hr. discriminate.
  - destruct (fl !! i) as [p|] eqn:Hp; [|discriminate Hstep].
    apply (inj Some) in Hstep; subst sys'.
    destruct ph; unfold flags_inv in Hinv;
      cbn [sys_world inflight delivered sys_phase] in Hinv.
    + destruct Hinv as (-> & _). discriminate Hp.
    + destruct Hinv as (Hr & [(Hn & Hl & p0 & -> & Hs) | (_ & _ & ->)]);
        [|discriminate Hp].
      destruct i; [|discriminate Hp]. apply (inj Some) in Hp; subst p0.
      destruct Hs as [_ Hs]. destruct (Hs r w) as (w2 & E & Hl2 & Hr2).
      rewrite E. unfold flags_inv. cbn [settle sys_world inflight delivered sys_phase].
      rewrite Hr2. split; [exact Hr|]. right. repeat split; auto. lia.
    + destruct Hinv as (Hn & Hl & Hall & Hex).
      apply settle_flags; cbn [sys_world inflight delivered sys_phase];
        [ auto | lia | assumption | by apply Forall_delete | | ].
      * intros Ho Hr. apply (Exists_delete_other _ _ _ _ Hp); [|auto].
        rewrite Ho. discriminate.
      * exact (proj1 (Forall_lookup _ _) Hall _ _ Hp r w).
    + destruct Hinv as (Hn & Hl & Hall & Hex).
      apply settle_flags; cbn [sys_world inflight delivered sys_phase];
        [ auto | lia | assumption | by apply Forall_delete | | ].
      * intros Ho Hr. apply (Exists_delete_other _ _ _ _ Hp); [|auto].
        rewrite Ho. discriminate.
      * exact (proj1 (Forall_lookup _ _) Hall _ _ Hp r w).
  - destruct (intervals w !! i) as [[[id cb] ms]|] eqn:Hi; [|discriminate Hstep].
    apply (inj Some) in Hstep; subst sys'.
    assert (Hph : ph = Mounted ∨ ph = Destroyed).
    { destruct ph; auto; rewrite Hnone in Hi by auto; discriminate Hi. }
    assert (Hbody : (0 < n)%nat ∧ field "loading" w = Bool false ∧
                    Forall (flags_task refresh_job) fl ∧
                    (field "refreshing" w = Bool true →
                     Exists (λ p, refresh_job (p_origin p) = true) fl)).
    { unfold flags_inv in Hinv. cbn [sys_world inflight delivered sys_phase] in Hinv.
      destruct Hph as [-> | ->]; exact Hinv. }
    destruct Hbody as (Hn & Hl & Hall & Hex).
    apply settle_flags; cbn [sys_world inflight delivered sys_phase];
      [ exact Hph | assumption | assumption | assumption | auto | ].
    rewrite interval_as_user. apply handlers_keep_flags.
  - destruct ph; try discriminate Hstep. apply (inj Some) in Hstep; subst sys'.
    destruct Hinv as (Hn & Hl & Hall & Hex).
    apply settle_flags; cbn [sys_world inflight delivered sys_phase] in *;
      [ auto | assumption | assumption | assumption | auto | apply handlers_keep_flags ].
  - destruct ph; try discriminate Hstep. apply (inj Some) in Hstep; subst sys'.
    unfold start, enter. cbn [sys_world]. rewrite unmount_idle. exact Hinv.
  - apply (inj Some) in Hstep; subst sys'. destruct ph; exact Hinv.
Qed.

Lemma reachable_flags (sys : system H) :
  reachable comp sys → flags_inv refresh_job sys.
Proof.
  intros (d & evs & Hrun).
  assert (Hstart : reachable comp (boot comp d)) by (exists d, []; reflexivity).
  pose proof (boots_loading d) as Hboot.
  revert Hrun Hstart Hboot. generalize (boot comp d).
  induction evs as [|ev evs IH]; intros sys0 Hrun Hreach Hinv; cbn [run] in Hrun.
  - apply (inj Some) in Hrun. by subst.
  - destruct (step comp ev sys0) as [sys1|] eqn:Hstep; [|discriminate Hrun].
    eapply IH; [exact Hrun | |].
    + eapply reachable_step; eassumption.
    + eapply step_flags; eassumption.
Qed.

End Flags.

Ltac flags_tac :=
  async_run;
  lazymatch goal with
  | |- guarantee _ _ _ (Done _ _) =>
      apply guarantee_done; unfold flags_stretch, flags_final;
      repeat match goal with
             | |- _ ∧ _ => split
             | |- _ → _ => intro
             end;
      try discriminate; world_simpl; first [reflexivity | assumption]
  | |- guarantee _ _ _ (Await _ _ _) =>
      apply guarantee_await;
      [ unfold flags_stretch, flags_final;
        repeat match goal with
               | |- _ ∧ _ => split
               | |- _ → _ => intro
               end;
        try discriminate; world_simpl; first [reflexivity | assumption]
      | let r := fresh "r" in let w' := fresh "w'" in
        intros r w'; destruct r as [[]|]; cbn [get_prop]; flags_tac ]
  | |- context [if strict_eq_str ?v ?s then _ else _] =>
      destruct (strict_eq_str v s); flags_tac
  end.

Lemma handlers_keep_flags_A h (w : world VariantA.handler) :
  guarantee (flags_stretch (is_refresh_A (FromUser h)))
    (flags_final (is_refresh_A (FromUser h))) w (VariantA.handle h w).
Proof.
  destruct h; cbn [is_refresh_A VariantA.handle];
    unfold VariantA.refreshData, VariantA.onDepartmentChange, VariantA.onJobChange,
      VariantA.clearFilters, VariantA.setActiveTab, VariantA.onEmployeeFilterChange,
      VariantA.onMonthChange, VariantA.onYearChange, VariantA.exportToExcel,
      VariantA.refreshData, VariantA.loadDashboardData, VariantA.loadMonthlySummary,
      VariantA.loadEmployeeList.
  all: flags_tac.
Qed.

Lemma reachable_flags_A (sys : system VariantA.handler) :
  reachable VariantA.AttendanceDashboard sys → flags_inv is_refresh_A sys.
Proof.
  apply reachable_flags.
  - reflexivity.
  - exact handlers_keep_flags_A.
  - intros w. unfold run_all.
    cbn [foldr onWillStart setup VariantA.AttendanceDashboard VariantA.setup].
    unfold VariantA.loadDashboardData. async_run.
    do 3 eexists. split; [reflexivity|]. split; [reflexivity|].
    split; [reflexivity|].
    intros r w'. cbn [p_resume].
    destruct r as [[]|]; async_run; eexists;
      (split; [reflexivity|]); world_simpl; split; reflexivity.
  - intros w. unfold run_all.
    cbn [foldr onMounted setup VariantA.AttendanceDashboard VariantA.setup].
    async_run. eexists. split; reflexivity.
  - intros w. reflexivity.
  - intros s Hreach Hph. apply reachable_orderly_A in Hreach as (_ & _ & Hiv).
    destruct Hph as [E | E]; rewrite E in Hiv; exact (proj1 Hiv).
  - intros d. unfold flags_inv, boot. cbn. repeat split; reflexivity.
Qed.

Lemma refreshData_A_clears (server : world VariantA.handler → rpc → reply) w :
  field "refreshing" (complete server (VariantA.refreshData w)).1 = Bool false.
Proof.
  unfold VariantA.refreshData, VariantA.loadDashboardData.
  repeat async_step; cbn [fst]; world_simpl; reflexivity.
Qed.

(** X24. The flags of variant A follow the same discipline as those of
    variant B, where the job
    filter is one more handler that runs [refreshData]: in every system the
    component can reach, [loading] is [true] exactly until the first reply
    is delivered, which happens before mounting, and stays [false] from then
    on; [refreshing] is [true] only after mounting and only while a job that
    runs [refreshData] is in flight; every such job leaves [refreshing]
    cleared when it finishes, however its calls settle. *)
Theorem loading_and_refreshing_flags_A (sys : system VariantA.handler) :
  reachable VariantA.AttendanceDashboard sys →
  field "loading" (sys_world sys) = Bool (delivered sys =? 0)%nat ∧
  (delivered sys = 0%nat → sys_phase sys = Created ∨ sys_phase sys = Starting) ∧
  (∀ evs sys', run VariantA.AttendanceDashboard evs sys = Some sys' →
     field "loading" (sys_world sys) = Bool false →
     field "loading" (sys_world sys') = Bool false) ∧
  (field "refreshing" (sys_world sys) = Bool true →
     (sys_phase sys = Mounted ∨ sys_phase sys = Destroyed) ∧
     Exists (λ p, is_refresh_A (p_origin p) = true) (inflight sys)) ∧
  Forall (λ p, is_refresh_A (p_origin p) = true → ∀ r w',
            guarantee (λ _ _, True) (λ w1, field "refreshing" w1 = Bool false)
              w' (p_resume p r w'))
         (inflight sys) ∧
  (∀ server w0,
     field "refreshing" (complete server (VariantA.refreshData w0)).1 = Bool false).
Proof.
  intros Hreach.
  assert (Hload : ∀ s, reachable VariantA.AttendanceDashboard s →
            field "loading" (sys_world s) = Bool (delivered s =? 0)%nat ∧
            (delivered s = 0%nat → sys_phase s = Created ∨ sys_phase s = Starting)).
  { intros s Hs. apply reachable_flags_A in Hs. unfold flags_inv in Hs.
    destruct (sys_phase s).
    - destruct Hs as (_ & -> & -> & _). auto.
    - destruct Hs as (_ & [(-> & -> & _) | (Hn & -> & _)]); [auto|].
      destruct (delivered s); [lia|]. split; [reflexivity | discriminate].
    - destruct Hs as (Hn & -> & _). destruct (delivered s); [lia|].
      split; [reflexivity | discriminate].
    - destruct Hs as (Hn & -> & _). destruct (delivered s); [lia|].
      split; [reflexivity | discriminate]. }
  pose proof (reachable_flags_A _ Hreach) as Hinv.
  destruct (Hload _ Hreach) as [Hl Hzero].
  split; [exact Hl|]. split; [exact Hzero|]. split; [|split; [|split]].
  - intros evs sys' Hrun Hfalse.
    destruct (Hload sys') as [Hl' _]; [eapply reachable_run; eassumption|].
    rewrite Hl'. apply run_delivered in Hrun. rewrite Hl in Hfalse.
    destruct (delivered sys); [discriminate Hfalse|].
    destruct (delivered sys'); [lia | reflexivity].
  - intros Hr. unfold flags_inv in Hinv. destruct (sys_phase sys).
    + destruct Hinv as (_ & _ & _ & Hr'). congruence.
    + destruct Hinv as (Hr' & _). congruence.
    + destruct Hinv as (_ & _ & _ & Hex). auto.
    + destruct Hinv as (_ & _ & _ & Hex). auto.
  - assert (Hok : Forall (flags_task is_refresh_A) (inflight sys) ∨
                  ∃ p, inflight sys = [p] ∧ p_origin p = FromHook).
    { unfold flags_inv in Hinv. destruct (sys_phase sys).
      - destruct Hinv as (-> & _). left. constructor.
      - destruct Hinv as (_ & [(_ & _ & p & -> & Ho & _) | (_ & _ & ->)]).
        + right. eauto.
        + left. constructor.
      - destruct Hinv as (_ & _ & Hall & _). auto.
      - destruct Hinv as (_ & _ & Hall & _). auto. }
    destruct Hok as [Hall | (p & -> & Ho)].
    + eapply Forall_impl; [exact Hall|]. intros p Hp Hrp r w'.
      eapply guarantee_weaken; [| |exact (Hp r w')].
      * auto.
      * intros a Ha. apply Ha. exact Hrp.
    + apply Forall_singleton. rewrite Ho. discriminate.
  - exact refreshData_A_clears.
Qed.

Lemma loading_and_refreshing_flags_A_witness :
  ∃ sys,
    run VariantA.AttendanceDashboard session_with_job_filter
      (boot VariantA.AttendanceDashboard a_date) = Some sys ∧
    field "loading" (sys_world sys) = Bool false ∧
    field "refreshing" (sys_world sys) = Bool true ∧
    Exists (λ p, is_refresh_A (p_origin p) = true) (inflight sys).
Proof.
  eexists. split; [reflexivity|].
  match goal with
  | |- context [sys_world ?s] =>
      pose proof (loading_and_refreshing_flags_A s
                    (ex_intro _ a_date (ex_intro _ session_with_job_filter eq_refl)))
        as Hflags
  end.
  split; [exact (proj1 Hflags)|]. split; [reflexivity|].
  exact (proj2 (proj1 (proj2 (proj2 (proj2 Hflags))) eq_refl)).
Defined.
